(** * vscode-rust: the cargo task engine and its diagnostic parser

  A shallow embedding of
  - [DiagnosticParser] (diagnostic_parser.ts),
  - [CargoTask] and [OutputChannelCargoTask] (output_channel_cargo_task.ts),
  - [CargoTaskManager] (cargo_manager.ts),
  together with the properties of these components.

  JavaScript values are embedded as follows.  A [number] that only ever
  holds an integer is an integer of Rocq ([N] for the message counter,
  [Z] for positions and exit codes; the counter is exact as long as it
  stays below 2^53, which takes that many compiler messages).  A member
  that may be [null] or [undefined] is an [option].  An exception is an
  explicit [Throw] result, and the object a method mutates is threaded
  through it. *)

From Stdlib Require Import ZArith NArith String Ascii List DecimalString.
From stdpp Require Import base option list strings gmap.

Set Warnings "-register-all".

Local Open Scope string_scope.
Local Open Scope list_scope.

(** ** JavaScript helpers *)

Module JS.

(** What a [throw] carries, as far as this code distinguishes it. *)
Inductive exn :=
| SyntaxError                (* JSON.parse on malformed text *)
| TypeError                  (* member access on undefined *)
| Error (message : string).  (* new Error(message) *)

Inductive result (A : Type) :=
| Ok (a : A)
| Throw (e : exn).
Arguments Ok {A} a.
Arguments Throw {A} e.

(** [if (s)] on a string that may be null: null and the empty string are
    falsy. *)
Definition truthy (s : option string) : bool :=
  match s with
  | Some s => negb (String.eqb s "")
  | None => false
  end.

(** [`${n}`] for a non-negative integer. *)
Definition N_toString (n : N) : string :=
  NilEmpty.string_of_uint (N.to_uint n).

(** [`${z}`] for an integer. *)
Definition Z_toString (z : Z) : string :=
  match z with
  | Z0 => "0"
  | Zpos p => N_toString (Npos p)
  | Zneg p => "-" +:+ N_toString (Npos p)
  end.

(** [s.repeat(n)] *)
Fixpoint repeat (s : string) (n : nat) : string :=
  match n with
  | O => ""
  | S n => s +:+ repeat s n
  end.

(** [s.startsWith(p)] *)
Definition startsWith (s p : string) : bool := String.prefix p s.

(** [l.join(sep)] *)
Fixpoint join (sep : string) (l : list string) : string :=
  match l with
  | [] => ""
  | [x] => x
  | x :: l => x +:+ sep +:+ join sep l
  end.

(** The line feed of a template literal. *)
Definition LF : string := String (ascii_of_nat 10) "".

(** The double quote. *)
Definition DQUOTE : string := String (ascii_of_nat 34) "".

(** [`${ms / 1000}`] for a whole number of milliseconds: the quotient is
    printed with the decimals it has, at most three (exact for any
    duration below 10^15 ms). *)
Definition seconds_toString (ms : Z) : string :=
  let whole := Z_toString (Z.abs ms / 1000) in
  let thousandths := (Z.abs ms mod 1000)%Z in
  let decimals :=
    if (thousandths =? 0)%Z then ""
    else if (thousandths mod 100 =? 0)%Z then "." +:+ Z_toString (thousandths / 100)
    else if (thousandths mod 10 =? 0)%Z then
      "." +:+ (if (thousandths <? 100)%Z then "0" else "") +:+ Z_toString (thousandths / 10)
    else
      "." +:+ (if (thousandths <? 10)%Z then "00"
               else if (thousandths <? 100)%Z then "0" else "")
          +:+ Z_toString thousandths in
  (if (ms <? 0)%Z then "-" else "") +:+ whole +:+ decimals.

End JS.

Export JS(exn(..), result(..)).

(** ** The JSON text format

    A reader of JSON text (ECMA-404), the format of the lines that cargo
    prints under [--message-format json].  The parser below takes the
    decoder as a parameter; this reader provides the decoder against
    which the scenarios are run. *)

Module JSON.

Local Open Scope char_scope.
Local Open Scope list_scope.

(** A number is kept as the decimal it is written as:
    [mantissa * 10 ^ exponent]. *)
Inductive value :=
| JNull
| JBool (b : bool)
| JNumber (mantissa exponent : Z)
| JString (s : string)
| JArray (elements : list value)
| JObject (members : list (string * value)).

Definition is_ws (c : ascii) : bool :=
  match c with
  | " " | "009" | "010" | "013" => true
  | _ => false
  end.

(** JSON text written with ['] where it has the double quote. *)
Definition quoted (text : string) : string :=
  string_of_list_ascii
    (map (fun c => if Ascii.eqb c "'" then "034" else c) (list_ascii_of_string text)).

Fixpoint skip_ws (cs : list ascii) : list ascii :=
  match cs with
  | c :: cs' => if is_ws c then skip_ws cs' else cs
  | [] => []
  end.

Definition digit (c : ascii) : option Z :=
  let n := Z.of_nat (nat_of_ascii c) in
  if ((48 <=? n) && (n <=? 57))%Z then Some (n - 48)%Z else None.

Definition hex_digit (c : ascii) : option Z :=
  let n := Z.of_nat (nat_of_ascii c) in
  if ((48 <=? n) && (n <=? 57))%Z then Some (n - 48)%Z
  else if ((65 <=? n) && (n <=? 70))%Z then Some (n - 55)%Z
  else if ((97 <=? n) && (n <=? 102))%Z then Some (n - 87)%Z
  else None.

(** The longest run of digits at the head of [cs]: its value when read
    after [acc], how many they are, and what follows. *)
Fixpoint digits (cs : list ascii) (acc : Z) (count : Z) : Z * Z * list ascii :=
  match cs with
  | c :: cs' =>
      match digit c with
      | Some d => digits cs' (10 * acc + d)%Z (count + 1)%Z
      | None => (acc, count, cs)
      end
  | [] => (acc, count, [])
  end.

Definition ascii_of_Z (z : Z) : ascii := ascii_of_nat (Z.to_nat z).

(** The UTF-8 bytes of the code unit of a [\uXXXX] escape. *)
Definition utf8 (u : Z) : list ascii :=
  if (u <? 128)%Z then [ascii_of_Z u]
  else if (u <? 2048)%Z then
    [ascii_of_Z (192 + u / 64); ascii_of_Z (128 + u mod 64)]
  else
    [ascii_of_Z (224 + u / 4096); ascii_of_Z (128 + (u / 64) mod 64);
     ascii_of_Z (128 + u mod 64)].

(** The characters of a string up to its closing quote, [cs] starting
    after the opening quote. *)
Fixpoint string_chars (cs : list ascii) : option (list ascii * list ascii) :=
  match cs with
  | "034" :: cs' => Some ([], cs')
  | "\" :: "u" :: a :: b :: c :: d :: cs' =>
      match hex_digit a, hex_digit b, hex_digit c, hex_digit d with
      | Some a, Some b, Some c, Some d =>
          match string_chars cs' with
          | Some (s, rest) => Some (utf8 (4096 * a + 256 * b + 16 * c + d) ++ s, rest)
          | None => None
          end
      | _, _, _, _ => None
      end
  | "\" :: e :: cs' =>
      let unescaped :=
        match e with
        | "034" => Some "034"
        | "\" => Some "\"
        | "/" => Some "/"
        | "b" => Some "008"
        | "f" => Some "012"
        | "n" => Some "010"
        | "r" => Some "013"
        | "t" => Some "009"
        | _ => None
        end in
      match unescaped, string_chars cs' with
      | Some c, Some (s, rest) => Some (c :: s, rest)
      | _, _ => None
      end
  | c :: cs' =>
      if (nat_of_ascii c <? 32)%nat then None
      else match string_chars cs' with
           | Some (s, rest) => Some (c :: s, rest)
           | None => None
           end
  | [] => None
  end.

(** A number, [cs] starting at its first character. *)
Definition number (cs : list ascii) : option (value * list ascii) :=
  let '(negative, cs) :=
    match cs with
    | "-" :: cs' => (true, cs')
    | _ => (false, cs)
    end in
  let sign (z : Z) := if negative : bool then (- z)%Z else z in
  match
    match cs with
    | "0" :: cs' => Some (0%Z, cs')
    | c :: _ =>
        match digit c with
        | Some _ => let '(n, _, rest) := digits cs 0 0 in Some (n, rest)
        | None => None
        end
    | [] => None
    end
  with
  | None => None
  | Some (int, cs) =>
      match
        match cs with
        | "." :: cs' =>
            let '(n, count, rest) := digits cs' int 0 in
            if (count =? 0)%Z then None else Some (n, (- count)%Z, rest)
        | _ => Some (int, 0%Z, cs)
        end
      with
      | None => None
      | Some (mantissa, exponent, cs) =>
          match cs with
          | ("e" | "E") :: cs' =>
              let '(negative_exp, cs') :=
                match cs' with
                | "-" :: cs'' => (true, cs'')
                | "+" :: cs'' => (false, cs'')
                | _ => (false, cs')
                end in
              let '(e, count, rest) := digits cs' 0 0 in
              if (count =? 0)%Z then None
              else Some (JNumber (sign mantissa)
                                 (exponent + if negative_exp : bool then - e else e)%Z,
                         rest)
          | _ => Some (JNumber (sign mantissa) exponent, cs)
          end
      end
  end.

(** A value, the members of an object after its first and the elements of
    an array after its first; [fuel] bounds the depth of the calls, which
    the length of the text bounds. *)
Fixpoint parse_value (fuel : nat) (cs : list ascii) : option (value * list ascii) :=
  match fuel with
  | O => None
  | S fuel =>
      match skip_ws cs with
      | "n" :: "u" :: "l" :: "l" :: rest => Some (JNull, rest)
      | "t" :: "r" :: "u" :: "e" :: rest => Some (JBool true, rest)
      | "f" :: "a" :: "l" :: "s" :: "e" :: rest => Some (JBool false, rest)
      | "034" :: rest =>
          match string_chars rest with
          | Some (s, rest) => Some (JString (string_of_list_ascii s), rest)
          | None => None
          end
      | "[" :: rest =>
          match skip_ws rest with
          | "]" :: rest => Some (JArray [], rest)
          | rest =>
              match parse_value fuel rest with
              | Some (v, rest) =>
                  match parse_elements fuel rest with
                  | Some (vs, rest) => Some (JArray (v :: vs), rest)
                  | None => None
                  end
              | None => None
              end
          end
      | "{" :: rest =>
          match skip_ws rest with
          | "}" :: rest => Some (JObject [], rest)
          | rest =>
              match parse_member fuel rest with
              | Some (m, rest) =>
                  match parse_members fuel rest with
                  | Some (ms, rest) => Some (JObject (m :: ms), rest)
                  | None => None
                  end
              | None => None
              end
          end
      | cs => number cs
      end
  end
with parse_elements (fuel : nat) (cs : list ascii) : option (list value * list ascii) :=
  match fuel with
  | O => None
  | S fuel =>
      match skip_ws cs with
      | "]" :: rest => Some ([], rest)
      | "," :: rest =>
          match parse_value fuel rest with
          | Some (v, rest) =>
              match parse_elements fuel rest with
              | Some (vs, rest) => Some (v :: vs, rest)
              | None => None
              end
          | None => None
          end
      | _ => None
      end
  end
with parse_member (fuel : nat) (cs : list ascii) : option (string * value * list ascii) :=
  match fuel with
  | O => None
  | S fuel =>
      match skip_ws cs with
      | "034" :: rest =>
          match string_chars rest with
          | Some (key, rest) =>
              match skip_ws rest with
              | ":" :: rest =>
                  match parse_value fuel rest with
                  | Some (v, rest) => Some (string_of_list_ascii key, v, rest)
                  | None => None
                  end
              | _ => None
              end
          | None => None
          end
      | _ => None
      end
  end
with parse_members (fuel : nat) (cs : list ascii)
    : option (list (string * value) * list ascii) :=
  match fuel with
  | O => None
  | S fuel =>
      match skip_ws cs with
      | "}" :: rest => Some ([], rest)
      | "," :: rest =>
          match parse_member fuel rest with
          | Some (m, rest) =>
              match parse_members fuel rest with
              | Some (ms, rest) => Some (m :: ms, rest)
              | None => None
              end
          | None => None
          end
      | _ => None
      end
  end.

(** The value that [text] denotes, if it is JSON. *)
Definition parse (text : string) : option value :=
  let cs := list_ascii_of_string text in
  match parse_value (2 + length cs) cs with
  | Some (v, rest) =>
      match skip_ws rest with
      | [] => Some v
      | _ => None
      end
  | None => None
  end.

(** [object.key]; where a key is repeated the last one counts. *)
Fixpoint member (key : string) (members : list (string * value)) : option value :=
  match members with
  | (k, v) :: members =>
      match member key members with
      | Some v' => Some v'
      | None => if String.eqb k key then Some v else None
      end
  | [] => None
  end.

(** The integer that a number denotes, if it denotes one. *)
Definition integer (v : value) : option Z :=
  match v with
  | JNumber mantissa exponent =>
      if (0 <=? exponent)%Z then Some (mantissa * 10 ^ exponent)%Z
      else if (mantissa mod 10 ^ (- exponent) =? 0)%Z
           then Some (mantissa / 10 ^ (- exponent))%Z
           else None
  | _ => None
  end.

End JSON.

(** ** diagnostic_parser.ts *)

Module DiagnosticParser.

Record CompilerMessageSpanText := {
  highlight_end : Z;
  highlight_start : Z;
  text_ : string
}.

Record CompilerMessageCode := {
  code_ : string;
  explanation : string
}.

(** A span points, through [expansion], at the spans of the macro that
    produced it.  The compiler writes [null] for a [def_site_span] it
    does not know. *)
Inductive CompilerMessageSpan := {
  byte_end : Z;
  byte_start : Z;
  column_end : Z;
  column_start : Z;
  expansion : option CompilerMessageSpanExpansion;
  file_name : string;
  is_primary : bool;
  label : option string;
  line_end : Z;
  line_start : Z;
  text : list CompilerMessageSpanText
}
with CompilerMessageSpanExpansion := {
  def_site_span : option CompilerMessageSpan;
  macro_decl_name : string;
  span : CompilerMessageSpan
}.

(** An entry of [children]: the code reads its [level], its [message] and,
    when present, its own [children]. *)
Inductive ChildMessage :=
| mkChildMessage (level : string) (message : string)
                 (children : option (list ChildMessage)).

Record CompilerMessage := {
  children : list ChildMessage;
  code : option CompilerMessageCode;
  level : string;
  message : string;
  spans : list CompilerMessageSpan
}.

(** The decoded line, as [parseLine] reads it: the [reason] tag and the
    [message] member that a compiler-message event carries. *)
Record CargoMessage := {
  reason : string;
  cargo_message : option CompilerMessage;
  package_id : string
}.

(** vscode's [DiagnosticSeverity]. *)
Inductive DiagnosticSeverity := Error_ | Warning | Information | Hint.

(** The four arguments of vscode's [new Range(..)].  What the constructor
    makes of them, and that it can throw, is taken up in [RangeChecked]. *)
Record Range := {
  startLine : Z;
  startCharacter : Z;
  endLine : Z;
  endCharacter : Z
}.

(** vscode's [new Diagnostic(range, message, severity)]. *)
Record Diagnostic := {
  range : Range;
  diagnostic_message : string;
  severity : DiagnosticSeverity
}.

(** file_diagnostic.ts *)
Record FileDiagnostic := {
  filePath : string;
  diagnostic : Diagnostic
}.

(** The parser object: its only member is the counter. *)
Record t := { complexMessageIndex : N }.

(** [new DiagnosticParser()] *)
Definition constructor : t := {| complexMessageIndex := 0 |}.

(** *** Methods

    A method runs on the parser object and either returns or throws; what
    it did to the object before throwing stays done. *)

Definition M (A : Type) : Type := t -> t * result A.

#[global] Instance M_ret : MRet M := fun A a this => (this, Ok a).

#[global] Instance M_bind : MBind M := fun A B k m this =>
  match m this with
  | (this', Ok a) => k a this'
  | (this', Throw e) => (this', Throw e)
  end.

Definition throw {A : Type} (e : exn) : M A := fun this => (this, Throw e).

(** [this.complexMessageIndex] *)
Definition getComplexMessageIndex : M N :=
  fun this => (this, Ok (complexMessageIndex this)).

(** [++this.complexMessageIndex] *)
Definition incrementComplexMessageIndex : M unit :=
  fun this => ({| complexMessageIndex := complexMessageIndex this + 1 |}, Ok tt).

Definition toSeverity (severity : string) : DiagnosticSeverity :=
  if String.eqb severity "warning" then Warning
  else if String.eqb severity "note" then Information
  else if String.eqb severity "help" then Hint
  else Error_.

(** What one round of the loop of [childrenToString] appends to [message]
    for [child]. *)
Fixpoint childToString (child : ChildMessage) (level : nat) : string :=
  match child with
  | mkChildMessage child_level child_message child_children =>
      let indentation := JS.repeat "  " level in
      JS.LF +:+ indentation +:+ child_level +:+ ": " +:+ child_message +:+
      match child_children with
      | Some children =>
          fold_left (fun message child => message +:+ childToString child (level + 1))
                    children ""
      | None => ""
      end
  end.

Definition childrenToString (children : list ChildMessage) (level : nat) : string :=
  fold_left (fun message child => message +:+ childToString child level)
            children "".

(** [new Range(span.line_start - 1, span.column_start - 1,
               span.line_end - 1, span.column_end - 1)] *)
Definition spanRange (span : CompilerMessageSpan) : Range :=
  {| startLine := line_start span - 1;
     startCharacter := column_start span - 1;
     endLine := line_end span - 1;
     endCharacter := column_end span - 1 |}.

(** [`${compilerMessage.code.code}: `] when the message has a code. *)
Definition codePrefix (compilerMessage : CompilerMessage) : string :=
  match code compilerMessage with
  | Some c => code_ c +:+ ": "
  | None => ""
  end.

(** [`\n${span.label}`] when the label is truthy. *)
Definition labelSuffix (span : CompilerMessageSpan) : string :=
  if JS.truthy (label span) then JS.LF +:+ default "" (label span) else "".

Definition isComplexCompilerMessage (compilerMessage : CompilerMessage) : M bool :=
  if Nat.eqb (length (spans compilerMessage)) 0 then
    throw (Error "A compiler message must have spans")
  else if Nat.ltb 1 (length (spans compilerMessage)) then mret true
  else
    match spans compilerMessage with
    | [] => throw TypeError  (* spans[0] is undefined *)
    | span0 :: _ =>
        match expansion span0 with
        | Some _ => mret true
        | None => mret false
        end
    end.

(** One round of the loop of [parseComplexCompilerMessage]: [diagnostics]
    after the round for [span], [index] being [this.complexMessageIndex]. *)
Definition parseComplexSpan (index : N) (compilerMessage : CompilerMessage)
    (diagnostics : list FileDiagnostic) (span : CompilerMessageSpan)
    : list FileDiagnostic :=
  let range := spanRange span in
  let message := "(" +:+ JS.N_toString index +:+ ") " in
  let message := message +:+ codePrefix compilerMessage in
  let push message :=
    let diagnostic :=
      {| range := range; diagnostic_message := message;
         severity := toSeverity (level compilerMessage) |} in
    let fileDiagnostic := {| filePath := file_name span; diagnostic := diagnostic |} in
    diagnostics ++ [fileDiagnostic] in
  if is_primary span then
    let message := message +:+ DiagnosticParser.message compilerMessage in
    let message := message +:+ labelSuffix span in
    let message := message +:+ childrenToString (children compilerMessage) 1 in
    push message
  else if JS.truthy (label span) then
    let message := message +:+ default "" (label span) in
    push message
  else
    diagnostics.  (* continue *)

Definition parseComplexCompilerMessage (compilerMessage : CompilerMessage)
    : M (list FileDiagnostic) :=
  index ← getComplexMessageIndex;
  mret (fold_left (parseComplexSpan index compilerMessage) (spans compilerMessage) []).

Definition parseSimpleCompilerMessage (compilerMessage : CompilerMessage)
    : M (list FileDiagnostic) :=
  match spans compilerMessage with
  | [] => throw TypeError  (* spans[0] is undefined *)
  | span :: _ =>
      let range := spanRange span in
      let message := "" in
      let message := message +:+ codePrefix compilerMessage in
      let message := message +:+ DiagnosticParser.message compilerMessage in
      let message := message +:+ labelSuffix span in
      let message := message +:+ childrenToString (children compilerMessage) 1 in
      let diagnostic :=
        {| range := range; diagnostic_message := message;
           severity := toSeverity (level compilerMessage) |} in
      let fileDiagnostic := {| filePath := file_name span; diagnostic := diagnostic |} in
      mret [fileDiagnostic]
  end.

Definition parseCompilerMessage (compilerMessage : CompilerMessage)
    : M (list FileDiagnostic) :=
  if Nat.eqb (length (spans compilerMessage)) 0 then mret []
  else
    isComplex ← isComplexCompilerMessage compilerMessage;
    if isComplex : bool then
      incrementComplexMessageIndex;;
      parseComplexCompilerMessage compilerMessage
    else
      parseSimpleCompilerMessage compilerMessage.

Section ParseLine.

(** [JSON.parse], followed by the cast of its result to the declared type
    of [cargoMessage]; it throws on text that is not JSON. *)
Variable JSON_parse : string -> result CargoMessage.

Definition parseLine (line : string) : M (list FileDiagnostic) :=
  match JSON_parse line with
  | Throw e => throw e
  | Ok cargoMessage =>
      if String.eqb (reason cargoMessage) "compiler-message" then
        match cargo_message cargoMessage with
        | Some compilerMessage => parseCompilerMessage compilerMessage
        | None => throw TypeError  (* undefined.spans *)
        end
      else mret []
  end.

End ParseLine.

(** *** The decoder

    [JSON_parse] reads a line as JSON and views the value at the declared
    type [CargoMessage], as far as [parseLine] looks at it.  Of [null]
    no member can be read, which is a [TypeError].  Of any other value
    whose [reason] is not the string [compiler-message], [parseLine]
    reads nothing else: such a value is decoded whatever its shape, its
    [reason] being the empty string where it has none that is a string,
    and its [message] being left out where it has none of the declared
    type.  Of a compiler message without spans nothing but [spans] is
    read, and the other members get a default where they are not of
    their declared type.  Of a compiler message with spans the members
    that the parser reads must be there and of their declared type;
    [byte_start], [byte_end],
    [text], [explanation], [def_site_span], [macro_decl_name] and
    [package_id], which it never reads, get a default when the line
    leaves them out.  For a
    compiler message of another shape the decoder answers [TypeError];
    no statement below is about such a line. *)

Definition asString (v : option JSON.value) : option string :=
  match v with
  | Some (JSON.JString s) => Some s
  | _ => None
  end.

Definition asBool (v : option JSON.value) : option bool :=
  match v with
  | Some (JSON.JBool b) => Some b
  | _ => None
  end.

Definition asInteger (v : option JSON.value) : option Z :=
  v ≫= JSON.integer.

(** A member that may be [null] or left out. *)
Definition nullable {A : Type} (decode : JSON.value -> option A) (v : option JSON.value)
    : option (option A) :=
  match v with
  | None | Some JSON.JNull => Some None
  | Some v => Some <$> decode v
  end.

Definition decodeSpanText (v : JSON.value) : option CompilerMessageSpanText :=
  match v with
  | JSON.JObject o =>
      e ← asInteger (JSON.member "highlight_end" o);
      s ← asInteger (JSON.member "highlight_start" o);
      t ← asString (JSON.member "text" o);
      Some {| highlight_end := e; highlight_start := s; text_ := t |}
  | _ => None
  end.

Fixpoint decodeSpan (fuel : nat) (v : JSON.value) : option CompilerMessageSpan :=
  match fuel, v with
  | S fuel, JSON.JObject o =>
      column_end ← asInteger (JSON.member "column_end" o);
      column_start ← asInteger (JSON.member "column_start" o);
      expansion ←
        nullable (fun v =>
          match v with
          | JSON.JObject x =>
              span ← JSON.member "span" x ≫= decodeSpan fuel;
              Some {| def_site_span := JSON.member "def_site_span" x ≫= decodeSpan fuel;
                      macro_decl_name :=
                        default "" (asString (JSON.member "macro_decl_name" x));
                      span := span |}
          | _ => None
          end) (JSON.member "expansion" o);
      file_name ← asString (JSON.member "file_name" o);
      is_primary ← asBool (JSON.member "is_primary" o);
      label ← nullable (fun v => asString (Some v)) (JSON.member "label" o);
      line_end ← asInteger (JSON.member "line_end" o);
      line_start ← asInteger (JSON.member "line_start" o);
      text ←
        match JSON.member "text" o with
        | Some (JSON.JArray l) => mapM decodeSpanText l
        | _ => Some []
        end;
      Some {| byte_end := default 0%Z (asInteger (JSON.member "byte_end" o));
              byte_start := default 0%Z (asInteger (JSON.member "byte_start" o));
              column_end := column_end;
              column_start := column_start;
              expansion := expansion;
              file_name := file_name;
              is_primary := is_primary;
              label := label;
              line_end := line_end;
              line_start := line_start;
              text := text |}
  | _, _ => None
  end.

Fixpoint decodeChild (fuel : nat) (v : JSON.value) : option ChildMessage :=
  match fuel, v with
  | S fuel, JSON.JObject o =>
      level ← asString (JSON.member "level" o);
      message ← asString (JSON.member "message" o);
      children ←
        nullable (fun v =>
          match v with
          | JSON.JArray l => mapM (decodeChild fuel) l
          | _ => None
          end) (JSON.member "children" o);
      Some (mkChildMessage level message children)
  | _, _ => None
  end.

Definition decodeCode (v : JSON.value) : option CompilerMessageCode :=
  match v with
  | JSON.JObject o =>
      c ← asString (JSON.member "code" o);
      Some {| code_ := c;
              explanation := default "" (asString (JSON.member "explanation" o)) |}
  | _ => None
  end.

Definition decodeCompilerMessage (fuel : nat) (v : JSON.value) : option CompilerMessage :=
  match v with
  | JSON.JObject o =>
      let children :=
        match JSON.member "children" o with
        | Some (JSON.JArray l) => mapM (decodeChild fuel) l
        | _ => None
        end in
      let code := nullable decodeCode (JSON.member "code" o) in
      let level := asString (JSON.member "level" o) in
      let message := asString (JSON.member "message" o) in
      spans ←
        match JSON.member "spans" o with
        | Some (JSON.JArray l) => mapM (decodeSpan fuel) l
        | _ => None
        end;
      match spans with
      | [] =>
          (* nothing but [spans] is read *)
          Some {| children := default [] children; code := default None code;
                  level := default "" level; message := default "" message;
                  spans := [] |}
      | _ =>
          children ← children;
          code ← code;
          level ← level;
          message ← message;
          Some {| children := children; code := code; level := level;
                  message := message; spans := spans |}
      end
  | _ => None
  end.

Definition decodeCargoMessage (fuel : nat) (v : JSON.value) : option CargoMessage :=
  match v with
  | JSON.JNull => None
  | JSON.JObject o =>
      let reason := default "" (asString (JSON.member "reason" o)) in
      message ←
        match JSON.member "message" o with
        | None => Some None
        | Some m =>
            if String.eqb reason "compiler-message"
            then Some <$> decodeCompilerMessage fuel m
            else Some (decodeCompilerMessage fuel m)
        end;
      Some {| reason := reason; cargo_message := message;
              package_id := default "" (asString (JSON.member "package_id" o)) |}
  | _ => Some {| reason := ""; cargo_message := None; package_id := "" |}
  end.

Definition JSON_parse (line : string) : result CargoMessage :=
  match JSON.parse line with
  | None => Throw SyntaxError
  | Some v =>
      match decodeCargoMessage (String.length line) v with
      | Some cargoMessage => Ok cargoMessage
      | None => Throw TypeError
      end
  end.

End DiagnosticParser.

(** ** What the components do to their collaborators

    The output channel, the notification window, the diagnostic publisher,
    the status bar and the operating system are outside this code; a run
    is observed as the sequence of calls made on them. *)

Inductive effect :=
| ChannelClear
| ChannelAppend (message : string)
| ChannelShow
| ShowErrorMessage (message : string)
| ShowInformationMessage (message : string)
| ClearDiagnostics
| PublishDiagnostic (fileDiagnostic : DiagnosticParser.FileDiagnostic) (cwd : string)
| StatusBarShow
| StatusBarHide
| Spawn (pid : nat) (cargoPath : string) (args : list string) (cwd : string)
| TreeKill (pid : nat) (signal : string)
| Uncaught (e : exn).

(** The calls that write to the output channel, the text sink. *)
Definition writesChannel (e : effect) : bool :=
  match e with
  | ChannelAppend _ => true
  | _ => false
  end.

Definition isSpawn (e : effect) : bool :=
  match e with
  | Spawn _ _ _ _ => true
  | _ => false
  end.

(** ** [CargoTask] (output_channel_cargo_task.ts) *)

Module CargoTask.

Record ChildProcess := { pid : nat }.

Record t := {
  process : option ChildProcess;
  interrupted : bool
}.

Definition constructor : t := {| process := None; interrupted := false |}.

(** How the promise of [execute] is settled: [resolve(code)], where [code]
    is [null] after a signal, [reject(error)] with the message of the
    error, or [reject()]. *)
Inductive settlement :=
| Resolved (code : option Z)
| Rejected (error : option string).

(** [execute] up to the point where it returns its promise: [onStart] has
    run (its calls are [onStart]) and the process is spawned; [child] is
    what [spawn] returns.  The environment given to the process is not
    part of the model. *)
Definition execute (this : t) (child : ChildProcess) (cargoPath command : string)
    (args : list string) (cwd : string) (onStart : list effect) : t * list effect :=
  let args := [command] ++ args in
  ({| process := Some child; interrupted := interrupted this |},
   onStart ++ [Spawn (pid child) cargoPath args cwd]).

(** The listener for ['error']. *)
Definition onError (this : t) (message : string) : t * settlement :=
  (this, Rejected (Some message)).

(** The listener for ['exit']. *)
Definition onExit (this : t) (code : option Z) : t * settlement :=
  let this' := {| process := None; interrupted := interrupted this |} in
  if interrupted this then (this', Rejected None)
  else (this', Resolved code).

(** What becomes of the promise that [kill] returns: tree-kill was handed
    [resolve] and calls it once the signal is sent, or nobody holds
    [resolve]. *)
Inductive promise :=
| ResolvedByTreeKill
| NeverSettled.

Definition kill (this : t) : t * list effect * promise :=
  match interrupted this, process this with
  | false, Some child =>
      ({| process := Some child; interrupted := true |},
       [TreeKill (pid child) "SIGTERM"],
       ResolvedByTreeKill)
  | _, _ => (this, [], NeverSettled)
  end.

End CargoTask.

(** ** What [runCargo] and [OutputChannelCargoTask.execute] share

    Both methods open with the same [switch] and close with the same two
    lines on the channel. *)

(** The [switch] on [command] that asks for JSON diagnostics. *)
Definition messageFormat (command : string) (args : list string) : list string :=
  if String.eqb command "build" || String.eqb command "check"
     || String.eqb command "clippy" || String.eqb command "run"
     || String.eqb command "test"
  then ["--message-format"; "json"] ++ args
  else args.

(** [`${exitCode}`], where [exitCode] is [undefined], [null] or a number. *)
Definition exitCode_toString (exitCode : option (option Z)) : string :=
  match exitCode with
  | None => "undefined"
  | Some None => "null"
  | Some (Some code) => JS.Z_toString code
  end.

(** The calls of [onStart]. *)
Definition started (command : string) (args : list string) : list effect :=
  [ChannelClear;
   ChannelAppend ("Started cargo " +:+ command +:+ " " +:+ JS.join " " args +:+ JS.LF)].

(** The two lines appended after the task. *)
Definition completed (exitCode : option (option Z)) (startTime endTime : Z) : list effect :=
  [ChannelAppend ("Completed with code " +:+ exitCode_toString exitCode +:+ JS.LF);
   ChannelAppend ("It took approximately " +:+ JS.seconds_toString (endTime - startTime)
                  +:+ " seconds" +:+ JS.LF)].

Definition notAvailable : string :=
  "The " +:+ JS.DQUOTE +:+ "cargo" +:+ JS.DQUOTE
  +:+ " command is not available. Make sure it is installed.".

(** What Node reports of a file that it cannot spawn because it does not
    exist: the process emits ['error'] with an [Error] whose [code] is
    ENOENT and whose [message] names the system call and the file before
    the code. *)
Definition spawnENOENT (file : string) : string :=
  "spawn " +:+ file +:+ " ENOENT".

(** ** [CargoTaskManager] (cargo_manager.ts)

    [runCargo] is an [async] method: a call runs until it returns or
    reaches an [await], where it is suspended as a [frame] until what it
    waits for arrives as an [event].  The listener that settles a promise
    and the continuation of the call that awaits it run in one step, and
    between two events nothing else runs.  The machine covers [runCargo],
    [stopTask] and [invokeCargoCheckWithArgs], and with them the commands
    build, check, clippy, run, test, bench, doc, update, clean and
    terminate.  [invokeCargoNew], which does not go through [runCargo],
    is embedded apart, in [InvokeCargoNew], on the same state.
    [invokeCargoInit] is not embedded: it hands [spawn] an array with a
    hole.  Both write [currentTask] without reading it, so the manager
    gets into states that no history of this machine reaches; what is
    stated of a request to [runCargo] is therefore stated of any state,
    and what is stated of histories says so. *)

Module CargoTaskManager.

(** A suspended call, with the variables it still needs. *)
Inductive frame :=
(* runCargo at [await this.currentWorkingDirectoryManager.cwd()] *)
| AwaitCwd (command : string) (args : list string) (force : bool)
(* runCargo at [await this.currentTask.kill()], on the task [task] *)
| AwaitKill (task : nat) (promise : CargoTask.promise)
            (command : string) (args : list string) (force : bool)
(* runCargo at [await this.currentTask.execute(..)] *)
| AwaitExecute (task : nat) (command : string) (args : list string)
               (cwd : string) (startTime : Z)
(* invokeCargoCheckWithArgs at [await this.checkCargoCheckAvailability()] *)
| AwaitAvailability (task : nat) (args : list string).

(** The manager, the [CargoTask] objects it has created, by reference,
    and the calls that are suspended.  A task is spawned with its
    reference as process id. *)
Record t := {
  currentTask : option nat;
  diagnosticParser : DiagnosticParser.t;
  diagnosticPublishingEnabled : bool;
  showOutput : bool;                 (* configuration['showOutput'] *)
  cargoPath : string;                (* configurationManager.getCargoPath() *)
  tasks : gmap nat CargoTask.t;
  callbacks : gmap nat string;       (* the cwd that the callbacks of a task hold *)
  frames : gmap nat frame;
  fresh : nat                        (* the next unused reference *)
}.

Definition constructor (diagnosticPublishingEnabled showOutput : bool)
    (cargoPath : string) : t :=
  {| currentTask := None;
     diagnosticParser := DiagnosticParser.constructor;
     diagnosticPublishingEnabled := diagnosticPublishingEnabled;
     showOutput := showOutput;
     cargoPath := cargoPath;
     tasks := ∅;
     callbacks := ∅;
     frames := ∅;
     fresh := 0 |}.

Definition set_currentTask (v : option nat) (this : t) : t :=
  {| currentTask := v;
     diagnosticParser := diagnosticParser this;
     diagnosticPublishingEnabled := diagnosticPublishingEnabled this;
     showOutput := showOutput this;
     cargoPath := cargoPath this;
     tasks := tasks this;
     callbacks := callbacks this;
     frames := frames this;
     fresh := fresh this |}.

Definition set_diagnosticParser (v : DiagnosticParser.t) (this : t) : t :=
  {| currentTask := currentTask this;
     diagnosticParser := v;
     diagnosticPublishingEnabled := diagnosticPublishingEnabled this;
     showOutput := showOutput this;
     cargoPath := cargoPath this;
     tasks := tasks this;
     callbacks := callbacks this;
     frames := frames this;
     fresh := fresh this |}.

Definition set_tasks (v : gmap nat CargoTask.t) (this : t) : t :=
  {| currentTask := currentTask this;
     diagnosticParser := diagnosticParser this;
     diagnosticPublishingEnabled := diagnosticPublishingEnabled this;
     showOutput := showOutput this;
     cargoPath := cargoPath this;
     tasks := v;
     callbacks := callbacks this;
     frames := frames this;
     fresh := fresh this |}.

Definition set_callbacks (v : gmap nat string) (this : t) : t :=
  {| currentTask := currentTask this;
     diagnosticParser := diagnosticParser this;
     diagnosticPublishingEnabled := diagnosticPublishingEnabled this;
     showOutput := showOutput this;
     cargoPath := cargoPath this;
     tasks := tasks this;
     callbacks := v;
     frames := frames this;
     fresh := fresh this |}.

Definition set_frames (v : gmap nat frame) (this : t) : t :=
  {| currentTask := currentTask this;
     diagnosticParser := diagnosticParser this;
     diagnosticPublishingEnabled := diagnosticPublishingEnabled this;
     showOutput := showOutput this;
     cargoPath := cargoPath this;
     tasks := tasks this;
     callbacks := callbacks this;
     frames := v;
     fresh := fresh this |}.

Definition set_fresh (v : nat) (this : t) : t :=
  {| currentTask := currentTask this;
     diagnosticParser := diagnosticParser this;
     diagnosticPublishingEnabled := diagnosticPublishingEnabled this;
     showOutput := showOutput this;
     cargoPath := cargoPath this;
     tasks := tasks this;
     callbacks := callbacks this;
     frames := frames this;
     fresh := v |}.

(** A call that reaches an [await] is suspended under an unused number. *)
Definition suspend (fr : frame) (this : t) : t :=
  set_fresh (S (fresh this)) (set_frames (<[fresh this := fr]> (frames this)) this).

(** What arrives from outside. *)
Inductive event :=
| CallRunCargo (command : string) (args : list string) (force : bool)
| CallStopTask
| CallInvokeCargoCheckWithArgs (args : list string)
(* the promise of cwd() that call [f] awaits is resolved with a directory
   or rejected with the message of an error *)
| CwdSettled (f : nat) (cwd : string + string)
(* tree-kill calls [resolve] of the promise that call [f] awaits *)
| TreeKillCallback (f : nat)
(* a line on stdout, on stderr, of the process of [task] *)
| StdoutLine (task : nat) (line : string)
| StderrLine (task : nat) (line : string)
(* ['error'], ['exit'] on the process that call [f] awaits *)
| ProcessError (f : nat) (message : string)
| ProcessExit (f : nat) (code : option Z).

(** The last lines of [runCargo], from the second
    [this.cargoTaskStatusBarManager.hide()] on. *)
Definition complete (now : Z) (exitCode : option (option Z)) (startTime : Z)
    (this : t) : t * list effect :=
  let endTime := now in
  (set_currentTask None this, [StatusBarHide] ++ completed exitCode startTime endTime).

(** [runCargo] from where [await execute(..)] is settled. *)
Definition afterExecute (now : Z) (settled : CargoTask.settlement) (startTime : Z)
    (this : t) : t * list effect :=
  match settled with
  | CargoTask.Resolved code => complete now (Some code) startTime this
  | CargoTask.Rejected error =>
      let this := set_currentTask None this in
      match error with
      | None => (this, [StatusBarHide])  (* interrupted *)
      | Some message =>
          if negb (String.eqb message "ENOENT") then (this, [StatusBarHide])
          else
            let '(this, effects) := complete now None startTime this in
            (this, [StatusBarHide; ShowInformationMessage notAvailable] ++ effects)
      end
  end.

Section WithDecoder.

Variable JSON_parse : string -> result DiagnosticParser.CargoMessage.

Definition onStdoutLine (cwd : string) (line : string) (this : t) : t * list effect :=
  if JS.startsWith line "{" then
    match DiagnosticParser.parseLine JSON_parse line (diagnosticParser this) with
    | (parser, Ok fileDiagnostics) =>
        (set_diagnosticParser parser this,
         flat_map (fun fileDiagnostic =>
                     if diagnosticPublishingEnabled this
                     then [PublishDiagnostic fileDiagnostic cwd] else [])
                  fileDiagnostics)
    | (parser, Throw e) => (set_diagnosticParser parser this, [Uncaught e])
    end
  else (this, [ChannelAppend (line +:+ JS.LF)]).

Definition onStderrLine (line : string) (this : t) : t * list effect :=
  (this, [ChannelAppend (line +:+ JS.LF)]).

(** [this.currentTask.kill()] on the task [task]. *)
Definition killTask (task : nat) (this : t) : t * list effect * CargoTask.promise :=
  match tasks this !! task with
  | Some object =>
      let '(object, effects, promise) := CargoTask.kill object in
      (set_tasks (<[task := object]> (tasks this)) this, effects, promise)
  | None => (this, [], CargoTask.NeverSettled)
  end.

(** [runCargo] up to its first [await]. *)
Definition runCargo (command : string) (args : list string) (force : bool)
    (this : t) : t * list effect :=
  (suspend (AwaitCwd command args force) this, []).

(** [runCargo] from where [cwd] is known to its next [await] or
    [return]; [f] is the call. *)
Definition afterCwd (now : Z) (f : nat) (command : string) (args : list string)
    (force : bool) (cwd : string) (this : t) : t * list effect :=
  match currentTask this with
  | Some task =>
      if force then
        let '(this, effects, promise) := killTask task this in
        (set_frames (<[f := AwaitKill task promise command args force]> (frames this)) this,
         effects)
      else (set_frames (delete f (frames this)) this, [])
  | None =>
      let args := messageFormat command args in
      let task := fresh this in
      let this := set_fresh (S task) this in
      let this := set_currentTask (Some task) this in
      let startTime := now in
      let onStart := started command args in
      let '(object, effects) :=
        CargoTask.execute CargoTask.constructor {| CargoTask.pid := task |}
                          (cargoPath this) command args cwd onStart in
      let this := set_tasks (<[task := object]> (tasks this)) this in
      let this := set_callbacks (<[task := cwd]> (callbacks this)) this in
      (set_frames (<[f := AwaitExecute task command args cwd startTime]> (frames this)) this,
       [ClearDiagnostics] ++ (if showOutput this then [ChannelShow] else [])
       ++ [StatusBarShow] ++ effects)
  end.

(** [invokeCargoCheckWithArgs] up to its [await]:
    [checkCargoCheckAvailability] spawns [cargo check --help] in [/]. *)
Definition invokeCargoCheckWithArgs (args : list string) (this : t) : t * list effect :=
  let task := fresh this in
  let this := set_fresh (S task) this in
  let '(object, effects) :=
    CargoTask.execute CargoTask.constructor {| CargoTask.pid := task |}
                      (cargoPath this) "check" ["--help"] "/" [] in
  let this := set_tasks (<[task := object]> (tasks this)) this in
  (suspend (AwaitAvailability task args) this, effects).

(** [invokeCargoCheckWithArgs] from where the exit code of the probe is
    known.  [args.push(..)] extends the array of the caller; the model
    passes the extended array on and does not follow the caller's
    reference to it. *)
Definition afterAvailability (exitCode : option Z) (args : list string) (this : t)
    : t * list effect :=
  let isAvailable := bool_decide (exitCode = Some 0%Z) in
  let '(command, args) :=
    if isAvailable then ("check", args)
    else ("rustc", args ++ ["--"; "-Zno-trans"]) in
  runCargo command args true this.

(** The listener or continuation that an event runs. *)
Definition step (now : Z) (e : event) (this : t) : t * list effect :=
  match e with
  | CallRunCargo command args force => runCargo command args force this
  | CallStopTask =>
      match currentTask this with
      | Some task => let '(this, effects, _) := killTask task this in (this, effects)
      | None => (this, [])
      end
  | CallInvokeCargoCheckWithArgs args => invokeCargoCheckWithArgs args this
  | CwdSettled f cwd =>
      match frames this !! f with
      | Some (AwaitCwd command args force) =>
          match cwd with
          | inl cwd => afterCwd now f command args force cwd this
          | inr message =>
              (set_frames (delete f (frames this)) this, [ShowErrorMessage message])
          end
      | _ => (this, [])
      end
  | TreeKillCallback f =>
      match frames this !! f with
      | Some (AwaitKill task CargoTask.ResolvedByTreeKill command args force) =>
          runCargo command args force (set_frames (delete f (frames this)) this)
      | _ => (this, [])
      end
  | StdoutLine task line =>
      match callbacks this !! task with
      | Some cwd => onStdoutLine cwd line this
      | None => (this, [])
      end
  | StderrLine task line =>
      match callbacks this !! task with
      | Some cwd => onStderrLine line this
      | None => (this, [])
      end
  | ProcessError f message =>
      match frames this !! f with
      | Some (AwaitExecute task command args cwd startTime) =>
          let '(object, settled) :=
            CargoTask.onError (default CargoTask.constructor (tasks this !! task)) message in
          let this := set_tasks (<[task := object]> (tasks this)) this in
          afterExecute now settled startTime (set_frames (delete f (frames this)) this)
      | Some (AwaitAvailability task args) =>
          (* the rejection is passed on to the caller *)
          (set_frames (delete f (frames this)) this, [])
      | _ => (this, [])
      end
  | ProcessExit f code =>
      match frames this !! f with
      | Some (AwaitExecute task command args cwd startTime) =>
          let '(object, settled) :=
            CargoTask.onExit (default CargoTask.constructor (tasks this !! task)) code in
          let this := set_tasks (<[task := object]> (tasks this)) this in
          afterExecute now settled startTime (set_frames (delete f (frames this)) this)
      | Some (AwaitAvailability task args) =>
          let '(object, settled) :=
            CargoTask.onExit (default CargoTask.constructor (tasks this !! task)) code in
          let this := set_tasks (<[task := object]> (tasks this)) this in
          let this := set_frames (delete f (frames this)) this in
          match settled with
          | CargoTask.Resolved exitCode => afterAvailability exitCode args this
          | CargoTask.Rejected _ => (this, [])
          end
      | _ => (this, [])
      end
  end.

(** A history of events, each with the time at which it arrives, and the
    calls it makes on the collaborators, in order. *)
Fixpoint run (history : list (Z * event)) (this : t) : t * list effect :=
  match history with
  | [] => (this, [])
  | (now, e) :: history =>
      let '(this, effects) := step now e this in
      let '(this, effects') := run history this in
      (this, effects ++ effects')
  end.

End WithDecoder.

End CargoTaskManager.

(** ** [OutputChannelCargoTask] (output_channel_cargo_task.ts)

    [execute] has one [await], on the promise of [CargoTask.execute]; one
    call is modelled together with what its process does until that
    promise is settled. *)

Module OutputChannelCargoTask.

Record t := {
  diagnosticParser : DiagnosticParser.t;
  shouldShowRunningCargoTaskOutputChannel : bool;  (* read from configurationManager *)
  cargoPath : string                               (* configurationManager.getCargoPath() *)
}.

Definition constructor (shouldShow : bool) (cargoPath : string) : t :=
  {| diagnosticParser := DiagnosticParser.constructor;
     shouldShowRunningCargoTaskOutputChannel := shouldShow;
     cargoPath := cargoPath |}.

Definition set_diagnosticParser (v : DiagnosticParser.t) (this : t) : t :=
  {| diagnosticParser := v;
     shouldShowRunningCargoTaskOutputChannel := shouldShowRunningCargoTaskOutputChannel this;
     cargoPath := cargoPath this |}.

(** What happens while [execute] is suspended. *)
Inductive processEvent :=
| OnStdoutLine (line : string)
| OnStderrLine (line : string)
| OnStop                        (* the status bar command: this.runningTask.kill() *)
| OnError (message : string)
| OnExit (code : option Z).

Section WithDecoder.

Variable JSON_parse : string -> result DiagnosticParser.CargoMessage.

Definition onStdoutLine (cwd : string) (line : string) (this : t) : t * list effect :=
  if JS.startsWith line "{" then
    match DiagnosticParser.parseLine JSON_parse line (diagnosticParser this) with
    | (parser, Ok fileDiagnostics) =>
        (set_diagnosticParser parser this,
         map (fun fileDiagnostic => PublishDiagnostic fileDiagnostic cwd) fileDiagnostics)
    | (parser, Throw e) => (set_diagnosticParser parser this, [Uncaught e])
    end
  else (this, [ChannelAppend (line +:+ JS.LF)]).

Definition onStderrLine (line : string) (this : t) : t * list effect :=
  (this, [ChannelAppend (line +:+ JS.LF)]).

(** The listeners run on [events] until one of them settles the promise
    of [runningTask.execute(..)]. *)
Fixpoint listen (cwd : string) (events : list processEvent)
    (runningTask : CargoTask.t) (this : t)
    : t * list effect * option CargoTask.settlement :=
  match events with
  | [] => (this, [], None)
  | OnStdoutLine line :: events =>
      let '(this, effects) := onStdoutLine cwd line this in
      let '(this, effects', settled) := listen cwd events runningTask this in
      (this, effects ++ effects', settled)
  | OnStderrLine line :: events =>
      let '(this, effects) := onStderrLine line this in
      let '(this, effects', settled) := listen cwd events runningTask this in
      (this, effects ++ effects', settled)
  | OnStop :: events =>
      let '(runningTask, effects, _) := CargoTask.kill runningTask in
      let '(this, effects', settled) := listen cwd events runningTask this in
      (this, effects ++ effects', settled)
  | OnError message :: _ =>
      let '(_, settled) := CargoTask.onError runningTask message in
      (this, [], Some settled)
  | OnExit code :: _ =>
      let '(_, settled) := CargoTask.onExit runningTask code in
      (this, [], Some settled)
  end.

(** [execute] from where [await runningTask.execute(..)] is settled. *)
Definition afterExecute (settled : CargoTask.settlement) (startTime endTime : Z)
    : list effect :=
  match settled with
  | CargoTask.Resolved code => [StatusBarHide] ++ completed (Some code) startTime endTime
  | CargoTask.Rejected None => [StatusBarHide]  (* interrupted *)
  | CargoTask.Rejected (Some message) =>
      if negb (String.eqb message "ENOENT") then [StatusBarHide]
      else [StatusBarHide; ShowInformationMessage notAvailable]
           ++ [StatusBarHide] ++ completed None startTime endTime
  end.

(** One call of [execute]: [child] is the process that [spawn] returns,
    [startTime] and [endTime] are what [Date.now()] returns in [onStart]
    and after the task, and [events] is what the process does. *)
Definition execute (command : string) (args : list string) (cwd : string)
    (child : CargoTask.ChildProcess) (startTime endTime : Z)
    (events : list processEvent) (this : t) : t * list effect :=
  let args := messageFormat command args in
  let runningTask := CargoTask.constructor in
  let onStart := started command args in
  let '(runningTask, effects) :=
    CargoTask.execute runningTask child (cargoPath this) command args cwd onStart in
  let effects :=
    [ClearDiagnostics]
    ++ (if shouldShowRunningCargoTaskOutputChannel this then [ChannelShow] else [])
    ++ [StatusBarShow] ++ effects in
  let '(this, effects', settled) := listen cwd events runningTask this in
  match settled with
  | Some settled => (this, effects ++ effects' ++ afterExecute settled startTime endTime)
  | None => (this, effects ++ effects')
  end.

End WithDecoder.

End OutputChannelCargoTask.

(** ** Vocabulary of the statements *)

Module Terms.

Import DiagnosticParser.

(** [compilerMessage] with [spans] for its spans. *)
Definition withSpans (compilerMessage : CompilerMessage) (spans : list CompilerMessageSpan)
    : CompilerMessage :=
  {| children := children compilerMessage;
     code := code compilerMessage;
     level := level compilerMessage;
     message := message compilerMessage;
     spans := spans |}.

(** A message is complex if it has more than one span, or if its single
    span carries an expansion. *)
Definition complex (compilerMessage : CompilerMessage) : Prop :=
  (1 < length (spans compilerMessage))%nat
  ∨ ∃ span x, spans compilerMessage = [span] ∧ expansion span = Some x.

(** [line] decodes to the compiler-message event of [compilerMessage]. *)
Definition compilerMessageLine (JSON_parse : string -> result CargoMessage)
    (line : string) (compilerMessage : CompilerMessage) : Prop :=
  ∃ cargoMessage,
    JSON_parse line = Ok cargoMessage
    ∧ reason cargoMessage = "compiler-message"
    ∧ cargo_message cargoMessage = Some compilerMessage.

(** The parser after it was given [lines], one after the other, whatever
    it returned or threw for each. *)
Definition parseLines (JSON_parse : string -> result CargoMessage)
    (lines : list string) (this : t) : t :=
  fold_left (fun this line => (parseLine JSON_parse line this).1) lines this.


(** The diagnostic that a secondary span with the label [label] gets. *)
Definition secondary (index : N) (compilerMessage : CompilerMessage)
    (span : CompilerMessageSpan) (label : string) : FileDiagnostic :=
  {| filePath := file_name span;
     diagnostic :=
       {| range := spanRange span;
          diagnostic_message :=
            "(" +:+ JS.N_toString index +:+ ") " +:+ codePrefix compilerMessage +:+ label;
          severity := toSeverity (level compilerMessage) |} |}.

(** The first character of the text that is not white space is [c]. *)
Fixpoint firstNonWhitespace (line : string) (c : ascii) : bool :=
  match line with
  | String d rest =>
      if JSON.is_ws d then firstNonWhitespace rest c else Ascii.eqb d c
  | EmptyString => false
  end.

(** The process that [runCargo] spawned for [task] is running: the call
    is suspended on it, neither ['exit'] nor ['error'] has arrived. *)
Definition running (this : CargoTaskManager.t) (task : nat) : Prop :=
  ∃ f command args cwd startTime,
    CargoTaskManager.frames this !! f
    = Some (CargoTaskManager.AwaitExecute task command args cwd startTime).

(** A call of [runCargo] is suspended at [await cwd()] under [f]. *)
Definition awaitsCwd (this : CargoTaskManager.t) (f : nat)
    (command : string) (args : list string) (force : bool) : Prop :=
  CargoTaskManager.frames this !! f = Some (CargoTaskManager.AwaitCwd command args force).

(** The effects hold a call of [spawn]. *)
Definition spawns (effects : list effect) : Prop :=
  ∃ e, e ∈ effects ∧ isSpawn e = true.

End Terms.

(** ** The invariant of the manager *)

Module Invariant.

Import CargoTaskManager.

(** What holds of the manager after any history: references are handed
    out in order; the current task has a process, with its reference as
    process id; a call suspended on [execute] is on the current task, and
    there is at most one; the task of a probe is never the current task. *)
Record wf (this : t) : Prop := {
  wf_frames : ∀ f fr, frames this !! f = Some fr → f < fresh this;
  wf_current : ∀ task, currentTask this = Some task →
    task < fresh this
    ∧ ∃ interrupted, tasks this !! task
        = Some {| CargoTask.process := Some {| CargoTask.pid := task |};
                  CargoTask.interrupted := interrupted |};
  wf_executing : ∀ f task command args cwd startTime,
    frames this !! f = Some (AwaitExecute task command args cwd startTime) →
    currentTask this = Some task;
  wf_single : ∀ f f' task task' command command' args args' cwd cwd' startTime startTime',
    frames this !! f = Some (AwaitExecute task command args cwd startTime) →
    frames this !! f' = Some (AwaitExecute task' command' args' cwd' startTime') →
    f = f';
  wf_probe : ∀ f task args,
    frames this !! f = Some (AwaitAvailability task args) →
    task < fresh this ∧ currentTask this ≠ Some task
}.

End Invariant.

(** ** Lines of cargo used as examples *)

Module Examples.

(** Scenario A: one span, no code, no label. *)
Definition immutable_field : string := JSON.quoted
  "{'message':{'children':[],'code':null,'level':'error','message':'cannot assign to immutable anonymous field `f.1`','spans':[{'line_start':3,'line_end':3,'column_start':5,'column_end':12,'is_primary':true,'label':null,'file_name':'src/main.rs','expansion':null}]},'reason':'compiler-message'}".

(** A message with a code and two spans, the second of them secondary and
    labelled. *)
Definition mismatched_types : string := JSON.quoted
  "{'message':{'children':[],'code':{'code':'E0308','explanation':null},'level':'error','message':'mismatched types','spans':[{'line_start':7,'line_end':7,'column_start':18,'column_end':22,'is_primary':true,'label':'expected u32, found &str','file_name':'src/main.rs','expansion':null},{'line_start':7,'line_end':7,'column_start':12,'column_end':15,'is_primary':false,'label':'expected due to this','file_name':'src/main.rs','expansion':null}]},'reason':'compiler-message'}".

(** A message without a code and three spans: a secondary one with a
    label, the primary one, and a secondary one without a label. *)
Definition borrowed_twice : string := JSON.quoted
  "{'message':{'children':[{'level':'note','message':'first borrow ends here','children':[]}],'code':null,'level':'warning','message':'cannot borrow `x` twice','spans':[{'line_start':4,'line_end':4,'column_start':9,'column_end':10,'is_primary':false,'label':'first borrow','file_name':'src/lib.rs','expansion':null},{'line_start':5,'line_end':5,'column_start':9,'column_end':10,'is_primary':true,'label':'second borrow','file_name':'src/lib.rs','expansion':null},{'line_start':6,'line_end':6,'column_start':1,'column_end':2,'is_primary':false,'label':null,'file_name':'src/lib.rs','expansion':null}]},'reason':'compiler-message'}".

(** [immutable_field], decoded. *)
Definition assignment : DiagnosticParser.CompilerMessageSpan :=
  {| DiagnosticParser.byte_end := 0; DiagnosticParser.byte_start := 0;
     DiagnosticParser.column_end := 12; DiagnosticParser.column_start := 5;
     DiagnosticParser.expansion := None;
     DiagnosticParser.file_name := "src/main.rs";
     DiagnosticParser.is_primary := true;
     DiagnosticParser.label := None;
     DiagnosticParser.line_end := 3; DiagnosticParser.line_start := 3;
     DiagnosticParser.text := [] |}.

Definition immutable_field_message : DiagnosticParser.CompilerMessage :=
  {| DiagnosticParser.children := [];
     DiagnosticParser.code := None;
     DiagnosticParser.level := "error";
     DiagnosticParser.message := "cannot assign to immutable anonymous field `f.1`";
     DiagnosticParser.spans := [assignment] |}.

(** [borrowed_twice], decoded. *)
Definition first_borrow : DiagnosticParser.CompilerMessageSpan :=
  {| DiagnosticParser.byte_end := 0; DiagnosticParser.byte_start := 0;
     DiagnosticParser.column_end := 10; DiagnosticParser.column_start := 9;
     DiagnosticParser.expansion := None;
     DiagnosticParser.file_name := "src/lib.rs";
     DiagnosticParser.is_primary := false;
     DiagnosticParser.label := Some "first borrow";
     DiagnosticParser.line_end := 4; DiagnosticParser.line_start := 4;
     DiagnosticParser.text := [] |}.

Definition second_borrow : DiagnosticParser.CompilerMessageSpan :=
  {| DiagnosticParser.byte_end := 0; DiagnosticParser.byte_start := 0;
     DiagnosticParser.column_end := 10; DiagnosticParser.column_start := 9;
     DiagnosticParser.expansion := None;
     DiagnosticParser.file_name := "src/lib.rs";
     DiagnosticParser.is_primary := true;
     DiagnosticParser.label := Some "second borrow";
     DiagnosticParser.line_end := 5; DiagnosticParser.line_start := 5;
     DiagnosticParser.text := [] |}.

Definition end_of_scope : DiagnosticParser.CompilerMessageSpan :=
  {| DiagnosticParser.byte_end := 0; DiagnosticParser.byte_start := 0;
     DiagnosticParser.column_end := 2; DiagnosticParser.column_start := 1;
     DiagnosticParser.expansion := None;
     DiagnosticParser.file_name := "src/lib.rs";
     DiagnosticParser.is_primary := false;
     DiagnosticParser.label := None;
     DiagnosticParser.line_end := 6; DiagnosticParser.line_start := 6;
     DiagnosticParser.text := [] |}.

Definition borrowed_twice_message : DiagnosticParser.CompilerMessage :=
  {| DiagnosticParser.children :=
       [DiagnosticParser.mkChildMessage "note" "first borrow ends here" (Some [])];
     DiagnosticParser.code := None;
     DiagnosticParser.level := "warning";
     DiagnosticParser.message := "cannot borrow `x` twice";
     DiagnosticParser.spans := [first_borrow; second_borrow; end_of_scope] |}.

(** Scenario C. *)
Definition artifact : string := JSON.quoted
  "{'reason':'compiler-artifact','package_id':'demo 0.1.0','filenames':['target/debug/demo'],'features':[]}".

(** A compiler message without spans. *)
Definition aborting : string := JSON.quoted
  "{'message':{'children':[],'code':null,'level':'error','message':'aborting due to previous error','spans':[]},'reason':'compiler-message'}".

(** A line cut short. *)
Definition truncated : string := JSON.quoted "{'reason':'compiler-artifact'".

(** A build is requested where there is no cargo to run. *)
Definition missing_cargo : list (Z * CargoTaskManager.event) :=
  [(0%Z, CargoTaskManager.CallRunCargo "build" [] true);
   (10%Z, CargoTaskManager.CwdSettled 0 (inl "/project"));
   (22%Z, CargoTaskManager.ProcessError 0 (spawnENOENT "cargo"))].

(** A check is requested, the probe exits with 101, the fallback runs to
    its end, and a check is requested again. *)
Definition check_twice : list (Z * CargoTaskManager.event) :=
  [(0%Z, CargoTaskManager.CallInvokeCargoCheckWithArgs ["--lib"]);
   (50%Z, CargoTaskManager.ProcessExit 1 (Some 101%Z));
   (60%Z, CargoTaskManager.CwdSettled 2 (inl "/project"));
   (900%Z, CargoTaskManager.ProcessExit 2 (Some 0%Z));
   (5000%Z, CargoTaskManager.CallInvokeCargoCheckWithArgs ["--lib"]);
   (5050%Z, CargoTaskManager.ProcessExit 5 (Some 101%Z))].

(** A line of JSON that cargo would not print: it is indented. *)
Definition indented : string := " " +:+ artifact.

End Examples.

(** ** [CurrentWorkingDirectoryManager]
    (configuration/current_working_directory_manager.ts)

    [cwd()] is the promise that [runCargo] awaits first.  What it reads of
    the editor and of the workspace is [vscode]; [dirname] and [join] of
    [path], [find-up] and [fs.access] are taken as they are given.  The
    file system does not change during one call. *)

Module CurrentWorkingDirectoryManager.

(** [rememberedCwd] is a string or [null]. *)
Record t := { rememberedCwd : option string }.

Definition constructor : t := {| rememberedCwd := None |}.

(** [window.activeTextEditor.document.fileName], when there is an active
    editor, and [workspace.rootPath], when a folder is open. *)
Record vscode := {
  activeTextEditor : option string;
  rootPath : option string
}.

(** How a promise of a path ends: resolved with a value, which is a string
    or [undefined], or rejected with what was thrown, or with
    [undefined]. *)
Inductive outcome :=
| Resolved (value : option string)
| Rejected (reason : option exn).

Section WithFileSystem.

Variable dirname : string -> string.
Variable join : string -> string -> string.
(* findUp(name, {cwd}): the path of the file found, or null *)
Variable findUp : string -> string -> option string.
(* fs.access(path, ..) reports no error *)
Variable access : string -> bool.

Variable window_workspace : vscode.

(** [join(a, b)] where [a] may be [null] or [undefined]: [path.join]
    throws a TypeError on an argument that is not a string. *)
Definition join_checked (a : option string) (b : string) : result string :=
  match a with
  | Some a => Ok (join a b)
  | None => Throw TypeError
  end.

(** [s.startsWith(workspace.rootPath)]: an undefined argument is read as
    the string "undefined". *)
Definition startsWithRootPath (s : string) : bool :=
  JS.startsWith s (default "undefined" (rootPath window_workspace)).

Definition checkPathExists (path : string) : bool :=
  let pathExists := access path in
  pathExists.

Definition checkWorkspaceCanBeUsedAsCwd : result bool :=
  match join_checked (rootPath window_workspace) "Cargo.toml" with
  | Ok filePath => Ok (checkPathExists filePath)
  | Throw e => Throw e
  end.

Definition findCargoTomlUpToWorkspace (cwd : string) : outcome :=
  match findUp "Cargo.toml" cwd with
  | None => Rejected (Some (Error "Cargo.toml hasn't been found"))
  | Some cargoTomlDirPath =>
      if negb (startsWithRootPath cargoTomlDirPath) then
        Rejected (Some (Error "Cargo.toml hasn't been found within the workspace"))
      else Resolved (Some (dirname cargoTomlDirPath))
  end.

Definition getCwdFromActiveTextEditor : outcome :=
  match activeTextEditor window_workspace with
  | None => Rejected (Some (Error "No active document"))
  | Some fileName =>
      if negb (startsWithRootPath fileName) then
        Rejected (Some (Error "Current document not in the workspace"))
      else findCargoTomlUpToWorkspace (dirname fileName)
  end.

(** [this.rememberedCwd === undefined] is false of a string and of
    [null]. *)
Definition getPreviousCwd (this : t) : outcome :=
  match join_checked (rememberedCwd this) "Cargo.toml" with
  | Throw e => Rejected (Some e)
  | Ok pathToCargoTomlInPreviousCwd =>
      if checkPathExists pathToCargoTomlInPreviousCwd
      then Resolved (rememberedCwd this)
      else Rejected None
  end.

Definition cwd (this : t) : outcome :=
  match getCwdFromActiveTextEditor with
  | Resolved value => Resolved value
  | Rejected error =>
      match getPreviousCwd this with
      | Resolved value => Resolved value
      | Rejected previousCwdError =>
          match checkWorkspaceCanBeUsedAsCwd with
          | Throw e => Rejected (Some e)
          | Ok canBeUsed =>
              if canBeUsed then Resolved (rootPath window_workspace)
              else Rejected error
          end
      end
  end.

End WithFileSystem.

End CurrentWorkingDirectoryManager.

(** ** [CargoTaskManager.invokeCargoNew] (cargo_manager.ts)

    The method makes a new task the current one whatever the current task
    is, runs [cargo new] with it and, when the promise of [execute] is
    resolved, clears the current task.  It has one [await]; [invokeCargoNew]
    is the method up to there and [afterNew] the rest of it. *)

Module InvokeCargoNew.

Import CargoTaskManager.

Definition invokeCargoNew (projectName : string) (isBin : bool) (cwd : string)
    (this : t) : t * list effect :=
  let task := fresh this in
  let this := set_fresh (S task) this in
  let this := set_currentTask (Some task) this in
  let args := [projectName; if isBin then "--bin" else "--lib"] in
  let '(object, effects) :=
    CargoTask.execute CargoTask.constructor {| CargoTask.pid := task |}
                      (cargoPath this) "new" args cwd [] in
  (set_tasks (<[task := object]> (tasks this)) this,
   [ChannelClear] ++ (if showOutput this then [ChannelShow] else []) ++ effects).

(** [onLine], the callback of both streams. *)
Definition onLine (line : string) : list effect :=
  [ChannelAppend (line +:+ JS.LF)].

(** From where [await this.currentTask.execute(..)] is settled: a
    rejection leaves the method at once. *)
Definition afterNew (settled : CargoTask.settlement) (this : t) : t :=
  match settled with
  | CargoTask.Resolved _ => set_currentTask None this
  | CargoTask.Rejected _ => this
  end.

(** ['exit'] on the process of [task], the task of [invokeCargoNew]. *)
Definition onExit (task : nat) (code : option Z) (this : t) : t :=
  let '(object, settled) :=
    CargoTask.onExit (default CargoTask.constructor (tasks this !! task)) code in
  afterNew settled (set_tasks (<[task := object]> (tasks this)) this).

(** ['error'] on the process of [task]. *)
Definition onError (task : nat) (message : string) (this : t) : t :=
  let '(object, settled) :=
    CargoTask.onError (default CargoTask.constructor (tasks this !! task)) message in
  afterNew settled (set_tasks (<[task := object]> (tasks this)) this).

End InvokeCargoNew.

(** ** Vocabulary of the further statements *)

Module Terms2.

Import DiagnosticParser.

(** The classification of a message, computed. *)
Definition complexb (compilerMessage : CompilerMessage) : bool :=
  match spans compilerMessage with
  | [] => false
  | [span] => bool_decide (is_Some (expansion span))
  | _ :: _ :: _ => true
  end.

(** [line] decodes to a compiler message that is complex. *)
Definition complexLine (JSON_parse : string -> result CargoMessage) (line : string) : bool :=
  match JSON_parse line with
  | Ok cargoMessage =>
      String.eqb (reason cargoMessage) "compiler-message"
      && match cargo_message cargoMessage with
         | Some compilerMessage => complexb compilerMessage
         | None => false
         end
  | Throw _ => false
  end.

(** The span gets a diagnostic in the complex path. *)
Definition reported (span : CompilerMessageSpan) : bool :=
  is_primary span || JS.truthy (label span).

(** The number of messages in a tree of children. *)
Fixpoint nodes (child : ChildMessage) : nat :=
  match child with
  | mkChildMessage _ _ (Some children) => S (list_sum (map nodes children))
  | mkChildMessage _ _ None => 1
  end.

(** The lines that [OutputChannelCargoTask.execute] sees on stdout and
    that start with [{], up to the event that settles the promise. *)
Fixpoint jsonLines (events : list OutputChannelCargoTask.processEvent) : list string :=
  match events with
  | OutputChannelCargoTask.OnStdoutLine line :: events =>
      if JS.startsWith line "{" then line :: jsonLines events else jsonLines events
  | OutputChannelCargoTask.OnStderrLine _ :: events
  | OutputChannelCargoTask.OnStop :: events => jsonLines events
  | OutputChannelCargoTask.OnError _ :: _
  | OutputChannelCargoTask.OnExit _ :: _
  | [] => []
  end.

(** The other lines of stdout and the lines of stderr, in the order in
    which they arrive, up to the event that settles the promise. *)
Fixpoint textLines (events : list OutputChannelCargoTask.processEvent) : list string :=
  match events with
  | OutputChannelCargoTask.OnStdoutLine line :: events =>
      if JS.startsWith line "{" then textLines events else line :: textLines events
  | OutputChannelCargoTask.OnStderrLine line :: events => line :: textLines events
  | OutputChannelCargoTask.OnStop :: events => textLines events
  | OutputChannelCargoTask.OnError _ :: _
  | OutputChannelCargoTask.OnExit _ :: _
  | [] => []
  end.

(** The number of line feeds in a string. *)
Fixpoint lineFeeds (s : string) : nat :=
  match s with
  | String c s => (if Ascii.eqb c (ascii_of_nat 10) then 1 else 0) + lineFeeds s
  | EmptyString => 0
  end.

(** No level and no message in the tree holds a line feed. *)
Fixpoint plain (child : ChildMessage) : Prop :=
  match child with
  | mkChildMessage child_level child_message child_children =>
      lineFeeds child_level = 0 ∧ lineFeeds child_message = 0
      ∧ match child_children with
        | Some children =>
            (fix all (l : list ChildMessage) : Prop :=
               match l with
               | [] => True
               | child :: l => plain child ∧ all l
               end) children
        | None => True
        end
  end.

End Terms2.

Module Terms3.

Import CargoTaskManager.

(** What the manager reads of the configuration. *)
Definition configuration (this : t) : bool * string * bool :=
  (showOutput this, cargoPath this, diagnosticPublishingEnabled this).



(** The event is a line of output. *)
Definition isLine (e : OutputChannelCargoTask.processEvent) : bool :=
  match e with
  | OutputChannelCargoTask.OnStdoutLine _ | OutputChannelCargoTask.OnStderrLine _ => true
  | _ => false
  end.

End Terms3.

(** ** Further lines of cargo *)

Module Examples2.

(** A warning with a code, a labelled span and children two levels
    deep. *)
Definition unused_variable : string := JSON.quoted
  "{'message':{'children':[{'level':'note','message':'#[warn(unused_variables)] on by default','children':[{'level':'help','message':'see the lint documentation'}]},{'level':'help','message':'consider using `_x` instead','children':[]}],'code':{'code':'unused_variables','explanation':null},'level':'warning','message':'unused variable: `x`','spans':[{'line_start':2,'line_end':2,'column_start':9,'column_end':10,'is_primary':true,'label':'unused','file_name':'src/lib.rs','expansion':null}]},'reason':'compiler-message'}".

Definition binding : DiagnosticParser.CompilerMessageSpan :=
  {| DiagnosticParser.byte_end := 0; DiagnosticParser.byte_start := 0;
     DiagnosticParser.column_end := 10; DiagnosticParser.column_start := 9;
     DiagnosticParser.expansion := None;
     DiagnosticParser.file_name := "src/lib.rs";
     DiagnosticParser.is_primary := true;
     DiagnosticParser.label := Some "unused";
     DiagnosticParser.line_end := 2; DiagnosticParser.line_start := 2;
     DiagnosticParser.text := [] |}.

Definition unused_variable_children : list DiagnosticParser.ChildMessage :=
  [DiagnosticParser.mkChildMessage "note" "#[warn(unused_variables)] on by default"
     (Some [DiagnosticParser.mkChildMessage "help" "see the lint documentation" None]);
   DiagnosticParser.mkChildMessage "help" "consider using `_x` instead" (Some [])].

Definition unused_variable_message : DiagnosticParser.CompilerMessage :=
  {| DiagnosticParser.children := unused_variable_children;
     DiagnosticParser.code :=
       Some {| DiagnosticParser.code_ := "unused_variables";
               DiagnosticParser.explanation := "" |};
     DiagnosticParser.level := "warning";
     DiagnosticParser.message := "unused variable: `x`";
     DiagnosticParser.spans := [binding] |}.

(** A build has been started and runs. *)
Definition building : list (Z * CargoTaskManager.event) :=
  [(0%Z, CargoTaskManager.CallRunCargo "build" [] true);
   (10%Z, CargoTaskManager.CwdSettled 0 (inl "/project"))].

(** A small file system: the files that exist, [dirname] and [join] for
    paths with [/], and [find-up] walking at most eight directories up. *)
Definition files : list string :=
  ["/work/demo/Cargo.toml"; "/work/demo/src/main.rs"; "/work/notes.txt"].

Definition access (path : string) : bool := bool_decide (path ∈ files).

Definition join (a b : string) : string := a +:+ "/" +:+ b.

Fixpoint dropLast (cs : list ascii) : list ascii :=
  match cs with
  | [] => []
  | c :: cs =>
      if existsb (Ascii.eqb "/") cs then c :: dropLast cs else []
  end.

Definition dirname (path : string) : string :=
  let directory := string_of_list_ascii (dropLast (list_ascii_of_string path)) in
  if String.eqb directory "" then (if JS.startsWith path "/" then "/" else ".")
  else directory.

Fixpoint findUpFrom (n : nat) (name cwd : string) : option string :=
  if access (join cwd name) then Some (join cwd name)
  else match n with
       | O => None
       | S n =>
           if String.eqb cwd (dirname cwd) then None else findUpFrom n name (dirname cwd)
       end.

Definition findUp (name cwd : string) : option string := findUpFrom 8 name cwd.

(** The editor shows [src/main.rs] of the folder [/work/demo]. *)
Definition editing : CurrentWorkingDirectoryManager.vscode :=
  {| CurrentWorkingDirectoryManager.activeTextEditor := Some "/work/demo/src/main.rs";
     CurrentWorkingDirectoryManager.rootPath := Some "/work/demo" |}.

(** No editor is open in the folder [/work/demo]. *)
Definition no_editor : CurrentWorkingDirectoryManager.vscode :=
  {| CurrentWorkingDirectoryManager.activeTextEditor := None;
     CurrentWorkingDirectoryManager.rootPath := Some "/work/demo" |}.

(** The editor shows a file of the folder [/work], which has no
    [Cargo.toml]. *)
Definition notes : CurrentWorkingDirectoryManager.vscode :=
  {| CurrentWorkingDirectoryManager.activeTextEditor := Some "/work/notes.txt";
     CurrentWorkingDirectoryManager.rootPath := Some "/work" |}.

End Examples2.

(** ** The parser with the constructor of [Range]

    [DiagnosticParser] takes [new Range(..)] as the record of its four
    arguments.  The constructor belongs to vscode, and it can throw.
    Here the methods that call it are embedded once more, with the
    constructor as it is given, [Range_new]: a call that throws leaves
    the method, and where all calls return the methods are those of
    [DiagnosticParser] with the ranges that the constructor returned. *)

Module RangeChecked.

Import DiagnosticParser.

Section WithRange.

Variable Range_new : Z -> Z -> Z -> Z -> result Range.

(** [new Range(span.line_start - 1, span.column_start - 1,
               span.line_end - 1, span.column_end - 1)] *)
Definition newSpanRange (span : CompilerMessageSpan) : result Range :=
  Range_new (line_start span - 1) (column_start span - 1)
            (line_end span - 1) (column_end span - 1).

(** One round of the loop of [parseComplexCompilerMessage]: the range is
    made first, whatever becomes of the span. *)
Definition parseComplexSpan (index : N) (compilerMessage : CompilerMessage)
    (diagnostics : list FileDiagnostic) (span : CompilerMessageSpan)
    : result (list FileDiagnostic) :=
  match newSpanRange span with
  | Throw e => Throw e
  | Ok range =>
      let message := "(" +:+ JS.N_toString index +:+ ") " in
      let message := message +:+ codePrefix compilerMessage in
      let push message :=
        let diagnostic :=
          {| range := range; diagnostic_message := message;
             severity := toSeverity (level compilerMessage) |} in
        let fileDiagnostic := {| filePath := file_name span; diagnostic := diagnostic |} in
        diagnostics ++ [fileDiagnostic] in
      if is_primary span then
        let message := message +:+ DiagnosticParser.message compilerMessage in
        let message := message +:+ labelSuffix span in
        let message := message +:+ childrenToString (children compilerMessage) 1 in
        Ok (push message)
      else if JS.truthy (label span) then
        let message := message +:+ default "" (label span) in
        Ok (push message)
      else
        Ok diagnostics  (* continue *)
  end.

(** The loop, from [spans] on. *)
Fixpoint parseComplexSpans (index : N) (compilerMessage : CompilerMessage)
    (spans : list CompilerMessageSpan) (diagnostics : list FileDiagnostic)
    : result (list FileDiagnostic) :=
  match spans with
  | [] => Ok diagnostics
  | span :: spans =>
      match parseComplexSpan index compilerMessage diagnostics span with
      | Ok diagnostics => parseComplexSpans index compilerMessage spans diagnostics
      | Throw e => Throw e
      end
  end.

Definition parseComplexCompilerMessage (compilerMessage : CompilerMessage)
    : M (list FileDiagnostic) :=
  fun this =>
    (this, parseComplexSpans (complexMessageIndex this) compilerMessage
             (spans compilerMessage) []).

Definition parseSimpleCompilerMessage (compilerMessage : CompilerMessage)
    : M (list FileDiagnostic) :=
  match spans compilerMessage with
  | [] => throw TypeError  (* spans[0] is undefined *)
  | span :: _ =>
      match newSpanRange span with
      | Throw e => throw e
      | Ok range =>
          let message := "" in
          let message := message +:+ codePrefix compilerMessage in
          let message := message +:+ DiagnosticParser.message compilerMessage in
          let message := message +:+ labelSuffix span in
          let message := message +:+ childrenToString (children compilerMessage) 1 in
          let diagnostic :=
            {| range := range; diagnostic_message := message;
               severity := toSeverity (level compilerMessage) |} in
          let fileDiagnostic :=
            {| filePath := file_name span; diagnostic := diagnostic |} in
          mret [fileDiagnostic]
      end
  end.

Definition parseCompilerMessage (compilerMessage : CompilerMessage)
    : M (list FileDiagnostic) :=
  if Nat.eqb (length (spans compilerMessage)) 0 then mret []
  else
    isComplex ← isComplexCompilerMessage compilerMessage;
    if isComplex : bool then
      incrementComplexMessageIndex;;
      parseComplexCompilerMessage compilerMessage
    else
      parseSimpleCompilerMessage compilerMessage.

Variable JSON_parse : string -> result CargoMessage.

Definition parseLine (line : string) : M (list FileDiagnostic) :=
  match JSON_parse line with
  | Throw e => throw e
  | Ok cargoMessage =>
      if String.eqb (reason cargoMessage) "compiler-message" then
        match cargo_message cargoMessage with
        | Some compilerMessage => parseCompilerMessage compilerMessage
        | None => throw TypeError  (* undefined.spans *)
        end
      else mret []
  end.

End WithRange.

End RangeChecked.

(** ** vscode's [Position] and [Range]

    What the constructors do with numbers, as the API describes them: a
    position refuses a negative line and a negative character, and a
    range puts its two positions in order. *)

Module Vscode.

Import DiagnosticParser.

(** [new Position(line, character)] *)
Definition Position_new (line character : Z) : result (Z * Z) :=
  if (line <? 0)%Z then Throw (Error "Illegal argument: line must be non-negative")
  else if (character <? 0)%Z
       then Throw (Error "Illegal argument: character must be non-negative")
       else Ok (line, character).

(** [position.isBefore(other)] *)
Definition isBefore (position other : Z * Z) : bool :=
  if (position.1 <? other.1)%Z then true
  else if (other.1 <? position.1)%Z then false
  else (position.2 <? other.2)%Z.

(** [new Range(startLine, startCharacter, endLine, endCharacter)] *)
Definition Range_new (startLine startCharacter endLine endCharacter : Z)
    : result Range :=
  match Position_new startLine startCharacter with
  | Throw e => Throw e
  | Ok start =>
      match Position_new endLine endCharacter with
      | Throw e => Throw e
      | Ok end_ =>
          if isBefore start end_
          then Ok {| DiagnosticParser.startLine := start.1;
                     DiagnosticParser.startCharacter := start.2;
                     DiagnosticParser.endLine := end_.1;
                     DiagnosticParser.endCharacter := end_.2 |}
          else Ok {| DiagnosticParser.startLine := end_.1;
                     DiagnosticParser.startCharacter := end_.2;
                     DiagnosticParser.endLine := start.1;
                     DiagnosticParser.endCharacter := start.2 |}
      end
  end.

(** The positions of a span are those of the wire format: lines and
    columns count from 1, and the span does not end before it starts. *)
Definition wirePositions (span : CompilerMessageSpan) : Prop :=
  (1 <= line_start span)%Z ∧ (1 <= column_start span)%Z ∧ (1 <= column_end span)%Z
  ∧ (line_start span < line_end span
     ∨ line_start span = line_end span ∧ column_start span <= column_end span)%Z.

End Vscode.

Module Examples3.

(** A message with two spans, as the compiler does not write it: the
    second span, which has no label and is not primary, is at line 0. *)
Definition line_zero : string := JSON.quoted
  "{'message':{'children':[],'code':null,'level':'error','message':'mismatched types','spans':[{'line_start':4,'line_end':4,'column_start':14,'column_end':15,'is_primary':true,'label':'expected u32','file_name':'src/main.rs','expansion':null},{'line_start':0,'line_end':0,'column_start':1,'column_end':1,'is_primary':false,'label':null,'file_name':'src/main.rs','expansion':null}]},'reason':'compiler-message'}".

Definition primary_span : DiagnosticParser.CompilerMessageSpan :=
  {| DiagnosticParser.byte_end := 0; DiagnosticParser.byte_start := 0;
     DiagnosticParser.column_end := 15; DiagnosticParser.column_start := 14;
     DiagnosticParser.expansion := None;
     DiagnosticParser.file_name := "src/main.rs";
     DiagnosticParser.is_primary := true;
     DiagnosticParser.label := Some "expected u32";
     DiagnosticParser.line_end := 4; DiagnosticParser.line_start := 4;
     DiagnosticParser.text := [] |}.

Definition span_at_line_zero : DiagnosticParser.CompilerMessageSpan :=
  {| DiagnosticParser.byte_end := 0; DiagnosticParser.byte_start := 0;
     DiagnosticParser.column_end := 1; DiagnosticParser.column_start := 1;
     DiagnosticParser.expansion := None;
     DiagnosticParser.file_name := "src/main.rs";
     DiagnosticParser.is_primary := false;
     DiagnosticParser.label := None;
     DiagnosticParser.line_end := 0; DiagnosticParser.line_start := 0;
     DiagnosticParser.text := [] |}.

Definition line_zero_message : DiagnosticParser.CompilerMessage :=
  {| DiagnosticParser.children := [];
     DiagnosticParser.code := None;
     DiagnosticParser.level := "error";
     DiagnosticParser.message := "mismatched types";
     DiagnosticParser.spans := [primary_span; span_at_line_zero] |}.

(** A line that is an object without members. *)
Definition empty_object : string := "{}".

(** A compiler message that consists of an empty list of spans. *)
Definition no_spans : string := JSON.quoted
  "{'reason':'compiler-message','message':{'spans':[]}}".

(** A message from inside a macro; the compiler does not know where the
    macro is defined. *)
Definition in_macro : string := JSON.quoted
  "{'message':{'children':[],'code':null,'level':'error','message':'mismatched types','spans':[{'line_start':4,'line_end':4,'column_start':14,'column_end':15,'is_primary':true,'label':null,'file_name':'src/main.rs','expansion':{'span':{'line_start':2,'line_end':2,'column_start':5,'column_end':20,'is_primary':false,'label':null,'file_name':'src/main.rs','expansion':null},'macro_decl_name':'vec!','def_site_span':null}}]},'reason':'compiler-message'}".

End Examples3.

(** * Properties *)

(** ** The diagnostic parser *)

Module DiagnosticParserFacts.

Import DiagnosticParser Terms.

Lemma append_cons (c : ascii) (a b : string) : String c a +:+ b = String c (a +:+ b).
Proof. reflexivity. Qed.

Lemma append_assoc (a b c : string) : (a +:+ b) +:+ c = a +:+ (b +:+ c).
Proof.
  induction a as [|x a IH]; [done |].
  by rewrite !append_cons, IH.
Qed.



(** The loop of [parseComplexCompilerMessage] only ever pushes: what it
    leaves in [diagnostics] is what was there, followed by what each span
    adds. *)
Lemma parseComplexSpan_push index compilerMessage diagnostics span :
  parseComplexSpan index compilerMessage diagnostics span
  = diagnostics ++ parseComplexSpan index compilerMessage [] span.
Proof.
  unfold parseComplexSpan.
  destruct (is_primary span); [done |].
  destruct (JS.truthy (label span)); [done |].
  by rewrite app_nil_r.
Qed.

Lemma parseComplex_loop index compilerMessage spans diagnostics :
  fold_left (parseComplexSpan index compilerMessage) spans diagnostics
  = diagnostics
    ++ flat_map (parseComplexSpan index compilerMessage []) spans.
Proof.
  revert diagnostics. induction spans as [|span spans IH]; intros diagnostics; simpl.
  - by rewrite app_nil_r.
  - rewrite IH, parseComplexSpan_push. by rewrite <- app_assoc.
Qed.

Lemma parseComplexCompilerMessage_eq compilerMessage this :
  parseComplexCompilerMessage compilerMessage this
  = (this, Ok (flat_map (parseComplexSpan (complexMessageIndex this) compilerMessage [])
                        (spans compilerMessage))).
Proof.
  unfold parseComplexCompilerMessage, getComplexMessageIndex, mbind, M_bind, mret, M_ret.
  by rewrite parseComplex_loop.
Qed.

Lemma parseComplexSpan_withSpans index compilerMessage spans diagnostics span :
  parseComplexSpan index (withSpans compilerMessage spans) diagnostics span
  = parseComplexSpan index compilerMessage diagnostics span.
Proof. done. Qed.

(** C1 (amended).  In the complex path a span that is not primary and has
    a label, that is one that is neither null nor empty, gets exactly one
    diagnostic, placed between those of the spans before it and those of
    the spans after it; its message is "(N) ", then the code of the
    message followed by ": " when the message has a code, then the label,
    N being the counter of the parser.  A span that is not primary and has
    no label gets no diagnostic. *)
Theorem complex_secondary_span (this : t) (compilerMessage : CompilerMessage)
    (before : list CompilerMessageSpan) (span : CompilerMessageSpan)
    (after : list CompilerMessageSpan) :
  spans compilerMessage = before ++ span :: after →
  is_primary span = false →
  ∃ diagnostics diagnostics',
    parseComplexCompilerMessage (withSpans compilerMessage before) this
      = (this, Ok diagnostics)
    ∧ parseComplexCompilerMessage (withSpans compilerMessage after) this
      = (this, Ok diagnostics')
    ∧ parseComplexCompilerMessage compilerMessage this
      = (this,
         Ok (diagnostics
             ++ match label span with
                | Some label =>
                    if String.eqb label "" then []
                    else [secondary (complexMessageIndex this) compilerMessage span label]
                | None => []
                end
             ++ diagnostics')).
Proof.
  intros Hspans Hsecondary.
  rewrite !parseComplexCompilerMessage_eq. simpl. rewrite Hspans.
  eexists _, _. split; [reflexivity |]. split; [reflexivity |].
  rewrite flat_map_app. simpl. do 3 f_equal.
  unfold parseComplexSpan. rewrite Hsecondary. unfold JS.truthy.
  destruct (label span) as [l|]; [| done]. simpl.
  destruct (String.eqb l ""); simpl; [done |].
  unfold secondary. by rewrite !append_assoc.
Qed.

Lemma complex_secondary_span_witness :
  parseComplexCompilerMessage Examples.borrowed_twice_message {| complexMessageIndex := 1 |}
  = ({| complexMessageIndex := 1 |},
     Ok [{| filePath := "src/lib.rs";
            diagnostic :=
              {| range := {| startLine := 3; startCharacter := 8;
                             endLine := 3; endCharacter := 9 |};
                 diagnostic_message := "(1) first borrow";
                 severity := Warning |} |};
         {| filePath := "src/lib.rs";
            diagnostic :=
              {| range := {| startLine := 4; startCharacter := 8;
                             endLine := 4; endCharacter := 9 |};
                 diagnostic_message :=
                   "(1) cannot borrow `x` twice" +:+ JS.LF +:+ "second borrow"
                   +:+ JS.LF +:+ "  note: first borrow ends here";
                 severity := Warning |} |}]).
Proof.
  destruct (complex_secondary_span {| complexMessageIndex := 1 |}
              Examples.borrowed_twice_message []
              Examples.first_borrow [Examples.second_borrow; Examples.end_of_scope]
              eq_refl eq_refl)
    as (diagnostics & diagnostics' & Hbefore & Hafter & Hall).
  vm_compute in Hbefore, Hafter.
  injection Hbefore as <-. injection Hafter as <-.
  exact Hall.
Defined.

(** C1, as stated, fails where the message has a code: the line
    [mismatched_types] has the code E0308 and a secondary span labelled
    "expected due to this", and no diagnostic for it has the message
    "(1) expected due to this"; the one for that span reads
    "(1) E0308: expected due to this". *)
Lemma complex_secondary_span_counterexample :
  ∃ primary secondary,
    parseLine JSON_parse Examples.mismatched_types constructor
    = ({| complexMessageIndex := 1 |}, Ok [primary; secondary])
    ∧ diagnostic_message (diagnostic secondary) = "(1) E0308: expected due to this"
    ∧ ∀ fileDiagnostic, fileDiagnostic ∈ [primary; secondary] →
        diagnostic_message (diagnostic fileDiagnostic)
        ≠ "(1) " +:+ "expected due to this".
Proof.
  eexists _, _. split; [vm_compute; reflexivity |]. split; [reflexivity |].
  intros fileDiagnostic Hin.
  apply elem_of_cons in Hin as [-> | Hin]; [by vm_compute |].
  apply elem_of_cons in Hin as [-> | Hin]; [by vm_compute |].
  by apply elem_of_nil in Hin.
Qed.

Lemma borrowed_twice_decodes :
  JSON_parse Examples.borrowed_twice
  = Ok {| reason := "compiler-message";
          cargo_message := Some Examples.borrowed_twice_message;
          package_id := "" |}.
Proof. by vm_compute. Qed.

(** *** Classification and the counter *)

Lemma isComplexCompilerMessage_complex compilerMessage this :
  complex compilerMessage →
  isComplexCompilerMessage compilerMessage this = (this, Ok true).
Proof.
  unfold isComplexCompilerMessage.
  intros [Hmany | (span & x & Hspans & Hexpansion)].
  - destruct (spans compilerMessage) as [|s0 [|s1 rest]]; simpl in *; [lia | lia | done].
  - rewrite Hspans. simpl. by rewrite Hexpansion.
Qed.

Lemma isComplexCompilerMessage_simple compilerMessage span this :
  spans compilerMessage = [span] → expansion span = None →
  isComplexCompilerMessage compilerMessage this = (this, Ok false).
Proof.
  unfold isComplexCompilerMessage. intros -> Hexpansion. simpl. by rewrite Hexpansion.
Qed.

Lemma parseCompilerMessage_complex compilerMessage this :
  complex compilerMessage →
  parseCompilerMessage compilerMessage this
  = parseComplexCompilerMessage compilerMessage
      {| complexMessageIndex := complexMessageIndex this + 1 |}.
Proof.
  intros Hcomplex. unfold parseCompilerMessage.
  destruct (Nat.eqb_spec (length (spans compilerMessage)) 0) as [Hempty | _].
  - destruct Hcomplex as [Hmany | (span & x & Hspans & _)].
    + lia.
    + by rewrite Hspans in Hempty.
  - unfold mbind, M_bind.
    by rewrite (isComplexCompilerMessage_complex _ _ Hcomplex).
Qed.


Section Lines.

Variable JSON_parse : string → result CargoMessage.



Lemma parseLine_compilerMessage line compilerMessage this :
  compilerMessageLine JSON_parse line compilerMessage →
  parseLine JSON_parse line this = parseCompilerMessage compilerMessage this.
Proof.
  intros (cargoMessage & Hparse & Hreason & Hmessage).
  unfold parseLine. by rewrite Hparse, Hreason, Hmessage.
Qed.




(** C8.  For a compiler message with exactly one span, which carries no
    expansion, [parseLine] returns exactly one diagnostic; its range is
    that of the span with 1 taken from each of [line_start],
    [column_start], [line_end] and [column_end]. *)
Theorem single_span_range line compilerMessage span this :
  compilerMessageLine JSON_parse line compilerMessage →
  spans compilerMessage = [span] →
  expansion span = None →
  ∃ fileDiagnostic,
    parseLine JSON_parse line this = (this, Ok [fileDiagnostic])
    ∧ range (diagnostic fileDiagnostic)
      = {| startLine := line_start span - 1;
           startCharacter := column_start span - 1;
           endLine := line_end span - 1;
           endCharacter := column_end span - 1 |}.
Proof.
  intros Hline Hspans Hexpansion.
  rewrite (parseLine_compilerMessage _ _ _ Hline).
  unfold parseCompilerMessage. rewrite Hspans. simpl.
  unfold mbind, M_bind.
  rewrite (isComplexCompilerMessage_simple _ _ _ Hspans Hexpansion).
  unfold parseSimpleCompilerMessage. rewrite Hspans.
  eexists. split; [reflexivity | done].
Qed.

(** C9.  [parseLine] returns the empty list for an event whose reason is
    not "compiler-message", and for a compiler message whose list of spans
    is empty. *)
Theorem no_diagnostics line this :
  (∀ cargoMessage,
     JSON_parse line = Ok cargoMessage →
     reason cargoMessage ≠ "compiler-message" →
     parseLine JSON_parse line this = (this, Ok []))
  ∧ (∀ compilerMessage,
       compilerMessageLine JSON_parse line compilerMessage →
       spans compilerMessage = [] →
       parseLine JSON_parse line this = (this, Ok [])).
Proof.
  split.
  - intros cargoMessage Hparse Hreason. unfold parseLine. rewrite Hparse.
    by apply String.eqb_neq in Hreason as ->.
  - intros compilerMessage Hline Hspans.
    rewrite (parseLine_compilerMessage _ _ _ Hline).
    unfold parseCompilerMessage. by rewrite Hspans.
Qed.

(** C10.  On a line that is not JSON, on which [JSON.parse] throws,
    [parseLine] throws what [JSON.parse] threw, and the counter of the
    parser is as before. *)
Theorem malformed_line_throws line e this :
  JSON_parse line = Throw e →
  parseLine JSON_parse line this = (this, Throw e).
Proof. intros Hparse. unfold parseLine. by rewrite Hparse. Qed.

End Lines.

(** *** The statements on lines of cargo *)

Lemma compilerMessageLine_decoded line compilerMessage package :
  JSON_parse line
  = Ok {| reason := "compiler-message"; cargo_message := Some compilerMessage;
          package_id := package |} →
  compilerMessageLine JSON_parse line compilerMessage.
Proof. intros Hparse. by eexists. Qed.


Lemma single_span_range_witness :
  ∃ fileDiagnostic,
    parseLine JSON_parse Examples.immutable_field constructor
    = (constructor, Ok [fileDiagnostic])
    ∧ range (diagnostic fileDiagnostic)
      = {| startLine := 2; startCharacter := 4; endLine := 2; endCharacter := 11 |}.
Proof.
  apply (single_span_range JSON_parse Examples.immutable_field
           Examples.immutable_field_message Examples.assignment constructor).
  - eapply compilerMessageLine_decoded. vm_compute. reflexivity.
  - reflexivity.
  - reflexivity.
Defined.

Lemma no_diagnostics_witness :
  parseLine JSON_parse Examples.artifact constructor = (constructor, Ok [])
  ∧ parseLine JSON_parse Examples.aborting constructor = (constructor, Ok []).
Proof.
  split.
  - eapply (proj1 (no_diagnostics JSON_parse Examples.artifact constructor)).
    + vm_compute. reflexivity.
    + vm_compute. discriminate.
  - eapply (proj2 (no_diagnostics JSON_parse Examples.aborting constructor)).
    + eapply compilerMessageLine_decoded. vm_compute. reflexivity.
    + reflexivity.
Defined.

Lemma malformed_line_throws_witness :
  parseLine JSON_parse Examples.truncated {| complexMessageIndex := 3 |}
  = ({| complexMessageIndex := 3 |}, Throw SyntaxError).
Proof.
  apply (malformed_line_throws JSON_parse Examples.truncated SyntaxError).
  vm_compute. reflexivity.
Defined.

(** With the reader of JSON for decoder: a line that is not JSON makes
    [parseLine] throw a SyntaxError, and leaves the parser as it is. *)
Lemma not_json_throws line this :
  JSON.parse line = None →
  parseLine JSON_parse line this = (this, Throw SyntaxError).
Proof. intros Hparse. unfold parseLine, JSON_parse. by rewrite Hparse. Qed.

(** Scenario A of the specification. *)
Lemma scenario_immutable_field :
  parseLine JSON_parse Examples.immutable_field constructor
  = (constructor,
     Ok [{| filePath := "src/main.rs";
            diagnostic :=
              {| range := {| startLine := 2; startCharacter := 4;
                             endLine := 2; endCharacter := 11 |};
                 diagnostic_message := "cannot assign to immutable anonymous field `f.1`";
                 severity := Error_ |} |}]).
Proof. vm_compute. reflexivity. Qed.

End DiagnosticParserFacts.

(** ** [CargoTask] *)

Module CargoTaskFacts.

Import CargoTask.

(** [kill] sends the signal at most once: a further call changes nothing
    and makes no call. *)
Lemma kill_idempotent (this : t) :
  (kill (kill this).1.1).1 = ((kill this).1.1, []).
Proof. by destruct this as [[child|] []]. Qed.

(** C4, where the code departs from it.  The promise of a call of [kill]
    that follows another, and of one made when the process has exited, is
    never settled: such a call leaves the task as it is, sends nothing,
    and hands [resolve] to nobody. *)
Theorem kill_again_never_settles (this : t) (code : option Z) :
  kill (kill this).1.1 = ((kill this).1.1, [], NeverSettled)
  ∧ kill (onExit this code).1 = ((onExit this code).1, [], NeverSettled).
Proof. by destruct this as [[child|] []]. Qed.

End CargoTaskFacts.

(** ** [CargoTaskManager] *)

Module CargoTaskManagerFacts.

Import CargoTaskManager Terms Invariant.

Lemma wf_constructor enabled show path : wf (constructor enabled show path).
Proof. split; simpl; intros; simplify_map_eq. Qed.

Section WithDecoder.

Variable JSON_parse : string → result DiagnosticParser.CargoMessage.

Lemma wf_suspend fr this :
  wf this →
  (∀ task command args cwd startTime, fr ≠ AwaitExecute task command args cwd startTime) →
  (∀ task args, fr = AwaitAvailability task args →
     task < fresh this ∧ currentTask this ≠ Some task) →
  wf (suspend fr this).
Proof.
  intros [] Hfr Hprobe. split; unfold suspend; simpl.
  - intros f fr' [[<- <-] | [? ?]]%lookup_insert_Some; [lia |].
    by eapply Nat.lt_lt_succ_r, wf_frames0.
  - intros task Htask. destruct (wf_current0 task Htask) as [? ?]. split; [lia | done].
  - intros f task command args cwd startTime [[<- ?] | [? ?]]%lookup_insert_Some.
    + by destruct (Hfr task command args cwd startTime).
    + by eapply wf_executing0.
  - intros f f' ? ? ? ? ? ? ? ? startTime startTime'
      [[<- ?] | [? Hf]]%lookup_insert_Some [[<- ?] | [? Hf']]%lookup_insert_Some;
      try (by edestruct Hfr).
    eapply wf_single0; [exact Hf | exact Hf'].
  - intros f task args [[<- ?] | [? ?]]%lookup_insert_Some.
    + destruct (Hprobe task args); [done |]. split; [lia | done].
    + destruct (wf_probe0 f task args); [done |]. split; [lia | done].
Qed.

Lemma wf_delete f this : wf this → wf (set_frames (delete f (frames this)) this).
Proof.
  intros []. split; simpl; try done.
  - intros f' fr [? ?]%lookup_delete_Some. by eapply wf_frames0.
  - intros f' ????? [? ?]%lookup_delete_Some. by eapply wf_executing0.
  - intros f' f'' ?????????? [? Hf]%lookup_delete_Some [? Hf']%lookup_delete_Some.
    eapply wf_single0; [exact Hf | exact Hf'].
  - intros f' ?? [? ?]%lookup_delete_Some. by eapply wf_probe0.
Qed.

Lemma wf_replace f fr this :
  wf this →
  is_Some (frames this !! f) →
  (∀ task command args cwd startTime, fr ≠ AwaitExecute task command args cwd startTime) →
  (∀ task args, fr ≠ AwaitAvailability task args) →
  wf (set_frames (<[f := fr]> (frames this)) this).
Proof.
  intros [] [fr0 Hf] Hfr Hfr'. split; simpl; try done.
  - intros f' fr' [[<- ?] | [? ?]]%lookup_insert_Some; by eapply wf_frames0.
  - intros f' ????? [[<- ?] | [? ?]]%lookup_insert_Some.
    + by edestruct Hfr.
    + by eapply wf_executing0.
  - intros f' f'' ??????????
      [[<- ?] | [? Hf1]]%lookup_insert_Some [[<- ?] | [? Hf2]]%lookup_insert_Some;
      try (by edestruct Hfr).
    eapply wf_single0; [exact Hf1 | exact Hf2].
  - intros f' ?? [[<- ?] | [? ?]]%lookup_insert_Some.
    + by edestruct Hfr'.
    + by eapply wf_probe0.
Qed.

Lemma wf_set_task task object this :
  wf this →
  (currentTask this = Some task →
   ∃ interrupted, object = {| CargoTask.process := Some {| CargoTask.pid := task |};
                              CargoTask.interrupted := interrupted |}) →
  wf (set_tasks (<[task := object]> (tasks this)) this).
Proof.
  intros [] Hobject. split; simpl; try done.
  intros task' Hcurrent. destruct (wf_current0 task' Hcurrent) as [? [b Hb]].
  split; [done |]. destruct (decide (task = task')) as [<- | Hne].
  - destruct (Hobject Hcurrent) as [b' ->]. exists b'. by rewrite lookup_insert_eq.
  - exists b. by rewrite lookup_insert_ne.
Qed.

Lemma wf_set_diagnosticParser parser this : wf this → wf (set_diagnosticParser parser this).
Proof. by intros []. Qed.

Lemma wf_set_callbacks callbacks this : wf this → wf (set_callbacks callbacks this).
Proof. by intros []. Qed.

(** [kill] on the task that is running. *)
Lemma killTask_current task interrupted this :
  tasks this !! task
  = Some {| CargoTask.process := Some {| CargoTask.pid := task |};
            CargoTask.interrupted := interrupted |} →
  killTask task this
  = (set_tasks (<[task := {| CargoTask.process := Some {| CargoTask.pid := task |};
                             CargoTask.interrupted := true |}]> (tasks this)) this,
     if interrupted then [] else [TreeKill task "SIGTERM"],
     if interrupted then CargoTask.NeverSettled else CargoTask.ResolvedByTreeKill).
Proof.
  intros Htask. unfold killTask. rewrite Htask.
  destruct interrupted; simpl; [| done].
  by rewrite (insert_id _ _ _ Htask).
Qed.

Lemma wf_killTask task this : wf this → wf (killTask task this).1.1.
Proof.
  intros Hwf. unfold killTask.
  destruct (tasks this !! task) as [object |] eqn:Htask; [| done].
  destruct (CargoTask.kill object) as [[object' effects] promise] eqn:Hkill. simpl.
  apply wf_set_task; [done |]. intros Hcurrent.
  destruct (wf_current _ Hwf task Hcurrent) as [_ [b Hb]].
  rewrite Htask in Hb. injection Hb as ->.
  destruct b; injection Hkill as <- _ _; by eexists.
Qed.

Lemma killTask_frames task this : frames (killTask task this).1.1 = frames this.
Proof.
  unfold killTask. destruct (tasks this !! task) as [object |]; [| done].
  by destruct (CargoTask.kill object) as [[object' effects] promise].
Qed.

Lemma killTask_fresh task this : fresh (killTask task this).1.1 = fresh this.
Proof.
  unfold killTask. destruct (tasks this !! task) as [object |]; [| done].
  by destruct (CargoTask.kill object) as [[object' effects] promise].
Qed.


Lemma afterExecute_state now settled startTime this :
  (afterExecute now settled startTime this).1 = set_currentTask None this.
Proof.
  unfold afterExecute, complete. destruct settled as [code | [message |]]; try done.
  by destruct (negb (String.eqb message "ENOENT")).
Qed.

(** When the promise of [execute] is settled the manager is idle again. *)
Lemma wf_settled f task command args cwd startTime (tasks' : gmap nat CargoTask.t) this :
  wf this →
  frames this !! f = Some (AwaitExecute task command args cwd startTime) →
  wf (set_currentTask None (set_frames (delete f (frames this)) (set_tasks tasks' this))).
Proof.
  intros [] Hf. split; simpl; try done.
  - intros f' fr [? ?]%lookup_delete_Some. by eapply wf_frames0.
  - intros f' ????? [Hne Hf']%lookup_delete_Some.
    destruct Hne. eapply wf_single0; [exact Hf | exact Hf'].
  - intros f' f'' ?????????? [? Hf1]%lookup_delete_Some [? Hf2]%lookup_delete_Some.
    eapply wf_single0; [exact Hf1 | exact Hf2].
  - intros f' ?? [? Hf']%lookup_delete_Some.
    destruct (wf_probe0 _ _ _ Hf'). done.
Qed.

(** A task is started only by an idle manager, and is then the one that
    runs. *)
Lemma wf_started f command args force command' args' cwd startTime this :
  wf this →
  frames this !! f = Some (AwaitCwd command args force) →
  currentTask this = None →
  wf (set_frames (<[f := AwaitExecute (fresh this) command' args' cwd startTime]>
                    (frames this))
        (set_callbacks (<[fresh this := cwd]> (callbacks this))
           (set_tasks (<[fresh this :=
                           {| CargoTask.process := Some {| CargoTask.pid := fresh this |};
                              CargoTask.interrupted := false |}]> (tasks this))
              (set_currentTask (Some (fresh this)) (set_fresh (S (fresh this)) this))))).
Proof.
  intros [] Hf Hidle. split; simpl.
  - intros f' fr [[<- ?] | [? ?]]%lookup_insert_Some;
      eapply Nat.lt_lt_succ_r, wf_frames0; done.
  - intros task' [= <-]. split; [lia |]. exists false. by rewrite lookup_insert_eq.
  - intros f' ????? [[<- [= <- _ _ _ _]] | [? Hf']]%lookup_insert_Some; [done |].
    by rewrite (wf_executing0 _ _ _ _ _ _ Hf') in Hidle.
  - intros f' f'' ??????????
      [[<- ?] | [? Hf1]]%lookup_insert_Some [[<- ?] | [? Hf2]]%lookup_insert_Some;
      try done.
    + by rewrite (wf_executing0 _ _ _ _ _ _ Hf2) in Hidle.
    + by rewrite (wf_executing0 _ _ _ _ _ _ Hf1) in Hidle.
    + by rewrite (wf_executing0 _ _ _ _ _ _ Hf1) in Hidle.
  - intros f' task' ? [[<- ?] | [? Hf']]%lookup_insert_Some; [done |].
    destruct (wf_probe0 _ _ _ Hf'). split; [lia |]. intros [= <-]. lia.
Qed.

Lemma wf_probing args object this :
  wf this →
  wf (suspend (AwaitAvailability (fresh this) args)
        (set_tasks (<[fresh this := object]> (tasks this))
           (set_fresh (S (fresh this)) this))).
Proof.
  intros []. split; unfold suspend; simpl.
  - intros f fr [[<- ?] | [? ?]]%lookup_insert_Some; [lia |].
    by eapply Nat.lt_lt_succ_r, Nat.lt_lt_succ_r, wf_frames0.
  - intros task Hcurrent. destruct (wf_current0 task Hcurrent) as [? [b Hb]].
    split; [lia |]. exists b. rewrite lookup_insert_ne; [done | lia].
  - intros f ????? [[<- ?] | [? ?]]%lookup_insert_Some; [done |].
    by eapply wf_executing0.
  - intros f f' ??????????
      [[<- ?] | [? Hf1]]%lookup_insert_Some [[<- ?] | [? Hf2]]%lookup_insert_Some;
      try done.
    eapply wf_single0; [exact Hf1 | exact Hf2].
  - intros f task ? [[<- [= <- _]] | [? Hf]]%lookup_insert_Some.
    + split; [lia |]. intros Hcurrent. destruct (wf_current0 _ Hcurrent). lia.
    + destruct (wf_probe0 _ _ _ Hf). split; [lia | done].
Qed.

Lemma wf_afterCwd now f command args force cwd this :
  wf this →
  frames this !! f = Some (AwaitCwd command args force) →
  wf (afterCwd now f command args force cwd this).1.
Proof.
  intros Hwf Hf. unfold afterCwd.
  destruct (currentTask this) as [task |] eqn:Hcurrent.
  - destruct force; [| by apply wf_delete].
    pose proof (wf_killTask task this Hwf) as Hkilled.
    pose proof (killTask_frames task this) as Hframes.
    destruct (killTask task this) as [[this' effects] promise]. simpl in *.
    apply wf_replace; [done | | done | done].
    rewrite Hframes, Hf. by eexists.
  - by eapply (wf_started _ _ _ _ _ _ _ _ _ Hwf Hf Hcurrent).
Qed.

Lemma wf_onStdoutLine cwd line this : wf this → wf (onStdoutLine JSON_parse cwd line this).1.
Proof.
  intros Hwf. unfold onStdoutLine.
  destruct (JS.startsWith line "{"); [| done].
  destruct (DiagnosticParser.parseLine _ _ _) as [parser [fileDiagnostics | e]];
    by apply wf_set_diagnosticParser.
Qed.

(** Every listener and every continuation keeps the manager well formed. *)
Lemma wf_step now e this : wf this → wf (step JSON_parse now e this).1.
Proof.
  intros Hwf. destruct e as [command args force | | args | f cwd | f | task line
                             | task line | f message | f code]; simpl.
  - by apply wf_suspend.
  - destruct (currentTask this) as [task |]; [| done].
    pose proof (wf_killTask task this Hwf).
    by destruct (killTask task this) as [[this' effects] promise].
  - apply wf_probing, Hwf.
  - destruct (frames this !! f) as [[command args force | | |] |] eqn:Hf; try done.
    destruct cwd as [cwd | message].
    + by eapply wf_afterCwd.
    + by apply wf_delete.
  - destruct (frames this !! f) as [[| task [] command args force | |] |] eqn:Hf; try done.
    simpl. apply wf_suspend; [by apply wf_delete | done | done].
  - destruct (callbacks this !! task); [by apply wf_onStdoutLine | done].
  - by destruct (callbacks this !! task).
  - destruct (frames this !! f) as [[| | task command args cwd startTime | task args] |]
      eqn:Hf; try done.
    + destruct (negb _);
        exact (wf_settled f task command args cwd startTime _ this Hwf Hf).
    + by apply wf_delete.
  - destruct (frames this !! f) as [[| | task command args cwd startTime | task args] |]
      eqn:Hf; try done.
    + destruct (CargoTask.onExit _ code) as [object settled].
      rewrite afterExecute_state. by eapply wf_settled.
    + destruct (CargoTask.onExit _ code) as [object settled].
      assert (wf (set_frames (delete f (frames this))
                    (set_tasks (<[task := object]> (tasks this)) this))) as Hwf'.
      { apply (wf_delete f (set_tasks (<[task := object]> (tasks this)) this)).
        apply wf_set_task; [done |]. intros Hcurrent.
        by destruct (wf_probe _ Hwf _ _ _ Hf). }
      destruct settled as [exitCode | error]; [| done].
      unfold afterAvailability.
      destruct (bool_decide (exitCode = Some 0%Z)); by apply wf_suspend.
Qed.

Lemma wf_run history this : wf this → wf (run JSON_parse history this).1.
Proof.
  revert this. induction history as [| [now e] history IH]; intros this Hwf; [done |].
  simpl. pose proof (wf_step now e this Hwf) as Hstep.
  destruct (step JSON_parse now e this) as [this' effects].
  specialize (IH this' Hstep).
  by destruct (run JSON_parse history this') as [this'' effects'].
Qed.

(** *** A call that waits for a promise nobody settles *)

Lemma onStdoutLine_frames cwd line this :
  frames (onStdoutLine JSON_parse cwd line this).1 = frames this.
Proof.
  unfold onStdoutLine. destruct (JS.startsWith line "{"); [| done].
  by destruct (DiagnosticParser.parseLine _ _ _) as [parser [fileDiagnostics | e]].
Qed.

Lemma step_never_settled now e f task command args force this :
  wf this →
  frames this !! f = Some (AwaitKill task CargoTask.NeverSettled command args force) →
  frames (step JSON_parse now e this).1 !! f
  = Some (AwaitKill task CargoTask.NeverSettled command args force).
Proof.
  intros Hwf Hf. pose proof (wf_frames _ Hwf _ _ Hf) as Hlt.
  destruct e as [command' args' force' | | args' | f' cwd | f' | task' line
                 | task' line | f' message | f' code]; simpl.
  - rewrite lookup_insert_ne; [done | lia].
  - destruct (currentTask this) as [task' |]; [| done].
    pose proof (killTask_frames task' this) as Hframes.
    destruct (killTask task' this) as [[this' effects] promise]. simpl in *. congruence.
  - rewrite lookup_insert_ne; [done | lia].
  - destruct (frames this !! f') as [[command' args' force' | | |] |] eqn:Hf'; try done.
    assert (f' ≠ f) as Hne by (intros ->; congruence).
    destruct cwd as [cwd | message]; simpl; [| by rewrite lookup_delete_ne].
    unfold afterCwd. destruct (currentTask this) as [task' |].
    + destruct force'; simpl; [| by rewrite lookup_delete_ne].
      pose proof (killTask_frames task' this) as Hframes.
      destruct (killTask task' this) as [[this' effects] promise]. simpl in *.
      rewrite lookup_insert_ne; [congruence | done].
    + simpl. by rewrite lookup_insert_ne.
  - destruct (frames this !! f') as [[| task' [] command' args' force' | |] |] eqn:Hf';
      try done.
    assert (f' ≠ f) as Hne by (intros ->; congruence).
    simpl. rewrite lookup_insert_ne; [| lia]. by rewrite lookup_delete_ne.
  - destruct (callbacks this !! task'); [| done]. by rewrite onStdoutLine_frames.
  - by destruct (callbacks this !! task').
  - destruct (frames this !! f') as [[| | task' command' args' cwd startTime | task' args'] |]
      eqn:Hf'; try done;
      (assert (f' ≠ f) as Hne by (intros ->; congruence)).
    + destruct (negb _); simpl; by rewrite lookup_delete_ne.
    + simpl. by rewrite lookup_delete_ne.
  - destruct (frames this !! f') as [[| | task' command' args' cwd startTime | task' args'] |]
      eqn:Hf'; try done;
      (assert (f' ≠ f) as Hne by (intros ->; congruence));
      destruct (CargoTask.onExit _ code) as [object settled].
    + rewrite afterExecute_state. simpl. by rewrite lookup_delete_ne.
    + destruct settled as [exitCode | error]; simpl; [| by rewrite lookup_delete_ne].
      unfold afterAvailability. destruct (bool_decide _); simpl;
        (rewrite lookup_insert_ne; [| lia]); by rewrite lookup_delete_ne.
Qed.

(** A call of [runCargo] that awaits the promise of a [kill] that sent
    nothing stays where it is, whatever happens afterwards: it neither
    returns nor starts its task. *)
Lemma never_settled_forever history f task command args force this :
  wf this →
  frames this !! f = Some (AwaitKill task CargoTask.NeverSettled command args force) →
  frames (run JSON_parse history this).1 !! f
  = Some (AwaitKill task CargoTask.NeverSettled command args force).
Proof.
  revert this. induction history as [| [now e] history IH]; intros this Hwf Hf; [done |].
  simpl. pose proof (wf_step now e this Hwf) as Hwf'.
  pose proof (step_never_settled now e _ _ _ _ _ _ Hwf Hf) as Hf'.
  destruct (step JSON_parse now e this) as [this' effects].
  specialize (IH this' Hwf' Hf').
  by destruct (run JSON_parse history this') as [this'' effects'].
Qed.

(** *** Where processes are spawned *)

Lemma not_spawns_nil : ¬ spawns [].
Proof. intros (e & Hin & _). by apply elem_of_nil in Hin. Qed.

Lemma not_spawns_app effects effects' :
  ¬ spawns effects → ¬ spawns effects' → ¬ spawns (effects ++ effects').
Proof.
  intros H H' (e & [Hin | Hin]%elem_of_app & Hspawn); [apply H | apply H']; by exists e.
Qed.

Lemma not_spawns_cons e effects :
  isSpawn e = false → ¬ spawns effects → ¬ spawns (e :: effects).
Proof.
  intros He H (e' & [-> | Hin]%elem_of_cons & Hspawn); [congruence |].
  apply H. by exists e'.
Qed.

Lemma not_spawns_killTask task this : ¬ spawns (killTask task this).1.2.
Proof.
  unfold killTask. destruct (tasks this !! task) as [[[child |] []] |]; simpl;
    repeat (apply not_spawns_cons; [done |]); apply not_spawns_nil.
Qed.

Lemma not_spawns_completed exitCode startTime endTime :
  ¬ spawns (completed exitCode startTime endTime).
Proof. repeat (apply not_spawns_cons; [done |]). apply not_spawns_nil. Qed.

Lemma not_spawns_afterExecute now settled startTime this :
  ¬ spawns (afterExecute now settled startTime this).2.
Proof.
  unfold afterExecute, complete. destruct settled as [code | [message |]]; simpl.
  - apply not_spawns_cons; [done | apply not_spawns_completed].
  - destruct (negb _); simpl; repeat (apply not_spawns_cons; [done |]);
      apply not_spawns_nil.
  - apply not_spawns_cons; [done | apply not_spawns_nil].
Qed.

Lemma not_spawns_onStdoutLine cwd line this :
  ¬ spawns (onStdoutLine JSON_parse cwd line this).2.
Proof.
  unfold onStdoutLine. destruct (JS.startsWith line "{").
  - destruct (DiagnosticParser.parseLine _ _ _) as [parser [fileDiagnostics | e]]; simpl.
    + induction fileDiagnostics as [| fileDiagnostic fileDiagnostics IH]; simpl.
      * apply not_spawns_nil.
      * apply not_spawns_app; [| done].
        destruct (diagnosticPublishingEnabled this);
          [apply not_spawns_cons; [done |] |]; apply not_spawns_nil.
    + apply not_spawns_cons; [done | apply not_spawns_nil].
  - apply not_spawns_cons; [done | apply not_spawns_nil].
Qed.

(** A process is spawned in two places only: by the probe of
    [invokeCargoCheckWithArgs], and by [runCargo] when it finds no current
    task after [cwd()]. *)
Lemma step_spawns now e this :
  spawns (step JSON_parse now e this).2 →
  (∃ args, e = CallInvokeCargoCheckWithArgs args)
  ∨ (currentTask this = None
     ∧ ∃ f cwd command args force,
         e = CwdSettled f (inl cwd) ∧ awaitsCwd this f command args force).
Proof.
  destruct e as [command args force | | args | f cwd | f | task line
                 | task line | f message | f code]; simpl; intros Hspawns.
  - by apply not_spawns_nil in Hspawns.
  - destruct (currentTask this) as [task |]; [| by apply not_spawns_nil in Hspawns].
    pose proof (not_spawns_killTask task this) as Hquiet.
    by destruct (killTask task this) as [[this' effects] promise].
  - left. by eexists.
  - destruct (frames this !! f) as [[command args force | | |] |] eqn:Hf;
      try by apply not_spawns_nil in Hspawns.
    destruct cwd as [cwd | message].
    + unfold afterCwd in Hspawns.
      destruct (currentTask this) as [task |] eqn:Hcurrent.
      * destruct force; [| by apply not_spawns_nil in Hspawns].
        pose proof (not_spawns_killTask task this) as Hquiet.
        by destruct (killTask task this) as [[this' effects] promise].
      * right. split; [done |]. by exists f, cwd, command, args, force.
    + destruct Hspawns as (e & [-> | []%elem_of_nil]%elem_of_cons & ?). done.
  - destruct (frames this !! f) as [[| task [] command args force | |] |];
      by apply not_spawns_nil in Hspawns.
  - destruct (callbacks this !! task);
      [by apply not_spawns_onStdoutLine in Hspawns | by apply not_spawns_nil in Hspawns].
  - destruct (callbacks this !! task);
      [| by apply not_spawns_nil in Hspawns].
    destruct Hspawns as (e & [-> | []%elem_of_nil]%elem_of_cons & ?). done.
  - destruct (frames this !! f) as [[| | task command args cwd startTime | task args] |];
      try by apply not_spawns_nil in Hspawns.
    by apply (not_spawns_afterExecute now (CargoTask.Rejected (Some message))) in Hspawns.
  - destruct (frames this !! f) as [[| | task command args cwd startTime | task args] |];
      try by apply not_spawns_nil in Hspawns.
    + destruct (CargoTask.onExit _ code) as [object settled].
      by apply not_spawns_afterExecute in Hspawns.
    + destruct (CargoTask.onExit _ code) as [object [exitCode | error]];
        [| by apply not_spawns_nil in Hspawns].
      unfold afterAvailability in Hspawns.
      destruct (bool_decide _); by apply not_spawns_nil in Hspawns.
Qed.

(** In the histories of this machine, those of [runCargo], [stopTask] and
    [invokeCargoCheckWithArgs] alone, the current task and the running
    process go together:
    - at most one process that [runCargo] spawned is running, and it is
      that of the current task;
    - a call of [runCargo] that finds a current task when [cwd()] is
      resolved returns if it is not forced, and calls [kill] on the
      current task if it is;
    - a listener or continuation other than the availability probe spawns
      a process only when there is no current task and no process of
      [runCargo] is running.
    Once [invokeCargoNew] has run beside a task, the first and the last
    of these no longer hold. *)
Lemma histories_of_runCargo enabled show path history :
  let this := (run JSON_parse history (constructor enabled show path)).1 in
  (∀ task task',
     running this task → running this task' →
     task = task' ∧ currentTask this = Some task)
  ∧ (∀ now f command args force cwd task,
       awaitsCwd this f command args force →
       currentTask this = Some task →
       if force then
         ∃ interrupted,
           tasks this !! task
           = Some {| CargoTask.process := Some {| CargoTask.pid := task |};
                     CargoTask.interrupted := interrupted |}
           ∧ step JSON_parse now (CwdSettled f (inl cwd)) this
             = (set_frames
                  (<[f := AwaitKill task
                            (if interrupted then CargoTask.NeverSettled
                             else CargoTask.ResolvedByTreeKill)
                            command args true]> (frames this))
                  (set_tasks
                     (<[task := {| CargoTask.process := Some {| CargoTask.pid := task |};
                                   CargoTask.interrupted := true |}]> (tasks this))
                     this),
                if interrupted then [] else [TreeKill task "SIGTERM"])
       else
         step JSON_parse now (CwdSettled f (inl cwd)) this
         = (set_frames (delete f (frames this)) this, []))
  ∧ (∀ now e,
       (∀ args, e ≠ CallInvokeCargoCheckWithArgs args) →
       spawns (step JSON_parse now e this).2 →
       currentTask this = None ∧ ∀ task, ¬ running this task).
Proof.
  intros this.
  assert (wf this) as Hwf by apply wf_run, wf_constructor.
  split; [| split].
  - intros task task' (f & ? & ? & ? & ? & Hf) (f' & ? & ? & ? & ? & Hf').
    pose proof (wf_single _ Hwf _ _ _ _ _ _ _ _ _ _ _ _ Hf Hf') as <-.
    rewrite Hf in Hf'. injection Hf' as <- _ _ _ _.
    split; [done |]. by eapply wf_executing.
  - intros now f command args force cwd task Hf Hcurrent.
    unfold awaitsCwd in Hf. simpl. rewrite Hf. unfold afterCwd. rewrite Hcurrent.
    destruct force; [| done].
    destruct (wf_current _ Hwf task Hcurrent) as [_ [interrupted Htask]].
    exists interrupted. split; [done |].
    by rewrite (killTask_current _ _ _ Htask).
  - intros now e Hprobe Hspawns.
    destruct (step_spawns now e this Hspawns) as [[args ->] | [Hidle _]].
    + by destruct (Hprobe args).
    + split; [done |]. intros task (f & ? & ? & ? & ? & Hf).
      by rewrite (wf_executing _ Hwf _ _ _ _ _ _ Hf) in Hidle.
Qed.



End WithDecoder.



End CargoTaskManagerFacts.

(** *** Reporting, probing and routing *)

Module ReportingFacts.

Import Terms.

Lemma startsWith_brace line :
  JS.startsWith line "{" = true ↔ ∃ rest, line = String "{" rest.
Proof.
  unfold JS.startsWith. destruct line as [| c rest].
  - split; [done | by intros [rest ?]].
  - change (String.prefix "{" (String c rest))
      with (if ascii_dec "{" c then String.prefix "" rest else false).
    destruct (ascii_dec "{" c) as [Heq | Hne].
    + subst c. split; [by exists rest | by destruct rest].
    + split; [done |]. intros [rest' [= Hc _]]. by destruct Hne.
Qed.

Section WithDecoder.

Variable JSON_parse : string → result DiagnosticParser.CargoMessage.

Lemma spawnENOENT_message file : String.eqb (spawnENOENT file) "ENOENT" = false.
Proof. reflexivity. Qed.

Lemma notification_manager now message startTime (this : CargoTaskManager.t) :
  ShowInformationMessage notAvailable
  ∈ (CargoTaskManager.afterExecute now (CargoTask.Rejected (Some message)) startTime this).2
  ↔ message = "ENOENT".
Proof.
  unfold CargoTaskManager.afterExecute.
  destruct (String.eqb message "ENOENT") eqn:Hmessage; simpl.
  - apply String.eqb_eq in Hmessage. split; [done |]. intros _. set_solver.
  - apply String.eqb_neq in Hmessage. split; [| done].
    intros [[=] | []%elem_of_nil]%elem_of_cons.
Qed.

Lemma notification_task message startTime endTime :
  ShowInformationMessage notAvailable
  ∈ OutputChannelCargoTask.afterExecute (CargoTask.Rejected (Some message)) startTime endTime
  ↔ message = "ENOENT".
Proof.
  unfold OutputChannelCargoTask.afterExecute.
  destruct (String.eqb message "ENOENT") eqn:Hmessage; simpl.
  - apply String.eqb_eq in Hmessage. split; [done |]. intros _. set_solver.
  - apply String.eqb_neq in Hmessage. split; [| done].
    intros [[=] | []%elem_of_nil]%elem_of_cons.
Qed.

(** C3, where the code departs from it.  Where the tool cannot be
    launched, Node reports ['error'] with the message
    [spawn <file> ENOENT].  The catch block of [runCargo], and that of
    [OutputChannelCargoTask.execute], compares the message of the error
    with [ENOENT], finds another and returns: the status bar is hidden
    and nothing is shown.  By then [onStart] has run, so the channel was
    cleared and holds the "Started cargo ..." line; nothing is appended
    to it.  The notification is shown for an error whose message is
    exactly [ENOENT], and for no other. *)
Theorem failed_spawn_is_not_reported command args cwd :
  (∀ (this : CargoTaskManager.t) now now' f force,
     awaitsCwd this f command args force →
     CargoTaskManager.currentTask this = None →
     (CargoTaskManager.run JSON_parse
        [(now, CargoTaskManager.CwdSettled f (inl cwd));
         (now', CargoTaskManager.ProcessError f
                  (spawnENOENT (CargoTaskManager.cargoPath this)))] this).2
     = [ClearDiagnostics]
       ++ (if CargoTaskManager.showOutput this then [ChannelShow] else [])
       ++ [StatusBarShow; ChannelClear;
           ChannelAppend ("Started cargo " +:+ command +:+ " "
                          +:+ JS.join " " (messageFormat command args) +:+ JS.LF);
           Spawn (CargoTaskManager.fresh this) (CargoTaskManager.cargoPath this)
                 (command :: messageFormat command args) cwd;
           StatusBarHide])
  ∧ (∀ (this : OutputChannelCargoTask.t) child startTime endTime events,
       (OutputChannelCargoTask.execute JSON_parse command args cwd child
          startTime endTime
          (OutputChannelCargoTask.OnError
             (spawnENOENT (OutputChannelCargoTask.cargoPath this)) :: events) this).2
       = [ClearDiagnostics]
         ++ (if OutputChannelCargoTask.shouldShowRunningCargoTaskOutputChannel this
             then [ChannelShow] else [])
         ++ [StatusBarShow; ChannelClear;
             ChannelAppend ("Started cargo " +:+ command +:+ " "
                            +:+ JS.join " " (messageFormat command args) +:+ JS.LF);
             Spawn (CargoTask.pid child) (OutputChannelCargoTask.cargoPath this)
                   (command :: messageFormat command args) cwd;
             StatusBarHide])
  ∧ (∀ now message startTime (this : CargoTaskManager.t),
       ShowInformationMessage notAvailable
       ∈ (CargoTaskManager.afterExecute now (CargoTask.Rejected (Some message))
            startTime this).2
       ↔ message = "ENOENT")
  ∧ (∀ message startTime endTime,
       ShowInformationMessage notAvailable
       ∈ OutputChannelCargoTask.afterExecute (CargoTask.Rejected (Some message))
           startTime endTime
       ↔ message = "ENOENT").
Proof.
  split; [| split; [| split]].
  - intros this now now' f force Hf Hidle. unfold awaitsCwd in Hf.
    simpl. rewrite Hf. unfold CargoTaskManager.afterCwd. rewrite Hidle. simpl.
    rewrite lookup_insert_eq. simpl.
    destruct (CargoTaskManager.showOutput this); reflexivity.
  - intros this child startTime endTime events.
    unfold OutputChannelCargoTask.execute. simpl.
    destruct (OutputChannelCargoTask.shouldShowRunningCargoTaskOutputChannel this);
      reflexivity.
  - apply notification_manager.
  - apply notification_task.
Qed.

(** C5 (amended).  Every call of [invokeCargoCheckWithArgs] spawns the
    probe [cargo check --help], whatever the calls before it found.  When
    the probe exits with the code 0 the call goes on to
    [runCargo('check', args, true)]; when it exits with another code, or on
    a signal, it goes on to [runCargo('rustc', args, true)] with [--] and
    [-Zno-trans] appended to [args]. *)
Theorem probe_on_every_check (this : CargoTaskManager.t) now now' args code :
  let task := CargoTaskManager.fresh this in
  let '(this', effects) :=
    CargoTaskManager.run JSON_parse
      [(now, CargoTaskManager.CallInvokeCargoCheckWithArgs args);
       (now', CargoTaskManager.ProcessExit (S task) code)] this in
  effects = [Spawn task (CargoTaskManager.cargoPath this) ["check"; "--help"] "/"]
  ∧ CargoTaskManager.frames this' !! S (S task)
    = Some (if bool_decide (code = Some 0%Z)
            then CargoTaskManager.AwaitCwd "check" args true
            else CargoTaskManager.AwaitCwd "rustc" (args ++ ["--"; "-Zno-trans"]) true).
Proof.
  simpl. unfold CargoTaskManager.suspend. simpl.
  rewrite lookup_insert_eq. simpl. rewrite lookup_insert_eq. simpl.
  unfold CargoTaskManager.afterAvailability.
  destruct (bool_decide (code = Some 0%Z)); simpl;
    (split; [done |]); unfold CargoTaskManager.suspend; simpl;
    by rewrite lookup_insert_eq.
Qed.

(** C6 (amended).  A line of stdout whose first character is [{] is given
    to the diagnostic parser and nothing of it reaches the channel; what
    the parser returns is published (by the manager only if publishing is
    enabled), what it throws is not caught.  Every other line of stdout
    and every line of stderr is appended to the channel, followed by a
    line feed; the parser does not see it.  This holds of the callbacks
    of [runCargo] and of those of [OutputChannelCargoTask.execute]. *)
Theorem stream_routing cwd line :
  (∀ this : CargoTaskManager.t,
     ((∃ rest, line = String "{" rest) →
      CargoTaskManager.onStdoutLine JSON_parse cwd line this
      = match DiagnosticParser.parseLine JSON_parse line
                (CargoTaskManager.diagnosticParser this) with
        | (parser, Ok fileDiagnostics) =>
            (CargoTaskManager.set_diagnosticParser parser this,
             if CargoTaskManager.diagnosticPublishingEnabled this
             then map (λ fileDiagnostic, PublishDiagnostic fileDiagnostic cwd)
                      fileDiagnostics
             else [])
        | (parser, Throw e) =>
            (CargoTaskManager.set_diagnosticParser parser this, [Uncaught e])
        end)
     ∧ ((∀ rest, line ≠ String "{" rest) →
        CargoTaskManager.onStdoutLine JSON_parse cwd line this
        = (this, [ChannelAppend (line +:+ JS.LF)]))
     ∧ CargoTaskManager.onStderrLine line this = (this, [ChannelAppend (line +:+ JS.LF)]))
  ∧ (∀ this : OutputChannelCargoTask.t,
       ((∃ rest, line = String "{" rest) →
        OutputChannelCargoTask.onStdoutLine JSON_parse cwd line this
        = match DiagnosticParser.parseLine JSON_parse line
                  (OutputChannelCargoTask.diagnosticParser this) with
          | (parser, Ok fileDiagnostics) =>
              (OutputChannelCargoTask.set_diagnosticParser parser this,
               map (λ fileDiagnostic, PublishDiagnostic fileDiagnostic cwd)
                   fileDiagnostics)
          | (parser, Throw e) =>
              (OutputChannelCargoTask.set_diagnosticParser parser this, [Uncaught e])
          end)
       ∧ ((∀ rest, line ≠ String "{" rest) →
          OutputChannelCargoTask.onStdoutLine JSON_parse cwd line this
          = (this, [ChannelAppend (line +:+ JS.LF)]))
       ∧ OutputChannelCargoTask.onStderrLine line this
         = (this, [ChannelAppend (line +:+ JS.LF)])).
Proof.
  split; intros this; (split; [| split; [| done]]).
  - intros Hbrace%startsWith_brace. unfold CargoTaskManager.onStdoutLine.
    rewrite Hbrace.
    destruct (DiagnosticParser.parseLine _ _ _) as [parser [fileDiagnostics | e]];
      [| done].
    f_equal. destruct (CargoTaskManager.diagnosticPublishingEnabled this).
    + induction fileDiagnostics as [| ? ? IH]; simpl; [done | by rewrite IH].
    + induction fileDiagnostics as [| ? ? IH]; simpl; done.
  - intros Hother. unfold CargoTaskManager.onStdoutLine.
    destruct (JS.startsWith line "{") eqn:Hbrace; [| done].
    apply startsWith_brace in Hbrace as [rest ->]. by destruct (Hother rest).
  - intros Hbrace%startsWith_brace. unfold OutputChannelCargoTask.onStdoutLine.
    by rewrite Hbrace.
  - intros Hother. unfold OutputChannelCargoTask.onStdoutLine.
    destruct (JS.startsWith line "{") eqn:Hbrace; [| done].
    apply startsWith_brace in Hbrace as [rest ->]. by destruct (Hother rest).
Qed.

End WithDecoder.

Lemma failed_spawn_is_not_reported_witness :
  (CargoTaskManager.run DiagnosticParser.JSON_parse
     [(10%Z, CargoTaskManager.CwdSettled 0 (inl "/project"));
      (22%Z, CargoTaskManager.ProcessError 0 (spawnENOENT "cargo"))]
     (CargoTaskManager.suspend (CargoTaskManager.AwaitCwd "build" [] true)
        (CargoTaskManager.constructor true false "cargo"))).2
  = [ClearDiagnostics; StatusBarShow; ChannelClear;
     ChannelAppend ("Started cargo build --message-format json" +:+ JS.LF);
     Spawn 1 "cargo" ["build"; "--message-format"; "json"] "/project";
     StatusBarHide].
Proof.
  exact (proj1 (failed_spawn_is_not_reported DiagnosticParser.JSON_parse
                  "build" [] "/project")
           (CargoTaskManager.suspend (CargoTaskManager.AwaitCwd "build" [] true)
              (CargoTaskManager.constructor true false "cargo"))
           10%Z 22%Z 0 true eq_refl eq_refl).
Defined.

(** The history [missing_cargo], where the build cannot be launched,
    shows nothing to the user. *)
Lemma missing_cargo_shows_nothing :
  (CargoTaskManager.run DiagnosticParser.JSON_parse Examples.missing_cargo
     (CargoTaskManager.constructor true false "cargo")).2
  = [ClearDiagnostics; StatusBarShow; ChannelClear;
     ChannelAppend ("Started cargo build --message-format json" +:+ JS.LF);
     Spawn 1 "cargo" ["build"; "--message-format"; "json"] "/project";
     StatusBarHide].
Proof. vm_compute. reflexivity. Qed.

(** C5, as stated, fails: in the history [check_twice] the first probe
    finds [check] unsupported, and the second check runs the probe
    again. *)
Lemma probe_on_every_check_counterexample :
  List.filter isSpawn
    (CargoTaskManager.run DiagnosticParser.JSON_parse Examples.check_twice
       (CargoTaskManager.constructor true false "cargo")).2
  = [Spawn 0 "cargo" ["check"; "--help"] "/";
     Spawn 3 "cargo" ["rustc"; "--lib"; "--"; "-Zno-trans"] "/project";
     Spawn 4 "cargo" ["check"; "--help"] "/"].
Proof. vm_compute. reflexivity. Qed.

Lemma stream_routing_witness :
  CargoTaskManager.onStdoutLine DiagnosticParser.JSON_parse "/project"
    Examples.mismatched_types (CargoTaskManager.constructor false false "cargo")
  = (CargoTaskManager.set_diagnosticParser
       {| DiagnosticParser.complexMessageIndex := 1 |}
       (CargoTaskManager.constructor false false "cargo"), [])
  ∧ CargoTaskManager.onStdoutLine DiagnosticParser.JSON_parse "/project"
      "   Compiling demo v0.1.0" (CargoTaskManager.constructor true false "cargo")
    = (CargoTaskManager.constructor true false "cargo",
       [ChannelAppend ("   Compiling demo v0.1.0" +:+ JS.LF)])
  ∧ OutputChannelCargoTask.onStdoutLine DiagnosticParser.JSON_parse "/project"
      Examples.artifact (OutputChannelCargoTask.constructor false "cargo")
    = (OutputChannelCargoTask.constructor false "cargo", []).
Proof.
  split; [| split].
  - destruct (proj1 (stream_routing DiagnosticParser.JSON_parse "/project"
                       Examples.mismatched_types)
                (CargoTaskManager.constructor false false "cargo")) as (Hbrace & _ & _).
    rewrite Hbrace; [| eexists; vm_compute; reflexivity].
    vm_compute. reflexivity.
  - destruct (proj1 (stream_routing DiagnosticParser.JSON_parse "/project"
                       "   Compiling demo v0.1.0")
                (CargoTaskManager.constructor true false "cargo")) as (_ & Hother & _).
    apply Hother. intros rest. discriminate.
  - destruct (proj2 (stream_routing DiagnosticParser.JSON_parse "/project"
                       Examples.artifact)
                (OutputChannelCargoTask.constructor false "cargo")) as (Hbrace & _ & _).
    rewrite Hbrace; [| eexists; vm_compute; reflexivity].
    vm_compute. reflexivity.
Defined.

(** C6, as stated, fails: the first character of [indented] that is not
    white space is [{], and the line goes to the channel, not to the
    parser. *)
Lemma stream_routing_counterexample :
  firstNonWhitespace Examples.indented "{" = true
  ∧ CargoTaskManager.onStdoutLine DiagnosticParser.JSON_parse "/project"
      Examples.indented (CargoTaskManager.constructor true false "cargo")
    = (CargoTaskManager.constructor true false "cargo",
       [ChannelAppend (Examples.indented +:+ JS.LF)])
  ∧ OutputChannelCargoTask.onStdoutLine DiagnosticParser.JSON_parse "/project"
      Examples.indented (OutputChannelCargoTask.constructor false "cargo")
    = (OutputChannelCargoTask.constructor false "cargo",
       [ChannelAppend (Examples.indented +:+ JS.LF)]).
Proof. repeat split; vm_compute; reflexivity. Qed.

End ReportingFacts.

(** * Further properties *)

(** ** The diagnostic parser, beyond the claims *)

Module DiagnosticParserMore.

Import DiagnosticParser Terms Terms2.

Lemma string_append_assoc (a b c : string) : (a +:+ b) +:+ c = a +:+ (b +:+ c).
Proof.
  induction a as [| x a IH]; [done |].
  change (String x ((a +:+ b) +:+ c) = String x (a +:+ (b +:+ c))). by rewrite IH.
Qed.

Lemma complexb_complex compilerMessage : complexb compilerMessage = true ↔ complex compilerMessage.
Proof.
  unfold complexb, complex.
  destruct (spans compilerMessage) as [| span [| span' rest]]; simpl.
  - split; [done |]. intros [? | (? & ? & ? & ?)]; [lia | done].
  - rewrite bool_decide_eq_true. split.
    + intros [x Hx]. right. by exists span, x.
    + intros [? | (? & x & [= <-] & Hx)]; [lia | by exists x].
  - split; [intros _; left; lia | done].
Qed.

(** X1.  [isComplexCompilerMessage] throws on a message without spans, and
    on every other message it returns [true] exactly when the message has
    more than one span or its only span carries an expansion. *)
Theorem classification compilerMessage this :
  (spans compilerMessage = [] →
   isComplexCompilerMessage compilerMessage this
   = (this, Throw (Error "A compiler message must have spans")))
  ∧ (spans compilerMessage ≠ [] →
     ∃ answer,
       isComplexCompilerMessage compilerMessage this = (this, Ok answer)
       ∧ (answer = true ↔ complex compilerMessage)).
Proof.
  split.
  - intros Hspans. unfold isComplexCompilerMessage. by rewrite Hspans.
  - intros Hspans. exists (complexb compilerMessage). split.
    + unfold isComplexCompilerMessage, complexb.
      destruct (spans compilerMessage) as [| span [| span' rest]]; simpl; [done | | done].
      by destruct (expansion span).
    + apply complexb_complex.
Qed.

Lemma classification_witness :
  ∃ answer,
    isComplexCompilerMessage Examples.borrowed_twice_message constructor
    = (constructor, Ok answer)
    ∧ (answer = true ↔ complex Examples.borrowed_twice_message).
Proof.
  apply (proj2 (classification Examples.borrowed_twice_message constructor)).
  discriminate.
Defined.

(** What [parseCompilerMessage] does, by the three kinds of message. *)
Lemma parseCompilerMessage_cases compilerMessage this :
  parseCompilerMessage compilerMessage this
  = match spans compilerMessage with
    | [] => (this, Ok [])
    | span :: _ =>
        if complexb compilerMessage then
          let index := (complexMessageIndex this + 1)%N in
          ({| complexMessageIndex := index |},
           Ok (flat_map (parseComplexSpan index compilerMessage [])
                        (spans compilerMessage)))
        else
          (this,
           Ok [{| filePath := file_name span;
                  diagnostic :=
                    {| range := spanRange span;
                       diagnostic_message :=
                         codePrefix compilerMessage +:+ message compilerMessage
                         +:+ labelSuffix span
                         +:+ childrenToString (children compilerMessage) 1;
                       severity := toSeverity (level compilerMessage) |} |}])
    end.
Proof.
  destruct (spans compilerMessage) as [| span rest] eqn:Hspans.
  { unfold parseCompilerMessage. by rewrite Hspans. }
  destruct (complexb compilerMessage) eqn:Hcomplex.
  - apply complexb_complex in Hcomplex.
    rewrite (DiagnosticParserFacts.parseCompilerMessage_complex _ _ Hcomplex).
    rewrite DiagnosticParserFacts.parseComplexCompilerMessage_eq.
    by rewrite Hspans.
  - unfold complexb in Hcomplex. rewrite Hspans in Hcomplex.
    destruct rest as [| span' rest]; [| done].
    apply bool_decide_eq_false in Hcomplex.
    destruct (expansion span) as [x |] eqn:Hexpansion; [by destruct Hcomplex |].
    unfold parseCompilerMessage. rewrite Hspans. simpl. unfold mbind, M_bind.
    rewrite (DiagnosticParserFacts.isComplexCompilerMessage_simple _ _ _ Hspans Hexpansion).
    unfold parseSimpleCompilerMessage. rewrite Hspans. simpl.
    by rewrite !string_append_assoc.
Qed.

Section Lines.

Variable JSON_parse : string → result CargoMessage.

Section Ranges.

Variable Range_new : Z → Z → Z → Z → result Range.

Lemma parseComplexSpan_outcome index compilerMessage diagnostics span :
  match RangeChecked.parseComplexSpan Range_new index compilerMessage diagnostics span with
  | Ok diagnostics' =>
      (length diagnostics' ≤ S (length diagnostics))%nat
      ∧ ∃ range, RangeChecked.newSpanRange Range_new span = Ok range
  | Throw e => RangeChecked.newSpanRange Range_new span = Throw e
  end.
Proof.
  unfold RangeChecked.parseComplexSpan.
  destruct (RangeChecked.newSpanRange Range_new span) as [range | e]; [| done].
  destruct (is_primary span); [| destruct (JS.truthy (label span))];
    (split; [| by exists range]); rewrite ?length_app; simpl; lia.
Qed.

(** The loop ends with a list that has grown by at most one diagnostic
    per span, or with what the constructor threw for one of them. *)
Lemma parseComplexSpans_outcome index compilerMessage spans diagnostics :
  match RangeChecked.parseComplexSpans Range_new index compilerMessage spans diagnostics with
  | Ok diagnostics' =>
      (length diagnostics' ≤ length diagnostics + length spans)%nat
      ∧ Forall (λ span, ∃ range, RangeChecked.newSpanRange Range_new span = Ok range)
               spans
  | Throw e =>
      ∃ span, span ∈ spans ∧ RangeChecked.newSpanRange Range_new span = Throw e
  end.
Proof.
  revert diagnostics. induction spans as [| span spans IH]; intros diagnostics; simpl.
  - split; [lia | done].
  - pose proof (parseComplexSpan_outcome index compilerMessage diagnostics span)
      as Hspan.
    destruct (RangeChecked.parseComplexSpan _ _ _ _ _) as [diagnostics' | e].
    + destruct Hspan as [Hlength Hrange]. specialize (IH diagnostics').
      destruct (RangeChecked.parseComplexSpans _ _ _ _ _) as [diagnostics'' | e].
      * destruct IH as [Hlength' Hranges]. split; [lia | by constructor].
      * destruct IH as (span' & ? & ?). exists span'. split; [by right | done].
    + exists span. split; [by left | done].
Qed.

(** Where the constructor returns the range of its arguments, the loop is
    that of [DiagnosticParser]. *)
Lemma parseComplexSpans_agree index compilerMessage spans diagnostics :
  Forall (λ span, RangeChecked.newSpanRange Range_new span = Ok (spanRange span)) spans →
  RangeChecked.parseComplexSpans Range_new index compilerMessage spans diagnostics
  = Ok (fold_left (parseComplexSpan index compilerMessage) spans diagnostics).
Proof.
  intros Hspans. revert diagnostics.
  induction Hspans as [| span spans Hspan _ IH]; intros diagnostics; simpl; [done |].
  unfold RangeChecked.parseComplexSpan at 1. rewrite Hspan.
  unfold parseComplexSpan at 2.
  destruct (is_primary span); [| destruct (JS.truthy (label span))]; apply IH.
Qed.

Lemma checked_parseCompilerMessage_cases compilerMessage this :
  RangeChecked.parseCompilerMessage Range_new compilerMessage this
  = match spans compilerMessage with
    | [] => (this, Ok [])
    | span :: _ =>
        if complexb compilerMessage
        then ({| complexMessageIndex := complexMessageIndex this + 1 |},
              RangeChecked.parseComplexSpans Range_new (complexMessageIndex this + 1)
                compilerMessage (spans compilerMessage) [])
        else RangeChecked.parseSimpleCompilerMessage Range_new compilerMessage this
    end.
Proof.
  unfold RangeChecked.parseCompilerMessage, isComplexCompilerMessage, complexb,
    RangeChecked.parseComplexCompilerMessage.
  destruct (spans compilerMessage) as [| span [| span' rest]]; [done | | done].
  by destruct (expansion span).
Qed.

Lemma checked_parseLine_compilerMessage line compilerMessage this :
  compilerMessageLine JSON_parse line compilerMessage →
  RangeChecked.parseLine Range_new JSON_parse line this
  = RangeChecked.parseCompilerMessage Range_new compilerMessage this.
Proof.
  intros (cargoMessage & Hparse & Hreason & Hmessage).
  unfold RangeChecked.parseLine. by rewrite Hparse, Hreason, Hmessage.
Qed.

(** Where the constructor returns the range of its arguments for every
    span, the methods are those of [DiagnosticParser]. *)
Lemma checked_agrees compilerMessage this :
  Forall (λ span, RangeChecked.newSpanRange Range_new span = Ok (spanRange span))
         (spans compilerMessage) →
  RangeChecked.parseCompilerMessage Range_new compilerMessage this
  = parseCompilerMessage compilerMessage this.
Proof.
  intros Hagree. unfold RangeChecked.parseCompilerMessage, parseCompilerMessage.
  destruct (Nat.eqb (length (spans compilerMessage)) 0); [done |].
  unfold mbind, M_bind.
  destruct (isComplexCompilerMessage compilerMessage this) as [this' [[] | e]];
    [| | done].
  - unfold incrementComplexMessageIndex, RangeChecked.parseComplexCompilerMessage,
      parseComplexCompilerMessage, getComplexMessageIndex, mbind, M_bind, mret, M_ret.
    by rewrite (parseComplexSpans_agree _ _ _ _ Hagree).
  - unfold RangeChecked.parseSimpleCompilerMessage, parseSimpleCompilerMessage.
    destruct Hagree as [| span spans Hspan _]; [done |]. by rewrite Hspan.
Qed.

(** X2.  On a line that decodes to a compiler-message event, the only
    thing that [parseLine] throws is what [new Range(..)] throws: the
    exception of [isComplexCompilerMessage] and the access to [spans[0]]
    are out of reach.  Where it returns, it returns at most one
    diagnostic per span.  It throws as soon as the constructor throws for
    one span of the message, also for a span that would get no
    diagnostic, since the range is made first; a complex message has
    taken its number by then.  Where the constructor returns the range
    of its arguments for every span, [parseLine] does what
    [DiagnosticParser.parseLine] does. *)
Theorem range_is_the_only_throw line compilerMessage this :
  compilerMessageLine JSON_parse line compilerMessage →
  let outcome := RangeChecked.parseLine Range_new JSON_parse line this in
  match outcome.2 with
  | Ok diagnostics => (length diagnostics ≤ length (spans compilerMessage))%nat
  | Throw e =>
      ∃ span,
        span ∈ spans compilerMessage
        ∧ RangeChecked.newSpanRange Range_new span = Throw e
  end
  ∧ ((∃ span e,
        span ∈ spans compilerMessage
        ∧ RangeChecked.newSpanRange Range_new span = Throw e) →
     ∃ e,
       outcome
       = ({| complexMessageIndex :=
               complexMessageIndex this + if complexb compilerMessage then 1 else 0 |},
          Throw e))
  ∧ (Forall (λ span, RangeChecked.newSpanRange Range_new span = Ok (spanRange span))
            (spans compilerMessage) →
     outcome = parseLine JSON_parse line this).
Proof.
  intros Hline outcome. subst outcome.
  rewrite (checked_parseLine_compilerMessage _ _ _ Hline).
  rewrite (DiagnosticParserFacts.parseLine_compilerMessage _ _ _ _ Hline).
  split; [| split; [| apply checked_agrees]];
    rewrite checked_parseCompilerMessage_cases.
  - destruct (spans compilerMessage) as [| span rest] eqn:Hspans; [simpl; lia |].
    destruct (complexb compilerMessage) eqn:Hcomplex.
    + rewrite <- Hspans.
      pose proof (parseComplexSpans_outcome (complexMessageIndex this + 1)
                    compilerMessage (spans compilerMessage) []) as Houtcome.
      simpl. by destruct (RangeChecked.parseComplexSpans _ _ _ _ _);
        [destruct Houtcome |].
    + unfold RangeChecked.parseSimpleCompilerMessage. rewrite Hspans.
      destruct (RangeChecked.newSpanRange Range_new span) as [range | e] eqn:Hrange;
        simpl; [lia |].
      exists span. split; [by left | done].
  - intros (span' & e & Hspan' & Hthrow).
    destruct (spans compilerMessage) as [| span rest] eqn:Hspans;
      [by apply elem_of_nil in Hspan' |].
    destruct (complexb compilerMessage) eqn:Hcomplex.
    + rewrite <- Hspans in Hspan' |- *.
      pose proof (parseComplexSpans_outcome (complexMessageIndex this + 1)
                    compilerMessage (spans compilerMessage) []) as Houtcome.
      destruct (RangeChecked.parseComplexSpans _ _ _ _ _) as [diagnostics | e'];
        [| by exists e'].
      destruct Houtcome as [_ Hranges].
      rewrite Forall_forall in Hranges.
      destruct (Hranges span' Hspan') as [range Hrange]. congruence.
    + assert (rest = []) as ->.
      { unfold complexb in Hcomplex. rewrite Hspans in Hcomplex.
        by destruct rest. }
      apply list_elem_of_singleton in Hspan' as ->.
      unfold RangeChecked.parseSimpleCompilerMessage. rewrite Hspans, Hthrow.
      exists e. unfold throw. f_equal. destruct this as [index]. simpl.
      f_equal. lia.
Qed.

(** vscode's constructor returns the range of its arguments for a span
    of the wire format, and throws for a span at line 0. *)
Lemma Range_new_wirePositions span :
  Vscode.wirePositions span →
  RangeChecked.newSpanRange Vscode.Range_new span = Ok (spanRange span).
Proof.
  intros (Hline & Hcolumn & Hcolumn' & Horder).
  unfold RangeChecked.newSpanRange, Vscode.Range_new, Vscode.Position_new,
    Vscode.isBefore, spanRange.
  destruct (Z.ltb_spec (line_start span - 1) 0); [lia |].
  destruct (Z.ltb_spec (column_start span - 1) 0); [lia |].
  destruct (Z.ltb_spec (line_end span - 1) 0); [lia |].
  destruct (Z.ltb_spec (column_end span - 1) 0); [lia |].
  cbn [fst snd].
  destruct (Z.ltb_spec (line_start span - 1) (line_end span - 1)); [done |].
  destruct (Z.ltb_spec (line_end span - 1) (line_start span - 1)); [lia |].
  destruct (Z.ltb_spec (column_start span - 1) (column_end span - 1)); [done |].
  f_equal. f_equal; lia.
Qed.

End Ranges.

(** On lines of the wire format, the parser with vscode's constructor is
    [DiagnosticParser]. *)
Lemma wire_format_agrees line compilerMessage this :
  compilerMessageLine JSON_parse line compilerMessage →
  Forall Vscode.wirePositions (spans compilerMessage) →
  RangeChecked.parseLine Vscode.Range_new JSON_parse line this
  = parseLine JSON_parse line this.
Proof.
  intros Hline Hwire.
  rewrite (checked_parseLine_compilerMessage _ _ _ _ Hline).
  rewrite (DiagnosticParserFacts.parseLine_compilerMessage _ _ _ _ Hline).
  apply checked_agrees.
  eapply Forall_impl; [exact Hwire |]. apply Range_new_wirePositions.
Qed.

(** X3.  For a message with exactly one span, without expansion, the one
    diagnostic is at the file of the span; its message is the code of the
    message followed by ": ", when it has a code, then the text of the
    message, then a line feed and the label of the span, when that is
    neither null nor empty, then the rendered children; the counter is
    not touched. *)
Theorem simple_message_text line compilerMessage span this :
  compilerMessageLine JSON_parse line compilerMessage →
  spans compilerMessage = [span] →
  expansion span = None →
  parseLine JSON_parse line this
  = (this,
     Ok [{| filePath := file_name span;
            diagnostic :=
              {| range := spanRange span;
                 diagnostic_message :=
                   match code compilerMessage with
                   | Some c => code_ c +:+ ": "
                   | None => ""
                   end
                   +:+ message compilerMessage
                   +:+ match label span with
                       | Some l => if String.eqb l "" then "" else JS.LF +:+ l
                       | None => ""
                       end
                   +:+ childrenToString (children compilerMessage) 1;
                 severity := toSeverity (level compilerMessage) |} |}]).
Proof.
  intros Hline Hspans Hexpansion.
  rewrite (DiagnosticParserFacts.parseLine_compilerMessage _ _ _ _ Hline).
  rewrite parseCompilerMessage_cases. unfold complexb. rewrite Hspans.
  rewrite bool_decide_false; [| rewrite Hexpansion; by intros [? ?]].
  unfold codePrefix, labelSuffix, JS.truthy.
  destruct (label span) as [l |]; [| done]. simpl.
  by destruct (String.eqb l "").
Qed.

(** X4.  In the complex path the primary span gets exactly one
    diagnostic, placed between those of the spans before it and those of
    the spans after it; its message is "(N) " followed by what the simple
    path would have written for that span. *)
Theorem complex_primary_span (this : t) (compilerMessage : CompilerMessage)
    (before : list CompilerMessageSpan) (span : CompilerMessageSpan)
    (after : list CompilerMessageSpan) :
  spans compilerMessage = before ++ span :: after →
  is_primary span = true →
  ∃ diagnostics diagnostics',
    parseComplexCompilerMessage (withSpans compilerMessage before) this
      = (this, Ok diagnostics)
    ∧ parseComplexCompilerMessage (withSpans compilerMessage after) this
      = (this, Ok diagnostics')
    ∧ parseComplexCompilerMessage compilerMessage this
      = (this,
         Ok (diagnostics
             ++ [{| filePath := file_name span;
                    diagnostic :=
                      {| range := spanRange span;
                         diagnostic_message :=
                           "(" +:+ JS.N_toString (complexMessageIndex this) +:+ ") "
                           +:+ codePrefix compilerMessage +:+ message compilerMessage
                           +:+ labelSuffix span
                           +:+ childrenToString (children compilerMessage) 1;
                         severity := toSeverity (level compilerMessage) |} |}]
             ++ diagnostics')).
Proof.
  intros Hspans Hprimary.
  rewrite !DiagnosticParserFacts.parseComplexCompilerMessage_eq. simpl. rewrite Hspans.
  eexists _, _. split; [reflexivity |]. split; [reflexivity |].
  rewrite flat_map_app. simpl. do 3 f_equal.
  unfold parseComplexSpan. rewrite Hprimary. simpl.
  by rewrite !string_append_assoc.
Qed.

(** X5.  The diagnostics of a complex message are those of its spans that
    are primary or carry a label, one for each and in the order of the
    spans, each at the file and at the range of its own span. *)
Theorem complex_diagnostics_follow_spans (this : t) (compilerMessage : CompilerMessage) :
  ∃ diagnostics,
    parseComplexCompilerMessage compilerMessage this = (this, Ok diagnostics)
    ∧ map (λ fileDiagnostic,
             (filePath fileDiagnostic, range (diagnostic fileDiagnostic)))
          diagnostics
      = map (λ span, (file_name span, spanRange span))
            (List.filter reported (spans compilerMessage)).
Proof.
  rewrite DiagnosticParserFacts.parseComplexCompilerMessage_eq.
  eexists. split; [reflexivity |].
  induction (spans compilerMessage) as [| span rest IH]; simpl; [done |].
  rewrite map_app, IH. unfold parseComplexSpan at 1, reported at 2.
  destruct (is_primary span); [done |]. simpl.
  by destruct (JS.truthy (label span)).
Qed.

(** X6.  Every diagnostic of a compiler message has the severity that its
    level stands for: Warning for "warning", Information for "note", Hint
    for "help", and Error for every other level. *)
Theorem severity_of_level line compilerMessage this :
  compilerMessageLine JSON_parse line compilerMessage →
  ∃ this' diagnostics,
    parseLine JSON_parse line this = (this', Ok diagnostics)
    ∧ Forall (λ fileDiagnostic,
                let s := severity (diagnostic fileDiagnostic) in
                let l := level compilerMessage in
                (l = "warning" → s = Warning)
                ∧ (l = "note" → s = Information)
                ∧ (l = "help" → s = Hint)
                ∧ (l ≠ "warning" → l ≠ "note" → l ≠ "help" → s = Error_))
             diagnostics.
Proof.
  intros Hline.
  assert (∀ d : FileDiagnostic,
            severity (diagnostic d) = toSeverity (level compilerMessage) →
            let s := severity (diagnostic d) in
            let l := level compilerMessage in
            (l = "warning" → s = Warning)
            ∧ (l = "note" → s = Information)
            ∧ (l = "help" → s = Hint)
            ∧ (l ≠ "warning" → l ≠ "note" → l ≠ "help" → s = Error_)) as Htable.
  { intros d -> s l. subst s l. unfold toSeverity.
    repeat split.
    - by intros ->.
    - by intros ->.
    - by intros ->.
    - intros H1%String.eqb_neq H2%String.eqb_neq H3%String.eqb_neq.
      by rewrite H1, H2, H3. }
  rewrite (DiagnosticParserFacts.parseLine_compilerMessage _ _ _ _ Hline).
  rewrite parseCompilerMessage_cases.
  destruct (spans compilerMessage) as [| span rest] eqn:Hspans.
  - eexists _, _. split; [reflexivity | by apply Forall_nil].
  - destruct (complexb compilerMessage).
    + eexists _, _. split; [reflexivity |].
      apply Forall_flat_map, Forall_forall. intros s _.
      unfold parseComplexSpan.
      destruct (is_primary s); [| destruct (JS.truthy (label s))];
        [apply Forall_singleton .. | by apply Forall_nil]; by apply Htable.
    + eexists _, _. split; [reflexivity |].
      apply Forall_singleton. by apply Htable.
Qed.

Lemma parseLine_counter line this :
  complexMessageIndex (parseLine JSON_parse line this).1
  = (complexMessageIndex this + if complexLine JSON_parse line then 1 else 0)%N.
Proof.
  unfold parseLine, complexLine.
  destruct (JSON_parse line) as [cargoMessage | e]; simpl; [| lia].
  destruct (String.eqb (reason cargoMessage) "compiler-message"); simpl; [| lia].
  destruct (cargo_message cargoMessage) as [compilerMessage |]; simpl; [| lia].
  rewrite parseCompilerMessage_cases. unfold complexb.
  destruct (spans compilerMessage) as [| span [| span' rest]]; simpl; [lia | | lia].
  destruct (bool_decide _); simpl; lia.
Qed.

Lemma parseLines_counter lines this :
  complexMessageIndex (parseLines JSON_parse lines this)
  = (complexMessageIndex this
     + N.of_nat (length (List.filter (complexLine JSON_parse) lines)))%N.
Proof.
  revert this. induction lines as [| line lines IH]; intros this; simpl; [lia |].
  unfold parseLines in *. simpl. rewrite IH, parseLine_counter.
  destruct (complexLine JSON_parse line); simpl; lia.
Qed.

(** X7.  After any lines, the counter of the parser has grown by the
    number of those lines that decode to a complex compiler message;
    lines that are not JSON, other events and simple messages leave it
    as it is. *)
Theorem counter_counts_complex_messages lines this :
  complexMessageIndex (parseLines JSON_parse lines this)
  = (complexMessageIndex this
     + N.of_nat (length (List.filter (complexLine JSON_parse) lines)))%N.
Proof.
  apply parseLines_counter.
Qed.

End Lines.

Lemma unused_variable_decodes :
  compilerMessageLine JSON_parse Examples2.unused_variable Examples2.unused_variable_message.
Proof. eapply DiagnosticParserFacts.compilerMessageLine_decoded. by vm_compute. Qed.

Lemma borrowed_twice_line :
  compilerMessageLine JSON_parse Examples.borrowed_twice Examples.borrowed_twice_message.
Proof. eapply DiagnosticParserFacts.compilerMessageLine_decoded. by vm_compute. Qed.

Lemma line_zero_line :
  compilerMessageLine JSON_parse Examples3.line_zero Examples3.line_zero_message.
Proof. eapply DiagnosticParserFacts.compilerMessageLine_decoded. by vm_compute. Qed.

Lemma range_is_the_only_throw_witness :
  (∃ e,
     RangeChecked.parseLine Vscode.Range_new JSON_parse Examples3.line_zero constructor
     = ({| complexMessageIndex := 1 |}, Throw e))
  ∧ RangeChecked.parseLine Vscode.Range_new JSON_parse Examples.borrowed_twice constructor
    = parseLine JSON_parse Examples.borrowed_twice constructor.
Proof.
  split.
  - apply (range_is_the_only_throw JSON_parse Vscode.Range_new Examples3.line_zero
             Examples3.line_zero_message constructor line_zero_line).
    exists Examples3.span_at_line_zero,
      (Error "Illegal argument: line must be non-negative").
    split; [| reflexivity]. right. left.
  - apply (range_is_the_only_throw JSON_parse Vscode.Range_new Examples.borrowed_twice
             Examples.borrowed_twice_message constructor borrowed_twice_line).
    repeat constructor.
Defined.

(** What the parser with vscode's constructor throws at line 0 is the
    error of [Position]; [DiagnosticParser] answers with a diagnostic
    there. *)
Lemma line_zero_throws :
  RangeChecked.parseLine Vscode.Range_new JSON_parse Examples3.line_zero constructor
  = ({| complexMessageIndex := 1 |},
     Throw (Error "Illegal argument: line must be non-negative"))
  ∧ ∃ diagnostic,
      parseLine JSON_parse Examples3.line_zero constructor
      = ({| complexMessageIndex := 1 |}, Ok [diagnostic]).
Proof. split; [| eexists]; vm_compute; reflexivity. Qed.

(** Lines that are JSON of another shape than the declared one: a value
    without a [reason] gives no diagnostics, as does a compiler message
    of which only the empty list of spans is there; [null] has no
    members; and a span whose expansion has no [def_site_span] makes its
    message complex. *)
Lemma other_shapes :
  parseLine JSON_parse Examples3.empty_object constructor = (constructor, Ok [])
  ∧ parseLine JSON_parse "[1, 2]" constructor = (constructor, Ok [])
  ∧ parseLine JSON_parse Examples3.no_spans constructor = (constructor, Ok [])
  ∧ parseLine JSON_parse "null" constructor = (constructor, Throw TypeError)
  ∧ complexLine JSON_parse Examples3.in_macro = true.
Proof. repeat split; vm_compute; reflexivity. Qed.

Lemma simple_message_text_witness :
  parseLine JSON_parse Examples2.unused_variable {| complexMessageIndex := 7 |}
  = ({| complexMessageIndex := 7 |},
     Ok [{| filePath := "src/lib.rs";
            diagnostic :=
              {| range := {| startLine := 1; startCharacter := 8;
                             endLine := 1; endCharacter := 9 |};
                 diagnostic_message :=
                   "unused_variables: unused variable: `x`" +:+ JS.LF +:+ "unused"
                   +:+ JS.LF +:+ "  note: #[warn(unused_variables)] on by default"
                   +:+ JS.LF +:+ "    help: see the lint documentation"
                   +:+ JS.LF +:+ "  help: consider using `_x` instead";
                 severity := Warning |} |}]).
Proof.
  rewrite (simple_message_text JSON_parse Examples2.unused_variable
             Examples2.unused_variable_message Examples2.binding
             {| complexMessageIndex := 7 |} unused_variable_decodes eq_refl eq_refl).
  vm_compute. reflexivity.
Defined.

Lemma complex_primary_span_witness :
  parseComplexCompilerMessage Examples.borrowed_twice_message {| complexMessageIndex := 2 |}
  = ({| complexMessageIndex := 2 |},
     Ok [{| filePath := "src/lib.rs";
            diagnostic :=
              {| range := {| startLine := 3; startCharacter := 8;
                             endLine := 3; endCharacter := 9 |};
                 diagnostic_message := "(2) first borrow";
                 severity := Warning |} |};
         {| filePath := "src/lib.rs";
            diagnostic :=
              {| range := {| startLine := 4; startCharacter := 8;
                             endLine := 4; endCharacter := 9 |};
                 diagnostic_message :=
                   "(2) cannot borrow `x` twice" +:+ JS.LF +:+ "second borrow"
                   +:+ JS.LF +:+ "  note: first borrow ends here";
                 severity := Warning |} |}]).
Proof.
  destruct (complex_primary_span {| complexMessageIndex := 2 |}
              Examples.borrowed_twice_message [Examples.first_borrow]
              Examples.second_borrow [Examples.end_of_scope] eq_refl eq_refl)
    as (diagnostics & diagnostics' & Hbefore & Hafter & Hall).
  vm_compute in Hbefore, Hafter.
  injection Hbefore as <-. injection Hafter as <-.
  rewrite Hall. vm_compute. reflexivity.
Defined.

Lemma severity_of_level_witness :
  ∃ this' diagnostics,
    parseLine JSON_parse Examples.borrowed_twice constructor = (this', Ok diagnostics)
    ∧ Forall (λ fileDiagnostic, severity (diagnostic fileDiagnostic) = Warning)
             diagnostics.
Proof.
  destruct (severity_of_level JSON_parse Examples.borrowed_twice
              Examples.borrowed_twice_message constructor borrowed_twice_line)
    as (this' & diagnostics & Hparse & Hall).
  exists this', diagnostics. split; [exact Hparse |].
  eapply Forall_impl; [exact Hall |].
  intros fileDiagnostic (Hwarning & _). by apply Hwarning.
Defined.

(** *** The rendering of children *)

Lemma fold_append {A : Type} (f : A → string) (l : list A) (acc : string) :
  fold_left (λ message x, message +:+ f x) l acc
  = acc +:+ fold_left (λ message x, message +:+ f x) l "".
Proof.
  revert acc. induction l as [| x l IH]; intros acc; simpl.
  - clear. induction acc as [| c acc IH]; [done |].
    change (String c acc = String c (acc +:+ "")). by rewrite <- IH.
  - rewrite IH, (IH ("" +:+ f x)). by rewrite string_append_assoc.
Qed.

(** X8.  [childrenToString] renders the children in their order, each as
    a line feed, two spaces for every level of depth, its level, ": " and
    its message, followed at once by its own children, one level
    deeper; the rendering of a list is that of its parts, one after the
    other. *)
Theorem children_depth_first (level : nat) :
  childrenToString [] level = ""
  ∧ (∀ child_level child_message nested rest,
       childrenToString (mkChildMessage child_level child_message nested :: rest) level
       = JS.LF +:+ JS.repeat "  " level +:+ child_level +:+ ": " +:+ child_message
         +:+ match nested with
             | Some children => childrenToString children (level + 1)
             | None => ""
             end
         +:+ childrenToString rest level)
  ∧ (∀ children children',
       childrenToString (children ++ children') level
       = childrenToString children level +:+ childrenToString children' level).
Proof.
  split; [done |]. split.
  - intros child_level child_message nested rest.
    unfold childrenToString at 1. simpl fold_left. rewrite fold_append.
    fold (childrenToString rest level).
    change ("" +:+ ?s) with s.
    rewrite !string_append_assoc. by destruct nested.
  - intros children children'. unfold childrenToString.
    by rewrite fold_left_app, fold_append.
Qed.

Lemma lineFeeds_app (a b : string) : lineFeeds (a +:+ b) = lineFeeds a + lineFeeds b.
Proof.
  induction a as [| c a IH]; [done |].
  change (lineFeeds (String c (a +:+ b)) = lineFeeds (String c a) + lineFeeds b).
  simpl. rewrite IH. lia.
Qed.

Lemma lineFeeds_indentation (level : nat) : lineFeeds (JS.repeat "  " level) = 0.
Proof.
  induction level as [| level IH]; [done |].
  simpl JS.repeat. by rewrite lineFeeds_app, IH.
Qed.

Lemma lineFeeds_child :
  ∀ child level, plain child → lineFeeds (childToString child level) = nodes child.
Proof.
  fix IH 1. intros [child_level child_message nested] level (Hlevel & Hmessage & Hnested).
  simpl childToString. simpl nodes.
  rewrite !lineFeeds_app, lineFeeds_indentation, Hlevel, Hmessage.
  change (lineFeeds JS.LF) with 1. change (lineFeeds ": ") with 0.
  destruct nested as [children |]; [| simpl; lia].
  assert (∀ acc,
            lineFeeds (fold_left (λ message child, message +:+ childToString child (level + 1))
                                 children acc)
            = lineFeeds acc + list_sum (map nodes children)) as Hchildren.
  { clear Hlevel Hmessage. induction children as [| child children IHchildren];
      intros acc; simpl; [lia |].
    destruct Hnested as [Hchild Hrest].
    rewrite (IHchildren Hrest), lineFeeds_app, (IH child (level + 1) Hchild). lia. }
  rewrite Hchildren. simpl. lia.
Qed.

(** X9.  Nothing is cut and nothing is merged: where no level and no
    message holds a line feed, the rendering has one line for every
    message of the tree. *)
Theorem children_one_line_each (children : list ChildMessage) (level : nat) :
  Forall plain children →
  lineFeeds (childrenToString children level) = list_sum (map nodes children).
Proof.
  intros Hplain. unfold childrenToString.
  assert (∀ acc,
            lineFeeds (fold_left (λ message child, message +:+ childToString child level)
                                 children acc)
            = lineFeeds acc + list_sum (map nodes children)) as Hchildren.
  { induction Hplain as [| child children Hchild _ IH]; intros acc; simpl; [lia |].
    rewrite IH, lineFeeds_app, (lineFeeds_child child level Hchild). lia. }
  by rewrite Hchildren.
Qed.

Lemma children_one_line_each_witness :
  lineFeeds (childrenToString Examples2.unused_variable_children 1) = 3.
Proof.
  apply (children_one_line_each Examples2.unused_variable_children 1).
  repeat constructor.
Defined.

End DiagnosticParserMore.

(** ** [CargoTask], beyond the claims *)

Module CargoTaskMore.

Import CargoTask.

(** X10.  A task whose process exits reports the exit code, unless [kill]
    was called while the process existed: then the promise of [execute]
    is rejected without a reason, whatever the code.  A [kill] before
    [execute] sends nothing and is not remembered: the task then runs and
    reports its code. *)
Theorem exit_code_unless_killed (child : ChildProcess) (cargoPath command : string)
    (args : list string) (cwd : string) (onStart : list effect) (code : option Z) :
  let spawned this := (execute this child cargoPath command args cwd onStart).1 in
  (onExit (spawned constructor) code).2 = Resolved code
  ∧ (kill (spawned constructor)).1.2 = [TreeKill (pid child) "SIGTERM"]
  ∧ (onExit (kill (spawned constructor)).1.1 code).2 = Rejected None
  ∧ (kill constructor).1 = (constructor, [])
  ∧ (onExit (spawned (kill constructor).1.1) code).2 = Resolved code.
Proof. done. Qed.

End CargoTaskMore.

(** ** [CargoTaskManager], beyond the claims *)

Module CargoTaskManagerMore.

Import CargoTaskManager Terms Invariant Terms3.

Section WithDecoder.

Variable JSON_parse : string → result DiagnosticParser.CargoMessage.

Lemma run_app history history' this :
  run JSON_parse (history ++ history') this
  = let '(this', effects) := run JSON_parse history this in
    let '(this'', effects') := run JSON_parse history' this' in
    (this'', effects ++ effects').
Proof.
  revert this. induction history as [| [now e] history IH]; intros this; simpl.
  - by destruct (run JSON_parse history' this).
  - destruct (step JSON_parse now e this) as [this1 effects1]. rewrite IH.
    destruct (run JSON_parse history this1) as [this2 effects2].
    destruct (run JSON_parse history' this2) as [this3 effects3].
    by rewrite app_assoc.
Qed.

Lemma wf_reachable enabled show path history :
  wf (run JSON_parse history (constructor enabled show path)).1.
Proof. apply CargoTaskManagerFacts.wf_run, CargoTaskManagerFacts.wf_constructor. Qed.

(** The configuration is read, never written. *)
Lemma killTask_configuration task this :
  configuration (killTask task this).1.1 = configuration this.
Proof.
  unfold killTask. destruct (tasks this !! task) as [object |]; [| done].
  by destruct (CargoTask.kill object) as [[object' effects] promise].
Qed.

Lemma step_configuration now e this :
  configuration (step JSON_parse now e this).1 = configuration this.
Proof.
  destruct e as [command args force | | args | f cwd | f | task line
                 | task line | f message | f code]; simpl; try done.
  - destruct (currentTask this) as [task |]; [| done].
    pose proof (killTask_configuration task this).
    by destruct (killTask task this) as [[this' effects] promise].
  - destruct (frames this !! f) as [[command args force | | |] |]; try done.
    destruct cwd as [cwd | message]; [| done].
    unfold afterCwd. destruct (currentTask this) as [task |]; [| done].
    destruct force; [| done].
    pose proof (killTask_configuration task this).
    by destruct (killTask task this) as [[this' effects] promise].
  - by destruct (frames this !! f) as [[| task [] command args force | |] |].
  - destruct (callbacks this !! task); [| done]. unfold onStdoutLine.
    destruct (JS.startsWith line "{"); [| done].
    by destruct (DiagnosticParser.parseLine _ _ _) as [parser [fileDiagnostics | e]].
  - by destruct (callbacks this !! task).
  - destruct (frames this !! f) as [[| | task command args cwd startTime | task args] |];
      try done.
    by destruct (negb _).
  - destruct (frames this !! f) as [[| | task command args cwd startTime | task args] |];
      try done; destruct (CargoTask.onExit _ code) as [object settled].
    + by rewrite CargoTaskManagerFacts.afterExecute_state.
    + destruct settled as [exitCode | error]; [| done].
      unfold afterAvailability. by destruct (bool_decide _).
Qed.

Lemma run_configuration history this :
  configuration (run JSON_parse history this).1 = configuration this.
Proof.
  revert this. induction history as [| [now e] history IH]; intros this; [done |].
  simpl. pose proof (step_configuration now e this) as Hstep.
  destruct (step JSON_parse now e this) as [this1 effects1]. simpl in *.
  specialize (IH this1). destruct (run JSON_parse history this1). simpl in *.
  congruence.
Qed.

(** X11.  When the process of the running task exits, the manager is idle
    again and nothing is running.  If [kill] had been called on the task,
    the status bar is hidden and nothing else is reported; otherwise the
    channel gets the line with the exit code and the line with the
    duration. *)
Theorem exit_report enabled show path history :
  let this := (run JSON_parse history (constructor enabled show path)).1 in
  ∀ now f task command args cwd startTime code,
    frames this !! f = Some (AwaitExecute task command args cwd startTime) →
    ∃ interrupted this',
      tasks this !! task
      = Some {| CargoTask.process := Some {| CargoTask.pid := task |};
                CargoTask.interrupted := interrupted |}
      ∧ step JSON_parse now (ProcessExit f code) this
        = (this',
           if interrupted then [StatusBarHide]
           else [StatusBarHide;
                 ChannelAppend ("Completed with code " +:+ exitCode_toString (Some code)
                                +:+ JS.LF);
                 ChannelAppend ("It took approximately "
                                +:+ JS.seconds_toString (now - startTime)
                                +:+ " seconds" +:+ JS.LF)])
      ∧ currentTask this' = None
      ∧ (∀ task', ¬ running this' task').
Proof.
  intros this now f task command args cwd startTime code Hf.
  pose proof (wf_reachable enabled show path history) as Hwf. fold this in Hwf.
  pose proof (wf_executing _ Hwf _ _ _ _ _ _ Hf) as Hcurrent.
  destruct (wf_current _ Hwf _ Hcurrent) as [_ [interrupted Htask]].
  exists interrupted. eexists. split; [exact Htask |].
  simpl. rewrite Hf, Htask. simpl.
  split; [destruct interrupted; reflexivity |].
  split; [by destruct interrupted |].
  intros task' (f' & ? & ? & ? & ? & Hf').
  assert (frames (set_frames (delete f (frames this)) this) !! f'
          = Some (AwaitExecute task' x x0 x1 x2)) as Hf''
    by (destruct interrupted; exact Hf').
  simpl in Hf''. apply lookup_delete_Some in Hf'' as [Hne Hf''].
  destruct Hne. by eapply (wf_single _ Hwf).
Qed.

(** X12.  When ['error'] arrives for the running task with a message other
    than ENOENT, the status bar is hidden and nothing is shown or written;
    the manager is idle again. *)
Theorem other_error_is_silent enabled show path history :
  let this := (run JSON_parse history (constructor enabled show path)).1 in
  ∀ now f task command args cwd startTime message,
    frames this !! f = Some (AwaitExecute task command args cwd startTime) →
    message ≠ "ENOENT" →
    ∃ this',
      step JSON_parse now (ProcessError f message) this = (this', [StatusBarHide])
      ∧ currentTask this' = None
      ∧ (∀ task', ¬ running this' task').
Proof.
  intros this now f task command args cwd startTime message Hf Hmessage.
  pose proof (wf_reachable enabled show path history) as Hwf. fold this in Hwf.
  simpl. rewrite Hf. simpl.
  apply String.eqb_neq in Hmessage as ->. simpl.
  eexists. split; [reflexivity |]. split; [done |].
  intros task' (f' & ? & ? & ? & ? & Hf'). simpl in Hf'.
  apply lookup_delete_Some in Hf' as [Hne Hf'].
  destruct Hne. by eapply (wf_single _ Hwf).
Qed.

(** X13.  After the running task has ended, by ['exit'] with any code, the
    manager takes the next request: a call of [runCargo], once its
    [cwd()] is resolved, clears the diagnostics and spawns its command
    with the arguments for JSON diagnostics where the command takes
    them. *)
Theorem usable_after_exit enabled show path history :
  let this := (run JSON_parse history (constructor enabled show path)).1 in
  ∀ now now' now'' f task command args cwd startTime code command' args' force' cwd',
    frames this !! f = Some (AwaitExecute task command args cwd startTime) →
    ∃ reported,
      (run JSON_parse
         [(now, ProcessExit f code);
          (now', CallRunCargo command' args' force');
          (now'', CwdSettled (fresh this) (inl cwd'))] this).2
      = reported
        ++ [ClearDiagnostics] ++ (if show then [ChannelShow] else [])
        ++ [StatusBarShow; ChannelClear;
            ChannelAppend ("Started cargo " +:+ command' +:+ " "
                           +:+ JS.join " " (messageFormat command' args') +:+ JS.LF);
            Spawn (S (fresh this)) path (command' :: messageFormat command' args') cwd']
      ∧ ¬ spawns reported.
Proof.
  intros this now now' now'' f task command args cwd startTime code
    command' args' force' cwd' Hf.
  pose proof (wf_reachable enabled show path history) as Hwf. fold this in Hwf.
  pose proof (run_configuration history (constructor enabled show path)) as Hconfiguration.
  fold this in Hconfiguration. injection Hconfiguration as Hshow Hpath _.
  pose proof (wf_executing _ Hwf _ _ _ _ _ _ Hf) as Hcurrent.
  destruct (wf_current _ Hwf _ Hcurrent) as [_ [interrupted Htask]].
  simpl. rewrite Hf, Htask. simpl.
  destruct interrupted; simpl; rewrite lookup_insert_eq; simpl;
    rewrite Hshow, Hpath.
  - exists [StatusBarHide]. split; [by rewrite app_nil_r |].
    apply CargoTaskManagerFacts.not_spawns_cons; [done |].
    apply CargoTaskManagerFacts.not_spawns_nil.
  - eexists (StatusBarHide :: completed (Some code) startTime now).
    split; [by rewrite app_nil_r |].
    apply CargoTaskManagerFacts.not_spawns_cons; [done |].
    apply CargoTaskManagerFacts.not_spawns_completed.
Qed.

Lemma fresh_unused this : wf this → frames this !! fresh this = None.
Proof.
  intros Hwf. destruct (frames this !! fresh this) as [fr |] eqn:Hfresh; [| done].
  apply (wf_frames _ Hwf) in Hfresh. lia.
Qed.

Ltac fields :=
  cbn [suspend set_frames set_fresh set_tasks set_currentTask set_callbacks
       set_diagnosticParser frames fresh tasks currentTask callbacks].

Ltac lookups :=
  repeat first
    [ rewrite lookup_insert_eq
    | rewrite lookup_insert_ne by lia
    | rewrite lookup_delete_ne by lia ].

(** *** Single steps, by what they find *)

Lemma run_step now e later this this1 effects1 this2 effects2 :
  step JSON_parse now e this = (this1, effects1) →
  run JSON_parse later this1 = (this2, effects2) →
  run JSON_parse ((now, e) :: later) this = (this2, effects1 ++ effects2).
Proof. intros Hstep Hlater. simpl. by rewrite Hstep, Hlater. Qed.

Lemma step_forced now k command args cwd task interrupted this :
  frames this !! k = Some (AwaitCwd command args true) →
  currentTask this = Some task →
  tasks this !! task
  = Some {| CargoTask.process := Some {| CargoTask.pid := task |};
            CargoTask.interrupted := interrupted |} →
  step JSON_parse now (CwdSettled k (inl cwd)) this
  = (set_frames
       (<[k := AwaitKill task
                 (if interrupted then CargoTask.NeverSettled
                  else CargoTask.ResolvedByTreeKill) command args true]> (frames this))
       (set_tasks
          (<[task := {| CargoTask.process := Some {| CargoTask.pid := task |};
                        CargoTask.interrupted := true |}]> (tasks this)) this),
     if interrupted then [] else [TreeKill task "SIGTERM"]).
Proof.
  intros Hk Hcurrent Htask. simpl. rewrite Hk. unfold afterCwd. rewrite Hcurrent.
  by rewrite (CargoTaskManagerFacts.killTask_current _ _ _ Htask).
Qed.

Lemma step_callback now k task command args force this :
  frames this !! k = Some (AwaitKill task CargoTask.ResolvedByTreeKill command args force) →
  step JSON_parse now (TreeKillCallback k) this
  = (suspend (AwaitCwd command args force) (set_frames (delete k (frames this)) this), []).
Proof. intros Hk. simpl. by rewrite Hk. Qed.

Lemma step_exit now f task command args cwd startTime code interrupted this :
  frames this !! f = Some (AwaitExecute task command args cwd startTime) →
  tasks this !! task
  = Some {| CargoTask.process := Some {| CargoTask.pid := task |};
            CargoTask.interrupted := interrupted |} →
  step JSON_parse now (ProcessExit f code) this
  = (set_currentTask None
       (set_frames (delete f (frames this))
          (set_tasks
             (<[task := {| CargoTask.process := None;
                           CargoTask.interrupted := interrupted |}]> (tasks this)) this)),
     if interrupted then [StatusBarHide]
     else [StatusBarHide] ++ completed (Some code) startTime now).
Proof. intros Hf Htask. simpl. rewrite Hf, Htask. by destruct interrupted. Qed.

Lemma step_start now k command args force cwd this :
  frames this !! k = Some (AwaitCwd command args force) →
  currentTask this = None →
  step JSON_parse now (CwdSettled k (inl cwd)) this
  = (set_frames
       (<[k := AwaitExecute (fresh this) command (messageFormat command args) cwd now]>
          (frames this))
       (set_callbacks (<[fresh this := cwd]> (callbacks this))
          (set_tasks
             (<[fresh this :=
                  {| CargoTask.process := Some {| CargoTask.pid := fresh this |};
                     CargoTask.interrupted := false |}]> (tasks this))
             (set_currentTask (Some (fresh this)) (set_fresh (S (fresh this)) this)))),
     [ClearDiagnostics] ++ (if showOutput this then [ChannelShow] else [])
     ++ [StatusBarShow; ChannelClear;
         ChannelAppend ("Started cargo " +:+ command +:+ " "
                        +:+ JS.join " " (messageFormat command args) +:+ JS.LF);
         Spawn (fresh this) (cargoPath this) (command :: messageFormat command args) cwd]).
Proof. intros Hk Hidle. simpl. rewrite Hk. unfold afterCwd. by rewrite Hidle. Qed.

(** X14.  A request whose [cwd()] is rejected shows the message of the
    error and changes nothing else: the current task, the tasks and the
    suspended calls are as before, also where the request was forced and
    a task is running, which is then not killed. *)
Theorem failed_cwd_changes_nothing enabled show path history :
  let this := (run JSON_parse history (constructor enabled show path)).1 in
  ∀ now now' command args force message,
    let '(this', effects) :=
      run JSON_parse [(now, CallRunCargo command args force);
                      (now', CwdSettled (fresh this) (inr message))] this in
    effects = [ShowErrorMessage message]
    ∧ currentTask this' = currentTask this
    ∧ tasks this' = tasks this
    ∧ frames this' = frames this
    ∧ diagnosticParser this' = diagnosticParser this.
Proof.
  intros this now now' command args force message.
  pose proof (wf_reachable enabled show path history) as Hwf. fold this in Hwf.
  simpl. rewrite lookup_insert_eq. simpl.
  repeat split. by rewrite delete_insert_id by by apply fresh_unused.
Qed.

(** X15.  A forced request made while a task runs that was not killed
    before replaces it, provided ['exit'] of the old process arrives
    before [cwd()] of the re-issued call is resolved: SIGTERM is sent, the
    old task ends without a report, and the new command is spawned. *)
Theorem forced_restart enabled show path history :
  let this := (run JSON_parse history (constructor enabled show path)).1 in
  ∀ t1 t2 t3 t4 t5 f task command args cwd startTime code command' args' cwd1 cwd2,
    frames this !! f = Some (AwaitExecute task command args cwd startTime) →
    tasks this !! task
    = Some {| CargoTask.process := Some {| CargoTask.pid := task |};
              CargoTask.interrupted := false |} →
    (run JSON_parse
       [(t1, CallRunCargo command' args' true);
        (t2, CwdSettled (fresh this) (inl cwd1));
        (t3, TreeKillCallback (fresh this));
        (t4, ProcessExit f code);
        (t5, CwdSettled (S (fresh this)) (inl cwd2))] this).2
    = [TreeKill task "SIGTERM"; StatusBarHide; ClearDiagnostics]
      ++ (if show then [ChannelShow] else [])
      ++ [StatusBarShow; ChannelClear;
          ChannelAppend ("Started cargo " +:+ command' +:+ " "
                         +:+ JS.join " " (messageFormat command' args') +:+ JS.LF);
          Spawn (S (S (fresh this))) path (command' :: messageFormat command' args') cwd2].
Proof.
  intros this t1 t2 t3 t4 t5 f task command args cwd startTime code
    command' args' cwd1 cwd2 Hf Htask.
  pose proof (wf_reachable enabled show path history) as Hwf. fold this in Hwf.
  pose proof (run_configuration history (constructor enabled show path)) as Hconfiguration.
  fold this in Hconfiguration. injection Hconfiguration as Hshow Hpath _.
  pose proof (wf_executing _ Hwf _ _ _ _ _ _ Hf) as Hcurrent.
  pose proof (wf_frames _ Hwf _ _ Hf) as Hlt.
  clearbody this. clear Hwf.
  erewrite run_step; [| reflexivity |].
  2: { eapply run_step.
       { apply (step_forced _ _ command' args' _ task false);
           [apply lookup_insert_eq | exact Hcurrent | exact Htask]. }
       eapply run_step.
       { eapply step_callback. apply lookup_insert_eq. }
       eapply run_step.
       { apply (step_exit _ f task command args cwd startTime code true).
         - fields. by lookups.
         - apply lookup_insert_eq. }
       eapply run_step; [| reflexivity].
       eapply step_start.
       - fields. by lookups.
       - reflexivity. }
  cbn [snd suspend set_frames set_fresh set_tasks set_currentTask fresh showOutput
       cargoPath app].
  by rewrite Hshow, Hpath, app_nil_r.
Qed.

(** X16.  The same request is lost, for good, when [cwd()] of the
    re-issued call is resolved before ['exit'] of the old process
    arrives: the call then awaits a [kill] that sends nothing, and
    whatever happens afterwards it stays suspended there and does not
    start its command. *)
Theorem forced_restart_lost enabled show path history :
  let this := (run JSON_parse history (constructor enabled show path)).1 in
  ∀ t1 t2 t3 t4 f task command args cwd startTime command' args' cwd1 cwd2,
    frames this !! f = Some (AwaitExecute task command args cwd startTime) →
    tasks this !! task
    = Some {| CargoTask.process := Some {| CargoTask.pid := task |};
              CargoTask.interrupted := false |} →
    let '(this', effects) :=
      run JSON_parse
        [(t1, CallRunCargo command' args' true);
         (t2, CwdSettled (fresh this) (inl cwd1));
         (t3, TreeKillCallback (fresh this));
         (t4, CwdSettled (S (fresh this)) (inl cwd2))] this in
    effects = [TreeKill task "SIGTERM"]
    ∧ ∀ later,
        frames (run JSON_parse later this').1 !! S (fresh this)
        = Some (AwaitKill task CargoTask.NeverSettled command' args' true).
Proof.
  intros this t1 t2 t3 t4 f task command args cwd startTime command' args' cwd1 cwd2
    Hf Htask.
  pose proof (wf_reachable enabled show path history) as Hwf. fold this in Hwf.
  pose proof (wf_executing _ Hwf _ _ _ _ _ _ Hf) as Hcurrent.
  pose proof (CargoTaskManagerFacts.wf_run JSON_parse
                [(t1, CallRunCargo command' args' true);
                 (t2, CwdSettled (fresh this) (inl cwd1));
                 (t3, TreeKillCallback (fresh this));
                 (t4, CwdSettled (S (fresh this)) (inl cwd2))] this Hwf) as Hwf'.
  clearbody this. clear Hwf.
  assert (∃ this' effects,
            run JSON_parse
              [(t1, CallRunCargo command' args' true);
               (t2, CwdSettled (fresh this) (inl cwd1));
               (t3, TreeKillCallback (fresh this));
               (t4, CwdSettled (S (fresh this)) (inl cwd2))] this = (this', effects)
            ∧ effects = [TreeKill task "SIGTERM"]
            ∧ frames this' !! S (fresh this)
              = Some (AwaitKill task CargoTask.NeverSettled command' args' true))
    as (this' & effects & Hrun & -> & Hframe).
  { eexists _, _. split; [| split].
    - eapply run_step; [reflexivity |].
      eapply run_step.
      { apply (step_forced _ _ command' args' _ task false);
          [apply lookup_insert_eq | exact Hcurrent | exact Htask]. }
      eapply run_step.
      { eapply step_callback. apply lookup_insert_eq. }
      eapply run_step; [| reflexivity].
      apply (step_forced _ _ command' args' _ task true).
      + apply lookup_insert_eq.
      + exact Hcurrent.
      + apply lookup_insert_eq.
    - reflexivity.
    - apply lookup_insert_eq. }
  rewrite Hrun in Hwf' |- *. split; [done |]. intros later.
  by apply CargoTaskManagerFacts.never_settled_forever.
Qed.

(** X17.  When the probe of [invokeCargoCheckWithArgs] cannot be spawned,
    whatever the message of the error, nothing is shown and nothing is
    run: no call of [runCargo] is made, and the suspended calls are as
    before. *)
Theorem failed_probe_is_silent enabled show path history :
  let this := (run JSON_parse history (constructor enabled show path)).1 in
  ∀ now now' args message,
    let '(this', effects) :=
      run JSON_parse [(now, CallInvokeCargoCheckWithArgs args);
                      (now', ProcessError (S (fresh this)) message)] this in
    effects = [Spawn (fresh this) path ["check"; "--help"] "/"]
    ∧ frames this' = frames this
    ∧ currentTask this' = currentTask this.
Proof.
  intros this now now' args message.
  pose proof (wf_reachable enabled show path history) as Hwf. fold this in Hwf.
  pose proof (run_configuration history (constructor enabled show path)) as Hconfiguration.
  fold this in Hconfiguration. injection Hconfiguration as Hshow Hpath _.
  simpl. unfold suspend. simpl. lookups. simpl. rewrite Hpath.
  repeat split. apply delete_insert_id.
  destruct (frames this !! S (fresh this)) as [fr |] eqn:Hfresh; [| done].
  apply (wf_frames _ Hwf) in Hfresh. lia.
Qed.

(** X18.  [stopTask] on a running task that was not killed before sends
    SIGTERM to its process; when the process then exits, with whatever
    code, the status bar is hidden, nothing is written to the channel and
    nothing is shown, and the manager is idle.  A second [stopTask] in
    between sends nothing. *)
Theorem stop_task enabled show path history :
  let this := (run JSON_parse history (constructor enabled show path)).1 in
  ∀ t1 t2 t3 f task command args cwd startTime code,
    frames this !! f = Some (AwaitExecute task command args cwd startTime) →
    tasks this !! task
    = Some {| CargoTask.process := Some {| CargoTask.pid := task |};
              CargoTask.interrupted := false |} →
    let '(this', effects) :=
      run JSON_parse [(t1, CallStopTask); (t2, CallStopTask); (t3, ProcessExit f code)]
          this in
    effects = [TreeKill task "SIGTERM"; StatusBarHide]
    ∧ currentTask this' = None.
Proof.
  intros this t1 t2 t3 f task command args cwd startTime code Hf Htask.
  pose proof (wf_reachable enabled show path history) as Hwf. fold this in Hwf.
  pose proof (wf_executing _ Hwf _ _ _ _ _ _ Hf) as Hcurrent.
  simpl. rewrite Hcurrent. unfold killTask. rewrite Htask. simpl.
  rewrite Hcurrent. lookups. simpl. rewrite Hf. lookups. simpl. done.
Qed.

End WithDecoder.

Lemma building_frame :
  frames (run DiagnosticParser.JSON_parse Examples2.building
            (constructor true false "cargo")).1 !! 0
  = Some (AwaitExecute 1 "build" ["--message-format"; "json"] "/project" 10).
Proof. by vm_compute. Qed.

Lemma building_task :
  tasks (run DiagnosticParser.JSON_parse Examples2.building
           (constructor true false "cargo")).1 !! 1
  = Some {| CargoTask.process := Some {| CargoTask.pid := 1 |};
            CargoTask.interrupted := false |}.
Proof. by vm_compute. Qed.

Lemma exit_report_witness :
  let this :=
    (run DiagnosticParser.JSON_parse Examples2.building (constructor true false "cargo")).1 in
  (step DiagnosticParser.JSON_parse 500 (ProcessExit 0 (Some 0%Z)) this).2
  = [StatusBarHide;
     ChannelAppend ("Completed with code 0" +:+ JS.LF);
     ChannelAppend ("It took approximately 0.49 seconds" +:+ JS.LF)].
Proof.
  intros this.
  destruct (exit_report DiagnosticParser.JSON_parse true false "cargo" Examples2.building
              500%Z 0 1 "build" ["--message-format"; "json"] "/project" 10%Z (Some 0%Z)
              building_frame)
    as (interrupted & this' & Htask & Hstep & _).
  fold this in Hstep. rewrite Hstep.
  rewrite building_task in Htask. injection Htask as <-.
  vm_compute. reflexivity.
Defined.

Lemma other_error_is_silent_witness :
  let this :=
    (run DiagnosticParser.JSON_parse Examples2.building (constructor true false "cargo")).1 in
  (step DiagnosticParser.JSON_parse 500 (ProcessError 0 "spawn cargo ENOENT") this).2
  = [StatusBarHide].
Proof.
  intros this.
  destruct (other_error_is_silent DiagnosticParser.JSON_parse true false "cargo"
              Examples2.building 500%Z 0 1 "build" ["--message-format"; "json"]
              "/project" 10%Z "spawn cargo ENOENT" building_frame)
    as (this' & Hstep & _); [discriminate |].
  fold this in Hstep. by rewrite Hstep.
Defined.

Lemma usable_after_exit_witness :
  ∃ reported,
    (run DiagnosticParser.JSON_parse
       [(500%Z, ProcessExit 0 (Some 101%Z));
        (600%Z, CallRunCargo "doc" ["--open"] true);
        (610%Z, CwdSettled 2 (inl "/project"))]
       (run DiagnosticParser.JSON_parse Examples2.building
          (constructor true false "cargo")).1).2
    = reported
      ++ [ClearDiagnostics; StatusBarShow; ChannelClear;
          ChannelAppend ("Started cargo doc --open" +:+ JS.LF);
          Spawn 3 "cargo" ["doc"; "--open"] "/project"]
    ∧ ¬ spawns reported.
Proof.
  exact (usable_after_exit DiagnosticParser.JSON_parse true false "cargo"
           Examples2.building 500%Z 600%Z 610%Z 0 1 "build"
           ["--message-format"; "json"] "/project" 10%Z (Some 101%Z)
           "doc" ["--open"] true "/project" building_frame).
Defined.

Lemma forced_restart_witness :
  (run DiagnosticParser.JSON_parse
     [(20%Z, CallRunCargo "test" [] true);
      (30%Z, CwdSettled 2 (inl "/project"));
      (40%Z, TreeKillCallback 2);
      (50%Z, ProcessExit 0 None);
      (60%Z, CwdSettled 3 (inl "/project"))]
     (run DiagnosticParser.JSON_parse Examples2.building
        (constructor true false "cargo")).1).2
  = [TreeKill 1 "SIGTERM"; StatusBarHide; ClearDiagnostics; StatusBarShow; ChannelClear;
     ChannelAppend ("Started cargo test --message-format json" +:+ JS.LF);
     Spawn 4 "cargo" ["test"; "--message-format"; "json"] "/project"].
Proof.
  exact (forced_restart DiagnosticParser.JSON_parse true false "cargo" Examples2.building
           20%Z 30%Z 40%Z 50%Z 60%Z 0 1 "build" ["--message-format"; "json"] "/project"
           10%Z None "test" [] "/project" "/project" building_frame building_task).
Defined.

Lemma forced_restart_lost_witness :
  frames
    (run DiagnosticParser.JSON_parse
       [(50%Z, ProcessExit 0 None); (60%Z, TreeKillCallback 3)]
       (run DiagnosticParser.JSON_parse
          [(20%Z, CallRunCargo "test" [] true);
           (30%Z, CwdSettled 2 (inl "/project"));
           (40%Z, TreeKillCallback 2);
           (45%Z, CwdSettled 3 (inl "/project"))]
          (run DiagnosticParser.JSON_parse Examples2.building
             (constructor true false "cargo")).1).1).1 !! 3
  = Some (AwaitKill 1 CargoTask.NeverSettled "test" [] true).
Proof.
  pose proof (forced_restart_lost DiagnosticParser.JSON_parse true false "cargo"
                Examples2.building 20%Z 30%Z 40%Z 45%Z 0 1 "build"
                ["--message-format"; "json"] "/project" 10%Z "test" []
                "/project" "/project" building_frame building_task) as Hlost.
  cbv zeta in Hlost.
  change (fresh (run DiagnosticParser.JSON_parse Examples2.building
                   (constructor true false "cargo")).1) with 2 in Hlost.
  destruct (run DiagnosticParser.JSON_parse _
              (run DiagnosticParser.JSON_parse Examples2.building
                 (constructor true false "cargo")).1) as [this' effects].
  exact (proj2 Hlost _).
Defined.

Lemma stop_task_witness :
  (run DiagnosticParser.JSON_parse
     [(20%Z, CallStopTask); (21%Z, CallStopTask); (50%Z, ProcessExit 0 None)]
     (run DiagnosticParser.JSON_parse Examples2.building
        (constructor true false "cargo")).1).2
  = [TreeKill 1 "SIGTERM"; StatusBarHide].
Proof.
  pose proof (stop_task DiagnosticParser.JSON_parse true false "cargo" Examples2.building
                20%Z 21%Z 50%Z 0 1 "build" ["--message-format"; "json"] "/project"
                10%Z None building_frame building_task) as Hstop.
  cbv zeta in Hstop.
  destruct (run DiagnosticParser.JSON_parse _ _) as [this' effects].
  exact (proj1 Hstop).
Defined.

End CargoTaskManagerMore.

(** ** [OutputChannelCargoTask.execute], beyond the claims *)

Module OutputChannelCargoTaskMore.

Import OutputChannelCargoTask Terms Terms2 Terms3.

Section WithDecoder.

Variable JSON_parse : string → result DiagnosticParser.CargoMessage.

Lemma onStdoutLine_channel cwd line this :
  List.filter writesChannel (onStdoutLine JSON_parse cwd line this).2
  = if JS.startsWith line "{" then [] else [ChannelAppend (line +:+ JS.LF)].
Proof.
  unfold onStdoutLine. destruct (JS.startsWith line "{"); [| done].
  destruct (DiagnosticParser.parseLine _ _ _) as [parser [fileDiagnostics | e]];
    simpl; [| done].
  by induction fileDiagnostics.
Qed.

Lemma onStdoutLine_parser cwd line this :
  diagnosticParser (onStdoutLine JSON_parse cwd line this).1
  = if JS.startsWith line "{"
    then (DiagnosticParser.parseLine JSON_parse line (diagnosticParser this)).1
    else diagnosticParser this.
Proof.
  unfold onStdoutLine. destruct (JS.startsWith line "{"); [| done].
  by destruct (DiagnosticParser.parseLine _ _ _) as [parser [fileDiagnostics | e]].
Qed.

Lemma filter_writesChannel_app (l l' : list effect) :
  List.filter writesChannel (l ++ l')
  = List.filter writesChannel l ++ List.filter writesChannel l'.
Proof. induction l as [| e l IH]; simpl; [done |]. destruct (writesChannel e); by rewrite IH. Qed.

Lemma listen_channel cwd events runningTask this :
  List.filter writesChannel (listen JSON_parse cwd events runningTask this).1.2
  = map (λ line, ChannelAppend (line +:+ JS.LF)) (textLines events).
Proof.
  revert runningTask this.
  induction events as [| [line | line | | message | code] events IH];
    intros runningTask this; simpl; try done.
  - pose proof (onStdoutLine_channel cwd line this) as Hline.
    destruct (onStdoutLine JSON_parse cwd line this) as [this1 effects1].
    specialize (IH runningTask this1).
    destruct (listen JSON_parse cwd events runningTask this1) as [[this2 effects2] settled].
    simpl in *. rewrite filter_writesChannel_app, Hline, IH.
    by destruct (JS.startsWith line "{").
  - specialize (IH runningTask this).
    destruct (listen JSON_parse cwd events runningTask this) as [[this2 effects2] settled].
    simpl in *. by rewrite IH.
  - destruct (CargoTask.kill runningTask) as [[runningTask1 effects1] promise] eqn:Hkill.
    specialize (IH runningTask1 this).
    destruct (listen JSON_parse cwd events runningTask1 this) as [[this2 effects2] settled].
    simpl in *. rewrite filter_writesChannel_app, IH.
    unfold CargoTask.kill in Hkill.
    by destruct (CargoTask.interrupted runningTask), (CargoTask.process runningTask);
      injection Hkill as <- <- <-.
  - by destruct (CargoTask.onExit runningTask code).
Qed.

Lemma listen_parser cwd events runningTask this :
  diagnosticParser (listen JSON_parse cwd events runningTask this).1.1
  = parseLines JSON_parse (jsonLines events) (diagnosticParser this).
Proof.
  revert runningTask this.
  induction events as [| [line | line | | message | code] events IH];
    intros runningTask this; simpl; try done.
  - pose proof (onStdoutLine_parser cwd line this) as Hline.
    destruct (onStdoutLine JSON_parse cwd line this) as [this1 effects1].
    specialize (IH runningTask this1).
    destruct (listen JSON_parse cwd events runningTask this1) as [[this2 effects2] settled].
    simpl in *. rewrite IH, Hline. by destruct (JS.startsWith line "{").
  - specialize (IH runningTask this).
    by destruct (listen JSON_parse cwd events runningTask this) as [[this2 effects2] settled].
  - destruct (CargoTask.kill runningTask) as [[runningTask1 effects1] promise].
    specialize (IH runningTask1 this).
    by destruct (listen JSON_parse cwd events runningTask1 this)
      as [[this2 effects2] settled].
  - by destruct (CargoTask.onExit runningTask code).
Qed.

Lemma listen_lines cwd lines code runningTask this :
  forallb isLine lines = true →
  (listen JSON_parse cwd (lines ++ [OnExit code]) runningTask this).2
  = Some (CargoTask.onExit runningTask code).2.
Proof.
  revert this. induction lines as [| [line | line | | message | code'] lines IH];
    intros this Hlines; simpl in *; try done.
  - by destruct (CargoTask.onExit runningTask code).
  - destruct (onStdoutLine JSON_parse cwd line this) as [this1 effects1].
    specialize (IH this1 Hlines).
    by destruct (listen JSON_parse cwd (lines ++ [OnExit code]) runningTask this1)
      as [[this2 effects2] settled].
  - specialize (IH this Hlines).
    by destruct (listen JSON_parse cwd (lines ++ [OnExit code]) runningTask this)
      as [[this2 effects2] settled].
Qed.

(** X19.  Of a task that prints lines and exits, the channel holds the
    "Started" line, then every line of stderr and every line of stdout
    that does not start with [{], each followed by a line feed, in the
    order in which they arrived, then the line with the exit code and the
    line with the duration; a line of JSON never gets there. *)
Theorem channel_in_order command args cwd child startTime endTime lines code this :
  forallb isLine lines = true →
  List.filter writesChannel
    (execute JSON_parse command args cwd child startTime endTime
             (lines ++ [OnExit code]) this).2
  = [ChannelAppend ("Started cargo " +:+ command +:+ " "
                    +:+ JS.join " " (messageFormat command args) +:+ JS.LF)]
    ++ map (λ line, ChannelAppend (line +:+ JS.LF)) (textLines lines)
    ++ [ChannelAppend ("Completed with code " +:+ exitCode_toString (Some code) +:+ JS.LF);
        ChannelAppend ("It took approximately "
                       +:+ JS.seconds_toString (endTime - startTime)
                       +:+ " seconds" +:+ JS.LF)].
Proof.
  intros Hlines. unfold execute. simpl.
  pose proof (listen_channel cwd (lines ++ [OnExit code])
                {| CargoTask.process := Some child; CargoTask.interrupted := false |} this)
    as Hchannel.
  pose proof (listen_lines cwd lines code
                {| CargoTask.process := Some child; CargoTask.interrupted := false |}
                this Hlines) as Hsettled.
  destruct (listen JSON_parse cwd (lines ++ [OnExit code]) _ this)
    as [[this' effects] settled].
  simpl in *. subst settled. simpl.
  assert (textLines (lines ++ [OnExit code]) = textLines lines) as Htext.
  { clear -Hlines. induction lines as [| [line | line | | |] lines IH]; simpl in *;
      try done; rewrite IH by done; done. }
  rewrite Htext in Hchannel.
  destruct (shouldShowRunningCargoTaskOutputChannel this); simpl;
    rewrite filter_writesChannel_app, Hchannel; done.
Qed.

(** X20.  [execute] does not make a new parser: after a call the parser is
    the one from before the call, given the lines of stdout that start
    with [{], in their order, up to the end of the task.  So the counter
    of complex messages goes on from one invocation to the next. *)
Theorem parser_outlives_invocation command args cwd child startTime endTime events this :
  diagnosticParser
    (execute JSON_parse command args cwd child startTime endTime events this).1
  = parseLines JSON_parse (jsonLines events) (diagnosticParser this)
  ∧ DiagnosticParser.complexMessageIndex
      (diagnosticParser
         (execute JSON_parse command args cwd child startTime endTime events this).1)
    = (DiagnosticParser.complexMessageIndex (diagnosticParser this)
       + N.of_nat (length (List.filter (complexLine JSON_parse) (jsonLines events))))%N.
Proof.
  assert (diagnosticParser
            (execute JSON_parse command args cwd child startTime endTime events this).1
          = parseLines JSON_parse (jsonLines events) (diagnosticParser this)) as Hparser.
  { unfold execute. simpl.
    pose proof (listen_parser cwd events
                  {| CargoTask.process := Some child; CargoTask.interrupted := false |}
                  this) as Hparser.
    destruct (listen JSON_parse cwd events _ this) as [[this' effects] settled].
    by destruct settled. }
  split; [done |].
  rewrite Hparser. apply DiagnosticParserMore.parseLines_counter.
Qed.

End WithDecoder.

Lemma channel_in_order_witness :
  List.filter writesChannel
    (execute DiagnosticParser.JSON_parse "build" [] "/project" {| CargoTask.pid := 7 |}
       1000 3500
       [OnStderrLine "   Compiling demo v0.1.0";
        OnStdoutLine Examples.mismatched_types;
        OnStdoutLine "hello";
        OnStderrLine "error: aborting";
        OnExit (Some 101%Z)]
       (constructor false "cargo")).2
  = [ChannelAppend ("Started cargo build --message-format json" +:+ JS.LF);
     ChannelAppend ("   Compiling demo v0.1.0" +:+ JS.LF);
     ChannelAppend ("hello" +:+ JS.LF);
     ChannelAppend ("error: aborting" +:+ JS.LF);
     ChannelAppend ("Completed with code 101" +:+ JS.LF);
     ChannelAppend ("It took approximately 2.5 seconds" +:+ JS.LF)].
Proof.
  exact (channel_in_order DiagnosticParser.JSON_parse "build" [] "/project"
             {| CargoTask.pid := 7 |} 1000 3500
             [OnStderrLine "   Compiling demo v0.1.0";
              OnStdoutLine Examples.mismatched_types;
              OnStdoutLine "hello";
              OnStderrLine "error: aborting"]
             (Some 101%Z) (constructor false "cargo") eq_refl).
Defined.

End OutputChannelCargoTaskMore.

(** ** [invokeCargoNew] *)

Module InvokeCargoNewMore.

Import CargoTaskManager Terms Invariant Terms3.

Section WithDecoder.

Variable JSON_parse : string → result DiagnosticParser.CargoMessage.

(** X21.  [invokeCargoNew] does not look at the current task.  Called
    while a task of [runCargo] runs, it spawns [cargo new] beside it,
    without the arguments for JSON diagnostics, and makes its own task
    the current one: the older process keeps running, and [stopTask]
    now sends SIGTERM to the process of [cargo new], not to it. *)
Theorem cargo_new_takes_over enabled show path history :
  let this := (run JSON_parse history (constructor enabled show path)).1 in
  ∀ now projectName isBin cwd' f task command args cwd startTime,
    frames this !! f = Some (AwaitExecute task command args cwd startTime) →
    let '(this', effects) := InvokeCargoNew.invokeCargoNew projectName isBin cwd' this in
    effects
    = [ChannelClear] ++ (if show then [ChannelShow] else [])
      ++ [Spawn (fresh this) path
                ["new"; projectName; if isBin then "--bin" else "--lib"] cwd']
    ∧ running this' task
    ∧ currentTask this' = Some (fresh this)
    ∧ fresh this ≠ task
    ∧ (step JSON_parse now CallStopTask this').2 = [TreeKill (fresh this) "SIGTERM"].
Proof.
  intros this now projectName isBin cwd' f task command args cwd startTime Hf.
  pose proof (CargoTaskManagerMore.wf_reachable JSON_parse enabled show path history)
    as Hwf. fold this in Hwf.
  pose proof (CargoTaskManagerMore.run_configuration JSON_parse history
                (constructor enabled show path)) as Hconfiguration.
  fold this in Hconfiguration. injection Hconfiguration as Hshow Hpath _.
  pose proof (wf_executing _ Hwf _ _ _ _ _ _ Hf) as Hcurrent.
  destruct (wf_current _ Hwf _ Hcurrent) as [Hlt _].
  unfold InvokeCargoNew.invokeCargoNew. simpl. rewrite Hshow, Hpath.
  split; [done |]. split; [by exists f, command, args, cwd, startTime |].
  split; [done |]. split; [lia |].
  unfold killTask. simpl. by rewrite lookup_insert_eq.
Qed.

(** X26.  When [invokeCargoNew] has run beside a process of [runCargo]
    and [cargo new] has exited, there is no current task although that
    process is still running.  A call of [runCargo], forced or not, then
    starts its command beside it: it sends no signal, and spawns when
    [cwd()] is resolved. *)
Theorem cargo_new_unguards (this : t) f task command args cwd startTime :
  frames this !! f = Some (AwaitExecute task command args cwd startTime) →
  ∀ projectName isBin cwd' code now now' command' args' force cwd'',
    let creating := (InvokeCargoNew.invokeCargoNew projectName isBin cwd' this).1 in
    let created := InvokeCargoNew.onExit (fresh this) code creating in
    currentTask creating = Some (fresh this)
    ∧ currentTask created = None
    ∧ running created task
    ∧ (run JSON_parse
         [(now, CallRunCargo command' args' force);
          (now', CwdSettled (S (fresh this)) (inl cwd''))] created).2
      = [ClearDiagnostics] ++ (if showOutput this then [ChannelShow] else [])
        ++ [StatusBarShow] ++ started command' (messageFormat command' args')
        ++ [Spawn (S (S (fresh this))) (cargoPath this)
                  (command' :: messageFormat command' args') cwd''].
Proof.
  intros Hf projectName isBin cwd' code now now' command' args' force cwd''
    creating created.
  assert (created
          = set_currentTask None
              (set_tasks
                 (<[fresh this := {| CargoTask.process := None;
                                     CargoTask.interrupted := false |}]>
                    (tasks creating)) creating)) as Hcreated.
  { subst created creating.
    unfold InvokeCargoNew.onExit, InvokeCargoNew.invokeCargoNew. simpl.
    by rewrite lookup_insert_eq. }
  split; [done |]. rewrite Hcreated. split; [done |].
  split; [by exists f, command, args, cwd, startTime |].
  simpl. rewrite lookup_insert_eq. unfold afterCwd. simpl.
  by destruct (showOutput this).
Qed.





End WithDecoder.

Lemma cargo_new_takes_over_witness :
  let this :=
    (run DiagnosticParser.JSON_parse Examples2.building (constructor true false "cargo")).1 in
  let '(this', effects) := InvokeCargoNew.invokeCargoNew "demo" true "/work" this in
  effects = [ChannelClear; Spawn 2 "cargo" ["new"; "demo"; "--bin"] "/work"]
  ∧ running this' 1
  ∧ currentTask this' = Some 2
  ∧ 2 ≠ 1
  ∧ (step DiagnosticParser.JSON_parse 100 CallStopTask this').2 = [TreeKill 2 "SIGTERM"].
Proof.
  exact (cargo_new_takes_over DiagnosticParser.JSON_parse true false "cargo"
           Examples2.building 100%Z "demo" true "/work" 0 1 "build"
           ["--message-format"; "json"] "/project" 10%Z
           CargoTaskManagerMore.building_frame).
Defined.

Lemma cargo_new_unguards_witness :
  let this :=
    (run DiagnosticParser.JSON_parse Examples2.building (constructor true false "cargo")).1 in
  let created :=
    InvokeCargoNew.onExit 2 (Some 0%Z)
      (InvokeCargoNew.invokeCargoNew "demo" true "/work" this).1 in
  running created 1
  ∧ (run DiagnosticParser.JSON_parse
       [(20%Z, CallRunCargo "init" ["--name"; "demo"; "--bin"] false);
        (30%Z, CwdSettled 3 (inl "/project"))] created).2
    = [ClearDiagnostics; StatusBarShow; ChannelClear;
       ChannelAppend ("Started cargo init --name demo --bin" +:+ JS.LF);
       Spawn 4 "cargo" ["init"; "--name"; "demo"; "--bin"] "/project"].
Proof.
  intros this created.
  assert (fresh this = 2) as Hfresh by (vm_compute; reflexivity).
  pose proof (cargo_new_unguards DiagnosticParser.JSON_parse this 0 1 "build"
                ["--message-format"; "json"] "/project" 10%Z
                CargoTaskManagerMore.building_frame
                "demo" true "/work" (Some 0%Z) 20%Z 30%Z "init"
                ["--name"; "demo"; "--bin"] false "/project") as Hunguarded.
  cbv zeta in Hunguarded. rewrite Hfresh in Hunguarded.
  destruct Hunguarded as (_ & _ & Hrunning & Heffects).
  split; [exact Hrunning | exact Heffects].
Defined.


End InvokeCargoNewMore.

(** ** [CurrentWorkingDirectoryManager] *)

Module CurrentWorkingDirectoryManagerFacts.

Import CurrentWorkingDirectoryManager.

Section WithFileSystem.

Variable dirname : string → string.
Variable join : string → string → string.
Variable findUp : string → string → option string.
Variable access : string → bool.
Variable window_workspace : vscode.

(** What [getCwdFromActiveTextEditor] resolves with, and what it rejects
    with. *)
Lemma fromEditor_cases :
  (∃ fileName cargoToml,
     activeTextEditor window_workspace = Some fileName
     ∧ startsWithRootPath window_workspace fileName = true
     ∧ findUp "Cargo.toml" (dirname fileName) = Some cargoToml
     ∧ startsWithRootPath window_workspace cargoToml = true
     ∧ getCwdFromActiveTextEditor dirname findUp window_workspace
       = Resolved (Some (dirname cargoToml)))
  ∨ (∃ message,
       getCwdFromActiveTextEditor dirname findUp window_workspace
       = Rejected (Some (Error message))
       ∧ message ∈ ["No active document";
                    "Current document not in the workspace";
                    "Cargo.toml hasn't been found";
                    "Cargo.toml hasn't been found within the workspace"]).
Proof.
  unfold getCwdFromActiveTextEditor, findCargoTomlUpToWorkspace.
  destruct (activeTextEditor window_workspace) as [fileName |];
    [| right; eexists; split; [done | set_solver]].
  destruct (startsWithRootPath window_workspace fileName) eqn:HfileName; simpl;
    [| right; eexists; split; [done | set_solver]].
  destruct (findUp "Cargo.toml" (dirname fileName)) as [cargoToml |] eqn:Hfound;
    [| right; eexists; split; [done | set_solver]].
  destruct (startsWithRootPath window_workspace cargoToml) eqn:HcargoToml; simpl;
    [| right; eexists; split; [done | set_solver]].
  left. by exists fileName, cargoToml.
Qed.

(** X23.  A directory that [cwd()] resolves with is a string, and it is
    one of three: the directory of a [Cargo.toml] that [find-up] found
    from the directory of the active document, document and [Cargo.toml]
    both under the workspace root; or the remembered directory, where it
    holds a [Cargo.toml]; or the workspace root, where it holds a
    [Cargo.toml]. *)
Theorem resolved_directory (this : t) (value : option string) :
  cwd dirname join findUp access window_workspace this = Resolved value →
  ∃ directory,
    value = Some directory
    ∧ ((∃ fileName cargoToml,
          activeTextEditor window_workspace = Some fileName
          ∧ startsWithRootPath window_workspace fileName = true
          ∧ findUp "Cargo.toml" (dirname fileName) = Some cargoToml
          ∧ startsWithRootPath window_workspace cargoToml = true
          ∧ directory = dirname cargoToml)
       ∨ (rememberedCwd this = Some directory
          ∧ access (join directory "Cargo.toml") = true)
       ∨ (rootPath window_workspace = Some directory
          ∧ access (join directory "Cargo.toml") = true)).
Proof.
  unfold CurrentWorkingDirectoryManager.cwd.
  destruct fromEditor_cases
    as [(fileName & cargoToml & ? & ? & ? & ? & ->) | (message & -> & _)].
  - intros [= <-]. eexists. split; [done |]. left. by exists fileName, cargoToml.
  - unfold getPreviousCwd, checkWorkspaceCanBeUsedAsCwd, join_checked, checkPathExists.
    destruct (rememberedCwd this) as [remembered |].
    + destruct (access (join remembered "Cargo.toml")) eqn:Hremembered.
      * intros [= <-]. eexists. split; [done |]. right. by left.
      * destruct (rootPath window_workspace) as [root |]; [| done].
        destruct (access (join root "Cargo.toml")) eqn:Hroot; [| done].
        intros [= <-]. eexists. split; [done |]. right. by right.
    + destruct (rootPath window_workspace) as [root |]; [| done].
      destruct (access (join root "Cargo.toml")) eqn:Hroot; [| done].
      intros [= <-]. eexists. split; [done |]. right. by right.
Qed.

(** X24.  [cwd()] is never rejected with [undefined], so the message that
    [runCargo] reads of the error exists.  It is rejected either with a
    TypeError, where no folder is open, or with the error of the active
    document: that there is none, that it is not in the workspace, or
    that no [Cargo.toml] was found, or none within the workspace.  What
    went wrong with the remembered directory or with the workspace root
    is not reported. *)
Theorem rejection_reason (this : t) (reason : option exn) :
  cwd dirname join findUp access window_workspace this = Rejected reason →
  (reason = Some TypeError ∧ rootPath window_workspace = None)
  ∨ (∃ message,
       reason = Some (Error message)
       ∧ getCwdFromActiveTextEditor dirname findUp window_workspace = Rejected reason
       ∧ message ∈ ["No active document";
                    "Current document not in the workspace";
                    "Cargo.toml hasn't been found";
                    "Cargo.toml hasn't been found within the workspace"]).
Proof.
  unfold CurrentWorkingDirectoryManager.cwd.
  destruct fromEditor_cases
    as [(fileName & cargoToml & ? & ? & ? & ? & ->) | (message & -> & Hmessage)];
    [done |].
  unfold getPreviousCwd, checkWorkspaceCanBeUsedAsCwd, join_checked, checkPathExists.
  destruct (rememberedCwd this) as [remembered |];
    [destruct (access (join remembered "Cargo.toml")); [done |] |];
    (destruct (rootPath window_workspace) as [root |];
     [destruct (access (join root "Cargo.toml")); [done |] |];
     intros [= <-]; [right; by exists message | by left]).
Qed.

(** X25.  A manager as it is constructed remembers [null], which is not
    [undefined]: [getPreviousCwd] goes on to [join], which throws, and
    the throw is caught like a rejection.  So where the active document
    yields a directory, that is the answer; otherwise the answer is the
    workspace root, if it holds a [Cargo.toml], and else the error of the
    active document, or a TypeError where no folder is open. *)
Theorem nothing_remembered :
  cwd dirname join findUp access window_workspace constructor
  = match getCwdFromActiveTextEditor dirname findUp window_workspace with
    | Resolved value => Resolved value
    | Rejected error =>
        match rootPath window_workspace with
        | Some root =>
            if access (join root "Cargo.toml") then Resolved (Some root)
            else Rejected error
        | None => Rejected (Some TypeError)
        end
    end.
Proof.
  unfold CurrentWorkingDirectoryManager.cwd.
  destruct (getCwdFromActiveTextEditor dirname findUp window_workspace); [done |].
  unfold getPreviousCwd, checkWorkspaceCanBeUsedAsCwd, join_checked, checkPathExists.
  simpl. by destruct (rootPath window_workspace).
Qed.

End WithFileSystem.

Lemma resolved_directory_witness :
  ∃ directory,
    Some "/work/demo" = Some directory
    ∧ ((∃ fileName cargoToml,
          activeTextEditor Examples2.no_editor = Some fileName
          ∧ startsWithRootPath Examples2.no_editor fileName = true
          ∧ Examples2.findUp "Cargo.toml" (Examples2.dirname fileName) = Some cargoToml
          ∧ startsWithRootPath Examples2.no_editor cargoToml = true
          ∧ directory = Examples2.dirname cargoToml)
       ∨ (rememberedCwd constructor = Some directory
          ∧ Examples2.access (Examples2.join directory "Cargo.toml") = true)
       ∨ (rootPath Examples2.no_editor = Some directory
          ∧ Examples2.access (Examples2.join directory "Cargo.toml") = true)).
Proof.
  apply (resolved_directory Examples2.dirname Examples2.join Examples2.findUp
           Examples2.access Examples2.no_editor constructor (Some "/work/demo")).
  vm_compute. reflexivity.
Defined.

Lemma rejection_reason_witness :
  (Some (Error "Cargo.toml hasn't been found") = Some TypeError
   ∧ rootPath Examples2.notes = None)
  ∨ (∃ message,
       Some (Error "Cargo.toml hasn't been found") = Some (Error message)
       ∧ getCwdFromActiveTextEditor Examples2.dirname Examples2.findUp Examples2.notes
         = Rejected (Some (Error "Cargo.toml hasn't been found"))
       ∧ message ∈ ["No active document";
                    "Current document not in the workspace";
                    "Cargo.toml hasn't been found";
                    "Cargo.toml hasn't been found within the workspace"]).
Proof.
  apply (rejection_reason Examples2.dirname Examples2.join Examples2.findUp
           Examples2.access Examples2.notes constructor).
  vm_compute. reflexivity.
Defined.

End CurrentWorkingDirectoryManagerFacts.
